(** * Aether workflow engine: execution engine, scheduler and job queue

    A shallow embedding of
      - [backend/src/engine/executionEngine.ts]  (class WorkflowExecutionEngine),
      - [backend/src/services/schedulerService.ts] (SchedulerService,
        JobQueueService and WorkflowService),
      - the workflow types of [types/workflow.types.ts],
    followed by the properties stated about them.

    Layout: [Js] (values and built-in operations), [Types], [Engine],
    [Scheduler], [JobQueue], [WorkflowService] hold the program; [Spec] and
    [SpecExtra] the predicates the statements use, [Examples] and
    [ExamplesExtra] concrete workflows; the remaining modules hold the
    proofs.

    JavaScript values are modelled by the inductive type [any]; numbers are
    the integer-valued ones (IEEE rounding is outside the model) and strings
    are sequences of code units, a character of a string of the model
    standing for one code unit.  Promises are run to their end: an
    asynchronous method is a function from the state to an outcome.
    Identifiers drawn by [uuid()] and clock readings are arguments.
    Wall-clock fields of results ([startedAt], [finishedAt]) and logging are
    not part of the state. *)

From Stdlib Require Import ZArith List Ascii Bool Lia Permutation Sorted.
From Stdlib Require String.
From Stdlib Require Import DecimalString.
From stdpp Require Import gmap strings list fin_maps.

#[local] Set Warnings "-clear-no-such-hyp".

Local Open Scope Z_scope.

(* ===================================================================== *)
(** ** JavaScript values and the built-in operations the engine uses     *)
(* ===================================================================== *)

Module Js.

#[local] Set Warnings "-register-all".

(** The values a workflow carries around (TypeScript type [any]).  An object
    is its list of own enumerable properties in insertion order.  [Builtin]
    is an object of the language itself, a function such as [Object] or a
    prototype such as [Object.prototype], which the data of a workflow
    reaches as an inherited member ([{}.constructor]); it is known by a
    reference and by whether it is a function. *)
Inductive any : Type :=
| Undefined
| Null
| Bool (b : bool)
| Num (n : Z)
| Str (s : string)
| Arr (items : list any)
| Obj (props : list (string * any))
| Builtin (callable : bool) (ref : string).

(** ToBoolean, as used by [||], [&&] and [if]. *)
Definition truthy (v : any) : bool :=
  match v with
  | Undefined | Null => false
  | Bool b => b
  | Num n => negb (n =? 0)%Z
  | Str s => negb (String.eqb s "")
  | Arr _ | Obj _ | Builtin _ _ => true
  end.

(** [typeof v === 'object']: a function is of type ['function']. *)
Definition typeof_object (v : any) : bool :=
  match v with
  | Null | Arr _ | Obj _ => true
  | Builtin callable _ => negb callable
  | _ => false
  end.

(** [a || b]. *)
Definition or_else (a b : any) : any := if truthy a then a else b.

(** [acc == null], the test made by the optional chain [acc?.[part]]. *)
Definition nullish (v : any) : bool :=
  match v with
  | Undefined | Null => true
  | _ => false
  end.

(** Decimal rendering of numbers and of array indices. *)
Definition string_of_Z (n : Z) : string := NilZero.string_of_int (Z.to_int n).
Definition string_of_nat (n : nat) : string := NilZero.string_of_uint (Nat.to_uint n).

(** A property key that is a canonical array index. *)
Definition index_of_key (key : string) : option nat :=
  match NilEmpty.uint_of_string key with
  | Some u =>
      let n := Nat.of_uint u in
      if String.eqb (string_of_nat n) key then Some n else None
  | None => None
  end.

(** Completion of an expression: a value, or a thrown error with its
    message. *)
Inductive completion (A : Type) : Type :=
| Normal (a : A)
| Thrown (message : string).
Arguments Normal {A} a.
Arguments Thrown {A} message.

(** What a property is read from: the prototype chain a read goes along
    is that of plain objects, of arrays, of strings, of numbers, of booleans,
    or that of a built-in object. *)
Inductive Receiver : Type :=
| of_object
| of_array
| of_string
| of_number
| of_boolean
| of_builtin (ref : string).

(** The parts of the language runtime that are taken as given:
    - the regular expression engine: [new RegExp(p).test(s)], [None] when
      the pattern does not compile and the constructor throws a
      SyntaxError, whose message is [regexp_error p];
    - StringToNumber, [None] for NaN;
    - the built-in objects: [inherited r key] is what a read of [key]
      answers on a receiver that has no property of that name of its own,
      the member found along the prototype chain, [undefined] where there is
      none (for a built-in object, of which the model lists no property, it
      is every read); a read along the chain is taken to return;
      [builtin_to_string] and [builtin_to_primitive] are [String(v)] and
      ToPrimitive with hint number on a built-in object;
    - [exponential n], the rendering of a number of magnitude 1e21 or more,
      which [String] writes with an exponent. *)
Class Runtime : Type := {
  regexp_test : string -> string -> option bool;
  regexp_error : string -> string;
  string_to_number : string -> option Z;
  inherited : Receiver -> string -> any;
  builtin_to_string : string -> string;
  builtin_to_primitive : string -> any;
  exponential : Z -> string
}.

Section WithRuntime.
Context {rt : Runtime}.

(** [String(n)]: the decimal digits up to 1e21, the exponent form from
    there on. *)
Definition number_to_string (n : Z) : string :=
  if (Z.abs n <? 1000000000000000000000)%Z then string_of_Z n
  else exponential n.

(** [String(v)].  Arrays are joined with commas, null and undefined
    elements rendering as the empty string. *)
Fixpoint to_string (v : any) : string :=
  match v with
  | Undefined => "undefined"
  | Null => "null"
  | Bool true => "true"
  | Bool false => "false"
  | Num n => number_to_string n
  | Str s => s
  | Arr items =>
      String.concat ","
        (List.map (fun x => match x with
                            | Undefined | Null => ""
                            | _ => to_string x
                            end) items)
  | Obj _ => "[object Object]"
  | Builtin _ ref => builtin_to_string ref
  end.

(** Own property read on an object of the model: the first binding of the
    key. *)
Fixpoint assoc (key : string) (props : list (string * any)) : option any :=
  match props with
  | [] => None
  | (k, v) :: rest => if String.eqb k key then Some v else assoc key rest
  end.

Fixpoint string_nth (n : nat) (s : string) : option ascii :=
  match s, n with
  | EmptyString, _ => None
  | String c _, O => Some c
  | String _ r, S m => string_nth m r
  end.

(** The value of an own property of a value that is neither null nor
    undefined, [undefined] when it has no property of that name of its
    own. *)
Definition get_own (o : any) (key : string) : any :=
  match o with
  | Obj props => match assoc key props with Some v => v | None => Undefined end
  | Arr items =>
      if String.eqb key "length" then Num (Z.of_nat (length items))
      else match index_of_key key with
           | Some i => nth i items Undefined
           | None => Undefined
           end
  | Str s =>
      if String.eqb key "length" then Num (Z.of_nat (String.length s))
      else match index_of_key key with
           | Some i => match string_nth i s with
                       | Some c => Str (String c EmptyString)
                       | None => Undefined
                       end
           | None => Undefined
           end
  | _ => Undefined
  end.

(** Whether a value has a property of that name of its own: the keys of
    an object, the indices and the length of an array and of a string. *)
Definition has_own (o : any) (key : string) : bool :=
  match o with
  | Obj props => match assoc key props with Some _ => true | None => false end
  | Arr items =>
      String.eqb key "length" ||
      match index_of_key key with
      | Some i => (i <? length items)%nat
      | None => false
      end
  | Str s =>
      String.eqb key "length" ||
      match index_of_key key with
      | Some i => (i <? String.length s)%nat
      | None => false
      end
  | _ => false
  end.

Definition receiver (o : any) : option Receiver :=
  match o with
  | Undefined | Null => None
  | Bool _ => Some of_boolean
  | Num _ => Some of_number
  | Str _ => Some of_string
  | Arr _ => Some of_array
  | Obj _ => Some of_object
  | Builtin _ ref => Some (of_builtin ref)
  end.

(** [o[key]] on a value that is neither null nor undefined: the property
    of its own when it has one, the inherited member otherwise. *)
Definition get (o : any) (key : string) : any :=
  if has_own o key then get_own o key
  else match receiver o with
       | Some r => inherited r key
       | None => Undefined
       end.

(** Plain member access [o[key]]: a TypeError on null and undefined. *)
Definition member (o : any) (key : string) : completion any :=
  if nullish o
  then Thrown ("Cannot read properties of " +:+ to_string o
               +:+ " (reading '" +:+ key +:+ "')")
  else Normal (get o key).

(** Optional member access [o?.[key]]. *)
Definition opt_member (o : any) (key : string) : completion any :=
  if nullish o then Normal Undefined else member o key.

(** [s.split('.')]: never empty, [''.split('.')] is [['']]. *)
Fixpoint split_on (sep : ascii) (s : string) : list string :=
  match s with
  | EmptyString => [EmptyString]
  | String c rest =>
      if Ascii.eqb c sep then EmptyString :: split_on sep rest
      else match split_on sep rest with
           | [] => [String c EmptyString]
           | hd :: tl => String c hd :: tl
           end
  end.

(** [s.startsWith(p)]. *)
Fixpoint startsWith (p s : string) : bool :=
  match p, s with
  | EmptyString, _ => true
  | String _ _, EmptyString => false
  | String a p', String b s' => Ascii.eqb a b && startsWith p' s'
  end.

(** [s.includes(p)]. *)
Fixpoint includes (s p : string) : bool :=
  startsWith p s ||
  match s with
  | EmptyString => false
  | String _ s' => includes s' p
  end.

(** Object.assign(target, source): every own enumerable key of the
    source, in order, is read from the source and written to the target.
    Objects own their properties, arrays and strings their indices, the
    other primitives nothing, and the properties of a built-in object are
    not enumerable. *)
Fixpoint set_prop (key : string) (v : any) (props : list (string * any))
  : list (string * any) :=
  match props with
  | [] => [(key, v)]
  | (k, w) :: rest =>
      if String.eqb k key then (k, v) :: rest else (k, w) :: set_prop key v rest
  end.

Definition own_keys (source : any) : list string :=
  match source with
  | Obj props => List.map fst props
  | Arr items => List.map string_of_nat (seq 0 (length items))
  | Str s => List.map string_of_nat (seq 0 (String.length s))
  | _ => []
  end.

Definition assign (target : list (string * any)) (source : any)
  : list (string * any) :=
  fold_left (fun t key => set_prop key (get_own source key) t)
            (own_keys source) target.

(** ToPrimitive with hint number: objects and arrays render as strings. *)
Definition to_primitive (v : any) : any :=
  match v with
  | Arr _ | Obj _ => Str (to_string v)
  | Builtin _ ref => builtin_to_primitive ref
  | _ => v
  end.

(** ToNumber on a primitive; [None] is NaN. *)
Definition to_number (v : any) : option Z :=
  match v with
  | Undefined => None
  | Null => Some 0%Z
  | Bool true => Some 1%Z
  | Bool false => Some 0%Z
  | Num n => Some n
  | Str s => string_to_number s
  | Arr _ | Obj _ | Builtin _ _ => None
  end.

(** Abstract relational comparison [a < b]; [None] is the undefined
    result obtained when a NaN is involved. *)
Definition less_than (a b : any) : option bool :=
  match to_primitive a, to_primitive b with
  | Str s, Str t => Some (String.ltb s t)
  | pa, pb =>
      match to_number pa, to_number pb with
      | Some x, Some y => Some (x <? y)%Z
      | _, _ => None
      end
  end.

Definition js_lt (a b : any) : bool :=
  match less_than a b with Some true => true | _ => false end.
Definition js_gt (a b : any) : bool :=
  match less_than b a with Some true => true | _ => false end.
Definition js_lte (a b : any) : bool :=
  match less_than b a with Some false => true | _ => false end.
Definition js_gte (a b : any) : bool :=
  match less_than a b with Some false => true | _ => false end.

(** The pattern [new RegExp(v)] compiles: the empty one for undefined,
    [String(v)] otherwise. *)
Definition regexp_source (v : any) : string :=
  match v with
  | Undefined => ""
  | _ => to_string v
  end.

(** [a === b].  Objects and arrays compare by identity; the engine only
    compares a value found in a node's result with a value stored in the
    workflow definition, which are never the same object.  A built-in
    object is the same as itself. *)
Definition strict_equals (a b : any) : bool :=
  match a, b with
  | Undefined, Undefined => true
  | Null, Null => true
  | Bool x, Bool y => Bool.eqb x y
  | Num x, Num y => (x =? y)%Z
  | Str x, Str y => String.eqb x y
  | Builtin f x, Builtin g y => Bool.eqb f g && String.eqb x y
  | _, _ => false
  end.

End WithRuntime.

End Js.

(* ===================================================================== *)
(** ** Workflow types ([types/workflow.types.ts])                        *)
(* ===================================================================== *)

Module Types.
Import Js.

(** enum NodeType; [NodeType_tag] is the string each member stands for at
    run time. *)
Inductive NodeType : Type :=
| AGENT | TRIGGER | CONDITION | OUTPUT
| TRIGGER_WEBHOOK | TRIGGER_SCHEDULE | TRIGGER_FORM | TRIGGER_EVENT
| TRIGGER_MANUAL
| ACTION_HTTP | ACTION_CODE | ACTION_SET | ACTION_MERGE | ACTION_SPLIT
| ACTION_FILTER | ACTION_SWITCH | ACTION_LOOP | ACTION_WAIT | ACTION_RESPOND
| ACTION_EMAIL | ACTION_SLACK | ACTION_DISCORD | ACTION_TELEGRAM
| ACTION_GOOGLE_SHEETS | ACTION_DATABASE | ACTION_S3
| ACTION_AI_CHAT | ACTION_AI_SUMMARIZE | ACTION_AI_CLASSIFY
| ACTION_AI_TRANSFORM
| ACTION_FUNCTION | ACTION_ERROR_TRIGGER | ACTION_SUBWORKFLOW.

Definition NodeType_tag (t : NodeType) : string :=
  match t with
  | AGENT => "AGENT" | TRIGGER => "TRIGGER" | CONDITION => "CONDITION"
  | OUTPUT => "OUTPUT"
  | TRIGGER_WEBHOOK => "TRIGGER_WEBHOOK"
  | TRIGGER_SCHEDULE => "TRIGGER_SCHEDULE"
  | TRIGGER_FORM => "TRIGGER_FORM"
  | TRIGGER_EVENT => "TRIGGER_EVENT"
  | TRIGGER_MANUAL => "TRIGGER_MANUAL"
  | ACTION_HTTP => "ACTION_HTTP" | ACTION_CODE => "ACTION_CODE"
  | ACTION_SET => "ACTION_SET" | ACTION_MERGE => "ACTION_MERGE"
  | ACTION_SPLIT => "ACTION_SPLIT" | ACTION_FILTER => "ACTION_FILTER"
  | ACTION_SWITCH => "ACTION_SWITCH" | ACTION_LOOP => "ACTION_LOOP"
  | ACTION_WAIT => "ACTION_WAIT" | ACTION_RESPOND => "ACTION_RESPOND"
  | ACTION_EMAIL => "ACTION_EMAIL" | ACTION_SLACK => "ACTION_SLACK"
  | ACTION_DISCORD => "ACTION_DISCORD" | ACTION_TELEGRAM => "ACTION_TELEGRAM"
  | ACTION_GOOGLE_SHEETS => "ACTION_GOOGLE_SHEETS"
  | ACTION_DATABASE => "ACTION_DATABASE" | ACTION_S3 => "ACTION_S3"
  | ACTION_AI_CHAT => "ACTION_AI_CHAT"
  | ACTION_AI_SUMMARIZE => "ACTION_AI_SUMMARIZE"
  | ACTION_AI_CLASSIFY => "ACTION_AI_CLASSIFY"
  | ACTION_AI_TRANSFORM => "ACTION_AI_TRANSFORM"
  | ACTION_FUNCTION => "ACTION_FUNCTION"
  | ACTION_ERROR_TRIGGER => "ACTION_ERROR_TRIGGER"
  | ACTION_SUBWORKFLOW => "ACTION_SUBWORKFLOW"
  end.

(** The members listed under "Triggers" in the enum. *)
Definition trigger_types : list NodeType :=
  [TRIGGER_WEBHOOK; TRIGGER_SCHEDULE; TRIGGER_FORM; TRIGGER_EVENT;
   TRIGGER_MANUAL].

Record Position : Type := { x : Z; y : Z }.

Record WorkflowNode : Type := {
  node_id : string;
  type : NodeType;
  name : string;
  position : Position;
  config : any;
  credentialId : option string
}.

Record Condition : Type := {
  field : string;
  operator : string;
  value : any
}.

Record WorkflowEdge : Type := {
  edge_id : string;
  source : string;
  target : string;
  sourceHandle : option string;
  targetHandle : option string;
  condition : option Condition
}.

Inductive ErrorHandling : Type := stop | continue | retry.

Record Settings : Type := {
  errorHandling : option ErrorHandling;
  maxRetries : option Z;
  timeout : option Z
}.

Record WorkflowDefinition : Type := {
  wf_id : string;
  wf_name : string;
  description : option string;
  nodes : list WorkflowNode;
  edges : list WorkflowEdge;
  settings : option Settings
}.

Inductive Mode : Type := manual | webhook | schedule | retry_mode | subworkflow.

Record ExecutionContext : Type := {
  executionId : string;
  workflowId : string;
  userId : option string;
  mode : Mode;
  input : any;
  nodeOutputs : gmap string any;
  variables : list (string * any);
  credentials : gmap string any
}.

Inductive NodeStatus : Type := success | error | skipped.

Record NodeExecutionResult : Type := {
  nodeId : string;
  status : NodeStatus;
  data : any;
  error_message : option string
}.

(** What awaiting a handler's promise gives: its value, or the message of
    the error it rejected with.  A handler that fails rejects with an
    error object, which carries a message (section 4.1 of the
    specification, step 5: "on failure record an error result with the
    message"). *)
Inductive Settled : Type :=
| Resolved (output : any)
| Rejected (message : string).

Definition NodeHandler : Type :=
  WorkflowNode -> any -> ExecutionContext -> Settled.

Record JobPayload : Type := {
  job_workflowId : string;
  job_executionId : string;
  job_input : any;
  job_userId : option string;
  job_mode : Mode
}.

End Types.

(* ===================================================================== *)
(** ** The execution engine ([engine/executionEngine.ts])                *)
(* ===================================================================== *)

Module Engine.
Import Js Types.

(** The instance state of a WorkflowExecutionEngine besides the immutable
    [workflow]: the context, the Set [executedNodes] and the Map
    [nodeResults], whose insertion order [Array.from(values())] exposes.
    [history] is a ghost log, newest event first, of the handler calls
    (with what the promise settled to) and of the bookkeeping at lines
    191-192; no code reads it. *)
Inductive Event : Type :=
| Invoked (id : string) (input : any) (settled : Settled)
| Recorded (id : string).

Record State : Type := {
  context : ExecutionContext;
  executedNodes : gset string;
  nodeResults : list (string * NodeExecutionResult);
  history : list Event
}.

(** Outcome of an asynchronous method run to its end: it returns, it throws,
    or the recursion budget of the model is used up. *)
Inductive Outcome (A : Type) : Type :=
| Return (a : A) (s : State)
| Throw (message : string) (s : State)
| OutOfFuel.
Arguments Return {A} a s.
Arguments Throw {A} message s.
Arguments OutOfFuel {A}.

Definition bind {A B : Type} (m : Outcome A) (k : A -> State -> Outcome B)
  : Outcome B :=
  match m with
  | Return a s => k a s
  | Throw msg s => Throw msg s
  | OutOfFuel => OutOfFuel
  end.

(** [for (const x of xs) { await body(x) }]. *)
Fixpoint for_each {A : Type} (body : A -> State -> Outcome unit)
  (xs : list A) (s : State) : Outcome unit :=
  match xs with
  | [] => Return tt s
  | x :: rest => bind (body x s) (fun _ => for_each body rest)
  end.

(** Map.prototype.set on a Map kept in insertion order. *)
Fixpoint map_set {V : Type} (key : string) (v : V) (m : list (string * V))
  : list (string * V) :=
  match m with
  | [] => [(key, v)]
  | (k, w) :: rest =>
      if String.eqb k key then (k, v) :: rest else (k, w) :: map_set key v rest
  end.

Definition set_nodeOutput (id : string) (v : any) (c : ExecutionContext)
  : ExecutionContext :=
  {| executionId := executionId c; workflowId := workflowId c;
     userId := userId c; mode := mode c; input := input c;
     nodeOutputs := <[id := v]> (nodeOutputs c);
     variables := variables c; credentials := credentials c |}.

Definition with_context (c : ExecutionContext) (s : State) : State :=
  {| context := c; executedNodes := executedNodes s;
     nodeResults := nodeResults s; history := history s |}.

Definition log_event (ev : Event) (s : State) : State :=
  {| context := context s; executedNodes := executedNodes s;
     nodeResults := nodeResults s; history := ev :: history s |}.

(** Lines 191-192: [executedNodes.add(node.id); nodeResults.set(node.id, result)]. *)
Definition record_result (id : string) (r : NodeExecutionResult) (s : State)
  : State :=
  {| context := context s;
     executedNodes := {[id]} ∪ executedNodes s;
     nodeResults := map_set id r (nodeResults s);
     history := Recorded id :: history s |}.

(** constructor *)
Definition new_engine (workflow : WorkflowDefinition) (input : any)
  (userId : option string) (mode : Mode) (uuid : string) : State :=
  {| context := {| executionId := uuid; workflowId := wf_id workflow;
                   userId := userId; mode := mode; input := input;
                   nodeOutputs := ∅; variables := []; credentials := ∅ |};
     executedNodes := ∅;
     nodeResults := [];
     history := [] |}.

Section WithWorkflow.
Context {rt : Runtime}.

(** Modelled from the spec: the Node Handler Registry of
    [engine/nodeHandlers.ts] is not among the sources.  Section 4.2 gives
    its surface, [getHandler(typeTag) -> handler | null], with handlers that
    are functions of [(node, input, context)], leave the recorded outputs
    of the context alone, and succeed with an output or fail with an error
    and its message. *)
Variable getHandler : NodeType -> option NodeHandler.

Variable workflow : WorkflowDefinition.

Definition getIncomingEdges (nodeId : string) : list WorkflowEdge :=
  List.filter (fun e => String.eqb (target e) nodeId) (edges workflow).

Definition getOutgoingEdges (nodeId : string) : list WorkflowEdge :=
  List.filter (fun e => String.eqb (source e) nodeId) (edges workflow).

Definition findStartNodes : list WorkflowNode :=
  let nodesWithIncoming : gset string :=
    list_to_set (List.map target (edges workflow)) in
  List.filter
    (fun n => negb (bool_decide (node_id n ∈ nodesWithIncoming))
              || startsWith "TRIGGER_" (NodeType_tag (type n)))
    (nodes workflow).

Definition findEndNodes : list WorkflowNode :=
  let nodesWithOutgoing : gset string :=
    list_to_set (List.map source (edges workflow)) in
  List.filter (fun n => negb (bool_decide (node_id n ∈ nodesWithOutgoing)))
              (nodes workflow).

(** [this.context.nodeOutputs.get(id)]. *)
Definition output_of (c : ExecutionContext) (id : string) : any :=
  match nodeOutputs c !! id with
  | Some v => v
  | None => Undefined
  end.

(** The body of the merging loop (lines 259-262). *)
Definition merge_edge (c : ExecutionContext) (mergedInput : list (string * any))
  (edge : WorkflowEdge) : list (string * any) :=
  let output := output_of c (source edge) in
  if truthy output && typeof_object output
  then assign mergedInput output
  else mergedInput.

Definition gatherNodeInput (c : ExecutionContext) (nodeId : string) : any :=
  let incomingEdges := getIncomingEdges nodeId in
  match incomingEdges with
  | [] => or_else (input c) (Obj [])
  | [edge] => or_else (output_of c (source edge)) (Obj [])
  | _ => Obj (fold_left (merge_edge c) incomingEdges [])
  end.

(** The reducer [(acc, part) => acc?.[part]]; a throw ends the reduction. *)
Definition step (acc : completion any) (part : string) : completion any :=
  match acc with
  | Normal a => opt_member a part
  | Thrown msg => Thrown msg
  end.

Definition getNestedValue (obj : any) (path : string) : completion any :=
  fold_left step (split_on "." path) (Normal obj).

(** The [switch] of evaluateCondition (lines 276-295). *)
Definition switch_operator (operator : string) (fieldValue value : any)
  : completion bool :=
  if String.eqb operator "eq" then Normal (strict_equals fieldValue value)
  else if String.eqb operator "neq"
       then Normal (negb (strict_equals fieldValue value))
  else if String.eqb operator "gt" then Normal (js_gt fieldValue value)
  else if String.eqb operator "gte" then Normal (js_gte fieldValue value)
  else if String.eqb operator "lt" then Normal (js_lt fieldValue value)
  else if String.eqb operator "lte" then Normal (js_lte fieldValue value)
  else if String.eqb operator "contains"
       then Normal (includes (to_string fieldValue) (to_string value))
  else if String.eqb operator "regex"
       then match regexp_test (regexp_source value) (to_string fieldValue) with
            | Some b => Normal b
            | None => Thrown (regexp_error (regexp_source value))
            end
  else Normal true.

Definition evaluateCondition (condition : option Condition) (data : any)
  : completion bool :=
  match condition with
  | None => Normal true
  | Some cond =>
      match getNestedValue data (field cond) with
      | Thrown msg => Thrown msg
      | Normal fieldValue =>
          switch_operator (operator cond) fieldValue (value cond)
      end
  end.

(** [this.workflow.settings?.errorHandling !== 'continue'] *)
Definition stops_on_error : bool :=
  match settings workflow with
  | Some st => match errorHandling st with
               | Some continue => false
               | _ => true
               end
  | None => true
  end.

(** The body of the [try] block of executeNode (lines 137-169): the
    produced result and the state, or the message of the caught error. *)
Definition run_handler (node : WorkflowNode) (s : State)
  : State * (string + NodeExecutionResult) :=
  let input := gatherNodeInput (context s) (node_id node) in
  match getHandler (type node) with
  | None =>
      (s, inl ("No handler registered for node type: "
               +:+ NodeType_tag (type node)))
  | Some handler =>
      let settled := handler node input (context s) in
      let s1 := log_event (Invoked (node_id node) input settled) s in
      match settled with
      | Rejected msg => (s1, inl msg)
      | Resolved output =>
          (with_context (set_nodeOutput (node_id node) output (context s1)) s1,
           inr {| nodeId := node_id node; status := success;
                  data := output; error_message := None |})
      end
  end.

(** One turn of the loop over the outgoing edges (lines 197-207), given
    the recursive call. *)
Definition follow_edge (recur : WorkflowNode -> State -> Outcome unit)
  (result_data : any) (edge : WorkflowEdge) (s : State) : Outcome unit :=
  let visit :=
    match List.find (fun n => String.eqb (node_id n) (target edge))
                    (nodes workflow) with
    | Some nextNode => recur nextNode s
    | None => Return tt s
    end in
  match condition edge with
  | None => visit
  | Some cond =>
      match evaluateCondition (Some cond) result_data with
      | Thrown msg => Throw msg s
      | Normal false => Return tt s
      | Normal true => visit
      end
  end.

Fixpoint executeNode (fuel : nat) (node : WorkflowNode) (s : State)
  : Outcome unit :=
  match fuel with
  | O => OutOfFuel
  | S fuel' =>
      if bool_decide (node_id node ∈ executedNodes s) then Return tt s
      else if negb (forallb (fun edge => bool_decide (source edge ∈ executedNodes s))
                            (getIncomingEdges (node_id node)))
      then Return tt s
      else
        let after (s' : State) (result : NodeExecutionResult) :=
          for_each (follow_edge (executeNode fuel') (data result))
                   (getOutgoingEdges (node_id node))
                   (record_result (node_id node) result s') in
        match run_handler node s with
        | (s1, inr result) => after s1 result
        | (s1, inl msg) =>
            if stops_on_error then Throw msg s1
            else after s1 {| nodeId := node_id node; status := error;
                             data := Undefined; error_message := Some msg |}
        end
  end.

(** Lines 71-73: every start node gets the input as its recorded output. *)
Definition seed_outputs (startNodes : list WorkflowNode) (s : State) : State :=
  fold_left
    (fun st node =>
       with_context
         (set_nodeOutput (node_id node) (input (context st)) (context st)) st)
    startNodes s.

Inductive RunStatus : Type := run_success | run_failed.

Record ExecutionResult : Type := {
  result_executionId : string;
  result_status : RunStatus;
  results : list NodeExecutionResult;
  output : any;
  result_error : option string
}.

(** The [try] block of execute (lines 62-99). *)
Definition execute_body (fuel : nat) (s : State) : Outcome any :=
  let startNodes := findStartNodes in
  match startNodes with
  | [] => Throw "No trigger or start node found in workflow" s
  | _ =>
      let s1 :=
        if truthy (input (context s)) then seed_outputs startNodes s else s in
      bind (for_each (executeNode fuel) startNodes s1)
           (fun _ s2 =>
              let endNodes := findEndNodes in
              let finalOutput :=
                match last endNodes with
                | Some n => output_of (context s2) (node_id n)
                | None => Undefined
                end in
              Return finalOutput s2)
  end.

(** execute(), with a recursion budget; [None] when the budget runs out. *)
Definition execute_with (fuel : nat) (s : State)
  : option (ExecutionResult * State) :=
  match execute_body fuel s with
  | Return finalOutput s' =>
      Some ({| result_executionId := executionId (context s');
               result_status := run_success;
               results := List.map snd (nodeResults s');
               output := finalOutput;
               result_error := None |}, s')
  | Throw msg s' =>
      Some ({| result_executionId := executionId (context s');
               result_status := run_failed;
               results := List.map snd (nodeResults s');
               output := Undefined;
               result_error := Some msg |}, s')
  | OutOfFuel => None
  end.

(** A budget that is always enough (see [EngineFacts.execute_total]): a
    call chain of executeNode is never deeper than the number of nodes plus
    one. *)
Definition budget : nat := S (length (nodes workflow)).

Definition execute (s : State) : option (ExecutionResult * State) :=
  execute_with budget s.

End WithWorkflow.

(** executeWorkflow(workflow, input, userId, mode); [uuid] is the identifier
    drawn by the constructor. *)
Definition executeWorkflow {rt : Runtime} (getHandler : NodeType -> option NodeHandler)
  (workflow : WorkflowDefinition) (input : any) (userId : option string)
  (mode : Mode) (uuid : string) : option ExecutionResult :=
  option_map fst
    (execute getHandler workflow (new_engine workflow input userId mode uuid)).

End Engine.

(* ===================================================================== *)
(** ** The scheduler ([services/schedulerService.ts], SchedulerService)  *)
(* ===================================================================== *)

Module Scheduler.
Import Js Types.

(** The handle returned by [cron.schedule]: a timer that is running or
    stopped. *)
Record Task : Type := { running : bool }.

Record ScheduledJob : Type := {
  id : string;
  workflowId : string;
  cronExpression : string;
  timezone : string;
  isActive : bool;
  lastRunAt : option Z;
  nextRunAt : option Z;
  task : Task
}.

(** [jobs] is a Map, kept in insertion order as [list()] shows it. *)
Record Service : Type := {
  jobs : list (string * ScheduledJob);
  workflowStore : gmap string WorkflowDefinition
}.

Definition empty_service : Service := {| jobs := []; workflowStore := ∅ |}.

Definition registerWorkflow (workflow : WorkflowDefinition) (svc : Service)
  : Service :=
  {| jobs := jobs svc;
     workflowStore := <[wf_id workflow := workflow]> (workflowStore svc) |}.

(** Milliseconds since the epoch; "next minute". *)
Definition getNextRunTime (now : Z) (cronExpression : string) : Z :=
  (now + 60000)%Z.

Section WithValidator.

(** [cron.validate] and [cron.schedule] of the node-cron package, which
    the service calls and which is not part of the repository.
    [cron_schedule expression timezone] is the call
    [cron.schedule(expression, callback, { timezone })]: it starts the timer
    and returns its handle, or throws, as it does for a time zone it does
    not know. *)
Variable cron_validate : string -> bool.
Variable cron_schedule : string -> string -> completion unit.

Definition validateCron (expression : string) : bool :=
  cron_validate expression.

(** schedule(workflowId, cronExpression, timezone); [uuid] is the
    identifier drawn for the job and [now] the clock reading. *)
Definition schedule (uuid : string) (now : Z) (workflowId cronExpression : string)
  (timezone : option string) (svc : Service) : completion string * Service :=
  if negb (cron_validate cronExpression)
  then (Thrown ("Invalid cron expression: " +:+ cronExpression), svc)
  else
    let jobId := "schedule_" +:+ uuid in
    match cron_schedule cronExpression (default "UTC" timezone) with
    | Thrown msg => (Thrown msg, svc)
    | Normal _ =>
        let job := {| id := jobId; workflowId := workflowId;
                      cronExpression := cronExpression;
                      timezone := default "UTC" timezone;
                      isActive := true;
                      lastRunAt := None;
                      nextRunAt := Some (getNextRunTime now cronExpression);
                      task := {| running := true |} |} in
        (Normal jobId,
         {| jobs := Engine.map_set jobId job (jobs svc);
            workflowStore := workflowStore svc |})
    end.

End WithValidator.

Fixpoint assoc_job (jobId : string) (m : list (string * ScheduledJob))
  : option ScheduledJob :=
  match m with
  | [] => None
  | (k, j) :: rest => if String.eqb k jobId then Some j else assoc_job jobId rest
  end.

Definition update_job (jobId : string) (f : ScheduledJob -> ScheduledJob)
  (svc : Service) : Service :=
  {| jobs := List.map (fun kv => if String.eqb (fst kv) jobId
                                 then (fst kv, f (snd kv)) else kv) (jobs svc);
     workflowStore := workflowStore svc |}.

Definition stop (jobId : string) (svc : Service) : bool * Service :=
  match assoc_job jobId (jobs svc) with
  | None => (false, svc)
  | Some _ =>
      (true,
       update_job jobId
         (fun job => {| id := id job; workflowId := workflowId job;
                        cronExpression := cronExpression job;
                        timezone := timezone job; isActive := false;
                        lastRunAt := lastRunAt job; nextRunAt := nextRunAt job;
                        task := {| running := false |} |}) svc)
  end.

Definition resume (now : Z) (jobId : string) (svc : Service) : bool * Service :=
  match assoc_job jobId (jobs svc) with
  | None => (false, svc)
  | Some _ =>
      (true,
       update_job jobId
         (fun job => {| id := id job; workflowId := workflowId job;
                        cronExpression := cronExpression job;
                        timezone := timezone job; isActive := true;
                        lastRunAt := lastRunAt job;
                        nextRunAt := Some (getNextRunTime now (cronExpression job));
                        task := {| running := true |} |}) svc)
  end.

Definition remove (jobId : string) (svc : Service) : bool * Service :=
  match assoc_job jobId (jobs svc) with
  | None => (false, svc)
  | Some _ =>
      (true,
       {| jobs := List.filter (fun kv => negb (String.eqb (fst kv) jobId)) (jobs svc);
          workflowStore := workflowStore svc |})
  end.

(** What list() shows of a job: everything but the timer handle. *)
Record JobInfo : Type := {
  info_id : string;
  info_workflowId : string;
  info_cronExpression : string;
  info_timezone : string;
  info_isActive : bool;
  info_lastRunAt : option Z;
  info_nextRunAt : option Z
}.

(** list() *)
Definition listJobs (svc : Service) : list JobInfo :=
  List.map (fun kv =>
              let job := snd kv in
              {| info_id := id job; info_workflowId := workflowId job;
                 info_cronExpression := cronExpression job;
                 info_timezone := timezone job; info_isActive := isActive job;
                 info_lastRunAt := lastRunAt job;
                 info_nextRunAt := nextRunAt job |})
           (jobs svc).

(** describeCron(expression) *)
Definition describeCron (expression : string) : string :=
  match split_on " " expression with
  | [minute; hour; dayOfMonth; month; dayOfWeek] =>
      if String.eqb expression "* * * * *" then "Every minute"
      else if String.eqb expression "0 * * * *" then "Every hour"
      else if String.eqb expression "0 0 * * *" then "Every day at midnight"
      else if String.eqb expression "0 0 * * 0" then "Every Sunday at midnight"
      else if String.eqb expression "0 9 * * 1-5" then "Every weekday at 9:00 AM"
      else "At " +:+ minute +:+ " " +:+ hour +:+ " on day " +:+ dayOfMonth
           +:+ " of " +:+ month +:+ ", weekday " +:+ dayOfWeek
  | _ => "Invalid cron expression"
  end.

Section WithEngine.
Context {rt : Runtime}.
Variable getHandler : NodeType -> option NodeHandler.

(** executeScheduledWorkflow(jobId), the callback of the timer.  [fired] is
    the ISO rendering of the clock when the run starts, [uuid] the
    identifier the engine draws, [finished] and [recomputed] the clock
    readings taken for lastRunAt and by getNextRunTime.  The second
    component is the result of the run when there was one; [None] overall
    when the recursion budget of the engine is used up. *)
Definition executeScheduledWorkflow (jobId fired uuid : string)
  (finished recomputed : Z) (svc : Service)
  : option (Service * option Engine.ExecutionResult) :=
  match assoc_job jobId (jobs svc) with
  | None => Some (svc, None)
  | Some job =>
      if negb (isActive job) then Some (svc, None)
      else
        match workflowStore svc !! workflowId job with
        | None => Some (svc, None)
        | Some workflow =>
            match Engine.executeWorkflow getHandler workflow
                    (Obj [("scheduledTime", Str fired)]) None Types.schedule uuid with
            | None => None
            | Some result =>
                Some
                  (update_job jobId
                     (fun j => {| id := id j; workflowId := workflowId j;
                                  cronExpression := cronExpression j;
                                  timezone := timezone j; isActive := isActive j;
                                  lastRunAt := Some finished;
                                  nextRunAt :=
                                    Some (getNextRunTime recomputed (cronExpression j));
                                  task := task j |}) svc,
                   Some result)
            end
        end
  end.

End WithEngine.

(** Modelled from the spec: node-cron's [validate] is a third-party
    function, absent from the sources.  Section 6 asks for the standard
    five-field syntax, minute hour day-of-month month day-of-week, and the
    rejection of anything else: every field is a comma-separated list of
    items, an item being a star, a number or a range within the bounds of
    the field, optionally followed by a slash and a positive step. *)
Definition cron_number (s : string) : option nat :=
  if String.eqb s "" then None
  else option_map Nat.of_uint (NilEmpty.uint_of_string s).

Definition cron_in_range (lo hi : nat) (s : string) : bool :=
  match cron_number s with
  | Some n => (lo <=? n)%nat && (n <=? hi)%nat
  | None => false
  end.

Definition cron_range (lo hi : nat) (s : string) : bool :=
  String.eqb s "*" ||
  match split_on "-" s with
  | [a] => cron_in_range lo hi a
  | [a; b] =>
      cron_in_range lo hi a && cron_in_range lo hi b &&
      match cron_number a, cron_number b with
      | Some m, Some n => (m <=? n)%nat
      | _, _ => false
      end
  | _ => false
  end.

Definition cron_item (lo hi : nat) (s : string) : bool :=
  match split_on "/" s with
  | [r] => cron_range lo hi r
  | [r; step] =>
      cron_range lo hi r &&
      match cron_number step with
      | Some n => (0 <? n)%nat
      | None => false
      end
  | _ => false
  end.

Definition cron_field (lo hi : nat) (s : string) : bool :=
  forallb (cron_item lo hi) (split_on "," s).

Definition five_field_cron (expression : string) : bool :=
  match split_on " " expression with
  | [minute; hour; dayOfMonth; month; dayOfWeek] =>
      cron_field 0 59 minute && cron_field 0 23 hour &&
      cron_field 1 31 dayOfMonth && cron_field 1 12 month &&
      cron_field 0 7 dayOfWeek
  | _ => false
  end.

End Scheduler.

(* ===================================================================== *)
(** ** The job queue ([services/schedulerService.ts], JobQueueService)   *)
(* ===================================================================== *)

Module JobQueue.
Import Js Types.

(** Modelled from the spec: the BullMQ queue behind [this.queue] is an
    external broker.  Section 4.3 has it persist the jobs handed to [add],
    a job waiting, or delayed when it is scheduled for later. *)
Record QueuedJob : Type := {
  jobId : string;
  jobName : string;
  payload : JobPayload;
  priority : option Z;
  delay : option Z;
  state : string;
  progress : Z;
  returnvalue : any;
  failedReason : option string
}.

Definition queue_add (name : string) (payload : JobPayload) (jobId : string)
  (priority delay : option Z) (q : list QueuedJob) : list QueuedJob :=
  q ++ [{| jobId := jobId; jobName := name; payload := payload;
           priority := priority; delay := delay;
           state := match delay with
                    | Some d => if (0 <? d)%Z then "delayed" else "waiting"
                    | None => "waiting"
                    end;
           progress := 0; returnvalue := Undefined; failedReason := None |}].

(** [queue] is [None] for the [null] of direct mode. *)
Record Service : Type := {
  queue : option (list QueuedJob);
  workflowStore : gmap string WorkflowDefinition;
  isInitialized : bool
}.

Definition registerWorkflow (workflow : WorkflowDefinition) (svc : Service)
  : Service :=
  {| queue := queue svc;
     workflowStore := <[wf_id workflow := workflow]> (workflowStore svc);
     isInitialized := isInitialized svc |}.

Record EnqueueOptions : Type := {
  opt_userId : option string;
  opt_mode : option Mode;
  opt_priority : option Z;
  opt_delay : option Z;
  opt_jobId : option string
}.

Definition no_options : EnqueueOptions :=
  {| opt_userId := None; opt_mode := None; opt_priority := None;
     opt_delay := None; opt_jobId := None |}.

(** What a call of enqueue amounts to.  [engine_run] is the result the
    awaited execution resolved with before enqueue returned, when enqueue
    ran one; the code drops it. *)
Inductive EnqueueOutcome : Type :=
| Enqueued (executionId : string) (engine_run : option Engine.ExecutionResult)
           (svc : Service)
| Rejects (message : string)
| Unfinished.

Record JobStatus : Type := {
  status_state : string;
  status_progress : Z;
  status_data : any;
  status_error : option string
}.

Section WithRegistry.
Context {rt : Runtime}.
Variable getHandler : NodeType -> option NodeHandler.

(** executeDirect(payload); [uuid] is the identifier the engine draws. *)
Definition executeDirect (uuid : string) (payload : JobPayload) (svc : Service)
  : option (completion Engine.ExecutionResult) :=
  match workflowStore svc !! job_workflowId payload with
  | None => Some (Thrown ("Workflow not found: " +:+ job_workflowId payload))
  | Some workflow =>
      option_map Normal
        (Engine.executeWorkflow getHandler workflow (job_input payload)
           (job_userId payload) (job_mode payload) uuid)
  end.

(** processJob(job), the worker's processor: a failed run is thrown again
    so that the backend retries the job. *)
Definition processJob (uuid : string) (job : QueuedJob) (svc : Service)
  : option (completion Engine.ExecutionResult) :=
  let data := payload job in
  match workflowStore svc !! job_workflowId data with
  | None => Some (Thrown ("Workflow not found: " +:+ job_workflowId data))
  | Some workflow =>
      match Engine.executeWorkflow getHandler workflow (job_input data)
              (job_userId data) (job_mode data) uuid with
      | None => None
      | Some result =>
          match Engine.result_status result with
          | Engine.run_failed =>
              Some (Thrown
                      match Engine.result_error result with
                      | Some msg => if String.eqb msg ""
                                    then "Workflow execution failed" else msg
                      | None => "Workflow execution failed"
                      end)
          | Engine.run_success => Some (Normal result)
          end
      end
  end.

(** enqueue(workflowId, input, options); [uuid_job], [uuid_exec] and
    [uuid_engine] are the identifiers drawn on the way. *)
Definition enqueue (uuid_job uuid_exec uuid_engine : string)
  (workflowId : string) (input : any) (options : EnqueueOptions)
  (svc : Service) : EnqueueOutcome :=
  let jobId :=
    match opt_jobId options with
    | Some j => if String.eqb j "" then "job_" +:+ uuid_job else j
    | None => "job_" +:+ uuid_job
    end in
  let executionId := "exec_" +:+ uuid_exec in
  let payload := {| job_workflowId := workflowId;
                    job_executionId := executionId;
                    job_input := input;
                    job_userId := opt_userId options;
                    job_mode := default manual (opt_mode options) |} in
  match queue svc with
  | Some q =>
      Enqueued executionId None
        {| queue := Some (queue_add workflowId payload jobId
                            (opt_priority options) (opt_delay options) q);
           workflowStore := workflowStore svc;
           isInitialized := isInitialized svc |}
  | None =>
      match executeDirect uuid_engine payload svc with
      | Some (Normal r) => Enqueued executionId (Some r) svc
      | Some (Thrown msg) => Rejects msg
      | None => Unfinished
      end
  end.

End WithRegistry.

(** getJobStatus(jobId); [None] is the [null] answer. *)
Definition getJobStatus (jobId_ : string) (svc : Service) : option JobStatus :=
  match queue svc with
  | None => None
  | Some q =>
      match List.find (fun j => String.eqb (jobId j) jobId_) q with
      | None => None
      | Some job =>
          Some {| status_state := state job;
                  status_progress := progress job;
                  status_data := returnvalue job;
                  status_error := failedReason job |}
      end
  end.

(** REDIS_CONFIG.retryStrategy: the delay before the next connection
    attempt, [None] for the [null] that stops retrying. *)
Definition retryStrategy (times : Z) : option Z :=
  if (times >? 3)%Z then None else Some (Z.min (times * 100) 1000).

Definition isAvailable (svc : Service) : bool :=
  isInitialized svc && match queue svc with Some _ => true | None => false end.

End JobQueue.

(* ===================================================================== *)
(** ** The workflow service ([services/schedulerService.ts],             *)
(** ** WorkflowService)                                                  *)
(* ===================================================================== *)

Module WorkflowService.
Import Js Types.

(** interface StoredWorkflow extends WorkflowDefinition: [definition]
    holds the inherited fields. *)
Record StoredWorkflow : Type := {
  definition : WorkflowDefinition;
  userId : string;
  isActive : bool;
  createdAt : Z;
  updatedAt : Z
}.

Inductive ExecutionStatus : Type :=
| pending | running | success | failed | cancelled.

Record ExecutionRecord : Type := {
  exec_id : string;
  exec_workflowId : string;
  exec_status : ExecutionStatus;
  exec_mode : string;
  startedAt : option Z;
  finishedAt : option Z;
  exec_input : any;
  exec_output : any;
  exec_error : option string;
  exec_nodeResults : option (list any)
}.

(** The two Maps of the service, in insertion order. *)
Record Service : Type := {
  workflows : list (string * StoredWorkflow);
  executions : list (string * ExecutionRecord)
}.

Definition empty_service : Service := {| workflows := []; executions := [] |}.

Fixpoint lookup {V : Type} (key : string) (m : list (string * V)) : option V :=
  match m with
  | [] => None
  | (k, v) :: rest => if String.eqb k key then Some v else lookup key rest
  end.

(** The argument of create. *)
Record CreateData : Type := {
  data_id : option string;
  data_name : string;
  data_description : option string;
  data_nodes : option (list WorkflowNode);
  data_edges : option (list WorkflowEdge);
  data_settings : option Settings
}.

(** The argument of update, a Partial: [None] for a key that is absent. *)
Record UpdateData : Type := {
  upd_name : option string;
  upd_description : option (option string);
  upd_nodes : option (list WorkflowNode);
  upd_edges : option (list WorkflowEdge);
  upd_settings : option (option Settings);
  upd_isActive : option bool
}.

(** The argument of updateExecution, a Partial of ExecutionRecord. *)
Record ExecutionUpdate : Type := {
  set_id : option string;
  set_workflowId : option string;
  set_status : option ExecutionStatus;
  set_mode : option string;
  set_startedAt : option (option Z);
  set_finishedAt : option (option Z);
  set_input : option any;
  set_output : option any;
  set_error : option (option string);
  set_nodeResults : option (option (list any))
}.

(** [path.includes('/webhook/')] on a truthy path: the method of strings,
    the method of arrays, and a TypeError on anything else. *)
Definition path_includes_webhook (path : any) : completion bool :=
  match path with
  | Str p => Normal (includes p "/webhook/")
  | Arr items =>
      Normal (existsb (fun x => strict_equals x (Str "/webhook/")) items)
  | _ => Thrown "node.config.path.includes is not a function"
  end.

(** The callback of the map in create (lines 625-637).  No built-in
    prototype has a member named [path], so that [node.config?.path] is the
    read of the property the configuration has of its own. *)
Definition rewrite_node (id : string) (node : WorkflowNode)
  : completion WorkflowNode :=
  let path :=
    if nullish (config node) then Undefined else get_own (config node) "path" in
  if truthy path then
    match path_includes_webhook path with
    | Thrown msg => Thrown msg
    | Normal true =>
        Normal {| node_id := node_id node; type := type node;
                  name := name node; position := position node;
                  config :=
                    Obj (set_prop "path" (Str ("/webhook/" +:+ id +:+ "/trigger"))
                           (assign [] (config node)));
                  credentialId := credentialId node |}
    | Normal false => Normal node
    end
  else Normal node.

(** [xs.map(f)] for a callback that may throw. *)
Fixpoint map_throwing {A B : Type} (f : A -> completion B) (xs : list A)
  : completion (list B) :=
  match xs with
  | [] => Normal []
  | x :: rest =>
      match f x with
      | Thrown msg => Thrown msg
      | Normal y =>
          match map_throwing f rest with
          | Thrown msg => Thrown msg
          | Normal ys => Normal (y :: ys)
          end
      end
  end.

(** get(workflowId, userId?) *)
Definition get (workflowId : string) (userId_ : option string) (svc : Service)
  : option StoredWorkflow :=
  match lookup workflowId (workflows svc) with
  | None => None
  | Some workflow =>
      match userId_ with
      | Some u =>
          if negb (String.eqb u "") && negb (String.eqb (userId workflow) u)
          then None else Some workflow
      | None => Some workflow
      end
  end.

(** list(userId) *)
Definition listWorkflows (userId_ : string) (svc : Service) : list StoredWorkflow :=
  List.filter (fun w => String.eqb (userId w) userId_)
              (List.map snd (workflows svc)).

(** recordExecution(data) *)
Definition recordExecution (data : ExecutionRecord) (svc : Service) : Service :=
  {| workflows := workflows svc;
     executions := Engine.map_set (exec_id data) data (executions svc) |}.

(** [{ ...existing, ...updates }] *)
Definition apply_update (existing : ExecutionRecord) (updates : ExecutionUpdate)
  : ExecutionRecord :=
  {| exec_id := default (exec_id existing) (set_id updates);
     exec_workflowId := default (exec_workflowId existing) (set_workflowId updates);
     exec_status := default (exec_status existing) (set_status updates);
     exec_mode := default (exec_mode existing) (set_mode updates);
     startedAt := default (startedAt existing) (set_startedAt updates);
     finishedAt := default (finishedAt existing) (set_finishedAt updates);
     exec_input := default (exec_input existing) (set_input updates);
     exec_output := default (exec_output existing) (set_output updates);
     exec_error := default (exec_error existing) (set_error updates);
     exec_nodeResults :=
       default (exec_nodeResults existing) (set_nodeResults updates) |}.

(** updateExecution(executionId, updates) *)
Definition updateExecution (executionId : string) (updates : ExecutionUpdate)
  (svc : Service) : Service :=
  match lookup executionId (executions svc) with
  | Some existing =>
      {| workflows := workflows svc;
         executions :=
           Engine.map_set executionId (apply_update existing updates)
                          (executions svc) |}
  | None => svc
  end.

(** getExecution(executionId) *)
Definition getExecution (executionId : string) (svc : Service)
  : option ExecutionRecord :=
  lookup executionId (executions svc).

(** [startedAt?.getTime() || 0] *)
Definition started (e : ExecutionRecord) : Z := default 0%Z (startedAt e).

(** [xs.sort((a, b) => started(b) - started(a))]: the sort is stable, so
    among records started at the same time the earlier one stays first. *)
Fixpoint insert_by_start (x : ExecutionRecord) (sorted : list ExecutionRecord)
  : list ExecutionRecord :=
  match sorted with
  | [] => [x]
  | y :: rest =>
      if (started y <=? started x)%Z then x :: y :: rest
      else y :: insert_by_start x rest
  end.

Definition sort_by_start (xs : list ExecutionRecord) : list ExecutionRecord :=
  fold_right insert_by_start [] xs.

(** [xs.slice(0, limit)]: a negative limit counts from the end. *)
Definition slice_from_start {A : Type} (limit : Z) (xs : list A) : list A :=
  if (limit <? 0)%Z
  then firstn (Z.to_nat (Z.of_nat (length xs) + limit)) xs
  else firstn (Z.to_nat limit) xs.

(** getExecutions(workflowId, limit = 50) *)
Definition getExecutions (workflowId : string) (limit : option Z) (svc : Service)
  : list ExecutionRecord :=
  slice_from_start (default 50%Z limit)
    (sort_by_start
       (List.filter (fun e => String.eqb (exec_workflowId e) workflowId)
                    (List.map snd (executions svc)))).

Record Stats : Type := {
  totalWorkflows : nat;
  activeWorkflows : nat;
  totalExecutions : nat;
  successfulExecutions : nat;
  failedExecutions : nat
}.

Definition is_succeeded (e : ExecutionRecord) : bool :=
  match exec_status e with success => true | _ => false end.

Definition is_failed (e : ExecutionRecord) : bool :=
  match exec_status e with failed => true | _ => false end.

(** getStats(userId) *)
Definition getStats (userId_ : string) (svc : Service) : Stats :=
  let userWorkflows := listWorkflows userId_ svc in
  let workflowIds : gset string :=
    list_to_set (List.map (fun w => wf_id (definition w)) userWorkflows) in
  let userExecutions :=
    List.filter (fun e => bool_decide (exec_workflowId e ∈ workflowIds))
                (List.map snd (executions svc)) in
  {| totalWorkflows := length userWorkflows;
     activeWorkflows := length (List.filter isActive userWorkflows);
     totalExecutions := length userExecutions;
     successfulExecutions := length (List.filter is_succeeded userExecutions);
     failedExecutions := length (List.filter is_failed userExecutions) |}.

Section WithWebhooks.

(** The webhook service of [services/webhookService.ts], which is not
    among the sources: its state and the three methods the workflow service
    calls are taken as given. *)
Variable Webhooks : Type.
Variable webhook_registerWorkflow : WorkflowDefinition -> Webhooks -> Webhooks.
Variable webhook_listByWorkflow : string -> Webhooks -> list string.
Variable webhook_delete : string -> Webhooks -> Webhooks.

(** The workflow service with the two singletons it talks to. *)
Record World : Type := {
  service : Service;
  webhooks : Webhooks;
  scheduler : Scheduler.Service
}.

(** create(userId, data); [uuid] is the identifier drawn when no id is
    given and [now] the clock reading. *)
Definition create (uuid : string) (now : Z) (userId_ : string) (data : CreateData)
  (w : World) : completion StoredWorkflow * World :=
  let id :=
    match data_id data with
    | Some i => if String.eqb i "" then "wf_" +:+ uuid else i
    | None => "wf_" +:+ uuid
    end in
  match map_throwing (rewrite_node id) (default [] (data_nodes data)) with
  | Thrown msg => (Thrown msg, w)
  | Normal nodes_ =>
      let workflow :=
        {| definition :=
             {| wf_id := id; wf_name := data_name data;
                description := data_description data;
                nodes := nodes_;
                edges := default [] (data_edges data);
                settings := data_settings data |};
           userId := userId_; isActive := false;
           createdAt := now; updatedAt := now |} in
      (Normal workflow,
       {| service :=
            {| workflows := Engine.map_set id workflow (workflows (service w));
               executions := executions (service w) |};
          webhooks := webhook_registerWorkflow (definition workflow) (webhooks w);
          scheduler :=
            Scheduler.registerWorkflow (definition workflow) (scheduler w) |})
  end.

(** [{ ...workflow, ...data, updatedAt: new Date() }] *)
Definition apply_data (workflow : StoredWorkflow) (data : UpdateData) (now : Z)
  : StoredWorkflow :=
  let d := definition workflow in
  {| definition :=
       {| wf_id := wf_id d;
          wf_name := default (wf_name d) (upd_name data);
          description := default (description d) (upd_description data);
          nodes := default (nodes d) (upd_nodes data);
          edges := default (edges d) (upd_edges data);
          settings := default (settings d) (upd_settings data) |};
     userId := userId workflow;
     isActive := default (isActive workflow) (upd_isActive data);
     createdAt := createdAt workflow;
     updatedAt := now |}.

(** update(workflowId, userId, data) *)
Definition update (now : Z) (workflowId userId_ : string) (data : UpdateData)
  (w : World) : option StoredWorkflow * World :=
  match lookup workflowId (workflows (service w)) with
  | None => (None, w)
  | Some workflow =>
      if negb (String.eqb (userId workflow) userId_) then (None, w)
      else
        let updated := apply_data workflow data now in
        (Some updated,
         {| service :=
              {| workflows :=
                   Engine.map_set workflowId updated (workflows (service w));
                 executions := executions (service w) |};
            webhooks := webhook_registerWorkflow (definition updated) (webhooks w);
            scheduler :=
              Scheduler.registerWorkflow (definition updated) (scheduler w) |})
  end.

(** delete(workflowId, userId) *)
Definition delete (workflowId userId_ : string) (w : World) : bool * World :=
  match lookup workflowId (workflows (service w)) with
  | None => (false, w)
  | Some workflow =>
      if negb (String.eqb (userId workflow) userId_) then (false, w)
      else
        (true,
         {| service :=
              {| workflows :=
                   List.filter (fun kv => negb (String.eqb (fst kv) workflowId))
                               (workflows (service w));
                 executions := executions (service w) |};
            webhooks :=
              fold_left (fun wh id => webhook_delete id wh)
                        (webhook_listByWorkflow workflowId (webhooks w))
                        (webhooks w);
            scheduler := scheduler w |})
  end.

Definition copy_node (n : WorkflowNode) : WorkflowNode :=
  {| node_id := node_id n +:+ "_copy"; type := type n; name := name n;
     position := position n; config := config n;
     credentialId := credentialId n |}.

Definition copy_edge (e : WorkflowEdge) : WorkflowEdge :=
  {| edge_id := edge_id e +:+ "_copy";
     source := source e +:+ "_copy"; target := target e +:+ "_copy";
     sourceHandle := sourceHandle e; targetHandle := targetHandle e;
     condition := condition e |}.

(** duplicate(workflowId, userId) *)
Definition duplicate (uuid : string) (now : Z) (workflowId userId_ : string)
  (w : World) : completion (option StoredWorkflow) * World :=
  match get workflowId (Some userId_) (service w) with
  | None => (Normal None, w)
  | Some original =>
      let d := definition original in
      match create uuid now userId_
              {| data_id := None;
                 data_name := wf_name d +:+ " (Copy)";
                 data_description := description d;
                 data_nodes := Some (List.map copy_node (nodes d));
                 data_edges := Some (List.map copy_edge (edges d));
                 data_settings := settings d |} w with
      | (Thrown msg, w') => (Thrown msg, w')
      | (Normal created, w') => (Normal (Some created), w')
      end
  end.

End WithWebhooks.

Arguments service {Webhooks} w.
Arguments webhooks {Webhooks} w.
Arguments scheduler {Webhooks} w.
Arguments create {Webhooks} webhook_registerWorkflow uuid now userId_ data w.
Arguments update {Webhooks} webhook_registerWorkflow now workflowId userId_ data w.
Arguments delete {Webhooks} webhook_listByWorkflow webhook_delete workflowId userId_ w.
Arguments duplicate {Webhooks} webhook_registerWorkflow uuid now workflowId userId_ w.

End WorkflowService.

(* ===================================================================== *)
(** ** Predicates used to state the properties                           *)
(* ===================================================================== *)

Module Spec.
Import Js Types Engine.

(** Node ids in the order they were added to [executedNodes], newest
    first, and the ids whose handler was called. *)
Fixpoint recorded_ids (h : list Event) : list string :=
  match h with
  | [] => []
  | Recorded id :: older => id :: recorded_ids older
  | Invoked _ _ _ :: older => recorded_ids older
  end.

Fixpoint invoked_ids (h : list Event) : list string :=
  match h with
  | [] => []
  | Invoked id _ _ :: older => id :: invoked_ids older
  | Recorded _ :: older => invoked_ids older
  end.

(** A history is in order when every handler call happens for a node
    that was neither called nor recorded before and whose incoming edges
    all start at nodes recorded before, and every node is recorded once. *)
Fixpoint history_ok (workflow : WorkflowDefinition) (h : list Event) : Prop :=
  match h with
  | [] => True
  | Invoked id _ _ :: older =>
      ~ In id (invoked_ids older) /\
      ~ In id (recorded_ids older) /\
      (forall edge, In edge (edges workflow) -> target edge = id ->
                    In (source edge) (recorded_ids older)) /\
      history_ok workflow older
  | Recorded id :: older =>
      ~ In id (recorded_ids older) /\ history_ok workflow older
  end.

Definition ids_of (ns : list WorkflowNode) : gset string :=
  list_to_set (List.map node_id ns).

(** Nodes of the workflow not executed yet: what bounds the depth of the
    calls of executeNode. *)
Definition unexecuted (workflow : WorkflowDefinition) (s : State) : nat :=
  size (ids_of (nodes workflow) ∖ executedNodes s).

Definition error_result (id msg : string) : NodeExecutionResult :=
  {| nodeId := id; status := error; data := Undefined;
     error_message := Some msg |}.

Definition success_result (id : string) (out : any) : NodeExecutionResult :=
  {| nodeId := id; status := success; data := out; error_message := None |}.

(** What holds of the engine state whenever executeNode is left, by a
    return or by a throw. *)
Record Base (workflow : WorkflowDefinition) (s : State) : Prop := {
  b_executed : executedNodes s = list_to_set (recorded_ids (history s));
  b_history : history_ok workflow (history s);
  b_keys : List.map fst (nodeResults s) = rev (recorded_ids (history s));
  b_ids : Forall (fun kv => nodeId (snd kv) = fst kv) (nodeResults s);
  b_outputs : forall id input out,
      In (Invoked id input (Resolved out)) (history s) ->
      nodeOutputs (context s) !! id = Some out /\
      In (id, success_result id out) (nodeResults s);
  b_stop_success :
      stops_on_error workflow = true ->
      Forall (fun kv => status (snd kv) = success) (nodeResults s);
  b_stop_rejected : forall id input msg,
      stops_on_error workflow = true ->
      In (Invoked id input (Rejected msg)) (history s) ->
      ~ In id (recorded_ids (history s)) /\
      exists older, history s = Invoked id input (Rejected msg) :: older;
  b_continue_rejected : forall id input msg,
      stops_on_error workflow = false ->
      In (Invoked id input (Rejected msg)) (history s) ->
      In (id, error_result id msg) (nodeResults s)
}.

(** What holds in addition when it returns. *)
Record Inv (workflow : WorkflowDefinition) (s : State) : Prop := {
  inv_base : Base workflow s;
  inv_invoked : forall id, In id (invoked_ids (history s)) ->
                           id ∈ executedNodes s;
  inv_stop_clean : forall id input msg,
      stops_on_error workflow = true ->
      ~ In (Invoked id input (Rejected msg)) (history s)
}.

(** Satisfaction of a postcondition by an outcome. *)
Definition sat {A : Type} (R : A -> State -> Prop) (T : string -> State -> Prop)
  (F : Prop) (o : Outcome A) : Prop :=
  match o with
  | Return a s => R a s
  | Throw msg s => T msg s
  | OutOfFuel => F
  end.

(** Every regular expression used on an edge of the workflow compiles. *)
Definition patterns_compile {rt : Runtime} (workflow : WorkflowDefinition) : Prop :=
  forall edge cond subject,
    In edge (edges workflow) -> condition edge = Some cond ->
    operator cond = "regex" ->
    regexp_test (regexp_source (value cond)) subject <> None.

(** The value found under [key] by the latest source, in a list given
    newest first, that is a truthy object owning the key. *)
Fixpoint latest (key : string) (newest_first : list any) : option any :=
  match newest_first with
  | [] => None
  | o :: older =>
      if truthy o && typeof_object o && existsb (String.eqb key) (own_keys o)
      then Some (get_own o key)
      else latest key older
  end.

(** A -> B -> C: three nodes with distinct ids and the two unconditional
    edges between them, nodes and edges declared in any order. *)
Definition linear_chain (workflow : WorkflowDefinition) (A B C : WorkflowNode)
  : Prop :=
  Permutation (nodes workflow) [A; B; C] /\
  node_id A <> node_id B /\ node_id A <> node_id C /\ node_id B <> node_id C /\
  exists e1 e2,
    Permutation (edges workflow) [e1; e2] /\
    source e1 = node_id A /\ target e1 = node_id B /\ condition e1 = None /\
    source e2 = node_id B /\ target e2 = node_id C /\ condition e2 = None.

(** Every node of the workflow has a handler, and it returns its input. *)
Definition pass_through_handlers (getHandler : NodeType -> option NodeHandler)
  (workflow : WorkflowDefinition) : Prop :=
  forall n, In n (nodes workflow) ->
    exists handler, getHandler (type n) = Some handler /\
                    forall n' input c, handler n' input c = Resolved input.

(** The result a node is recorded with, given what the [try] block of
    executeNode gave. *)
Definition settles (workflow : WorkflowDefinition) (id : string)
  (res : string + NodeExecutionResult) (r : NodeExecutionResult) : Prop :=
  match res with
  | inr r' => r = r'
  | inl msg => stops_on_error workflow = false /\ r = error_result id msg
  end.

(** A state in which nothing has run yet. *)
Definition blank (s : State) : Prop :=
  executedNodes s = ∅ /\ nodeResults s = [] /\ history s = [].

(** The state in which the traversal starts. *)
Definition seeded (workflow : WorkflowDefinition) (s : State) : State :=
  if truthy (input (context s))
  then seed_outputs (findStartNodes workflow) s else s.

(** The node an edge leads to, as the loop looks it up. *)
Definition visit (workflow : WorkflowDefinition)
  (recur : WorkflowNode -> State -> Outcome unit) (edge : WorkflowEdge)
  (s : State) : Outcome unit :=
  match List.find (fun n => String.eqb (node_id n) (target edge))
                  (nodes workflow) with
  | Some nextNode => recur nextNode s
  | None => Return tt s
  end.

(** The start nodes as the specification words them: the nodes that no
    edge targets, and the nodes whose type tag names a trigger, which the
    tag TRIGGER does as much as the five tags that begin with TRIGGER_. *)
Definition names_a_trigger (t : NodeType) : bool :=
  startsWith "TRIGGER" (NodeType_tag t).

Definition claimed_start_nodes (workflow : WorkflowDefinition)
  : list WorkflowNode :=
  let targeted : gset string := list_to_set (List.map target (edges workflow)) in
  List.filter (fun n => negb (bool_decide (node_id n ∈ targeted))
                        || names_a_trigger (type n))
              (nodes workflow).

(** A string without the given character: a path of one segment, when the
    character is the dot. *)
Fixpoint free_of (sep : ascii) (s : string) : bool :=
  match s with
  | EmptyString => true
  | String c rest => negb (Ascii.eqb c sep) && free_of sep rest
  end.

Definition known_operators : list string :=
  ["eq"; "neq"; "gt"; "gte"; "lt"; "lte"; "contains"; "regex"].

(** [output && typeof output === 'object']. *)
Definition truthy_object (o : any) : bool := truthy o && typeof_object o.

(** The input of a node as the specification words it: the execution
    input, or the empty object when there is none; the output of the source
    of the only incoming edge; the shallow merge of all the source outputs
    in the order of the edges. *)
Definition claimed_input (workflow : WorkflowDefinition) (c : ExecutionContext)
  (nodeId : string) : any :=
  match getIncomingEdges workflow nodeId with
  | [] => match input c with
          | Undefined => Obj []
          | given => given
          end
  | [edge] => output_of c (source edge)
  | incoming =>
      Obj (fold_left assign
             (List.map (fun e => output_of c (source e)) incoming) [])
  end.

End Spec.

(* ===================================================================== *)
(** ** Further predicates                                                *)
(* ===================================================================== *)

Module SpecExtra.
Import Js Types Engine Spec.

(** In a list of node ids given newest first, every id comes after the
    sources of all the edges that target it. *)
Fixpoint sources_first (workflow : WorkflowDefinition) (newest_first : list string)
  : Prop :=
  match newest_first with
  | [] => True
  | id :: older =>
      (forall edge, In edge (edges workflow) -> target edge = id ->
                    In (source edge) older) /\
      sources_first workflow older
  end.

(** A set of node ids in which every node waits for another node of the
    set: a cycle of the workflow, or nodes that hang on one. *)
Definition starved (workflow : WorkflowDefinition) (S : string -> Prop) : Prop :=
  forall id, S id ->
    exists edge, In edge (edges workflow) /\ target edge = id /\ S (source edge).

(** The ids of a list of nodes. *)
Definition node_ids (ns : list WorkflowNode) : list string :=
  List.map node_id ns.

(** A condition on a field with a value, for each operator. *)
Definition compare_with (operator_ field_ : string) (value_ : any) : Condition :=
  {| field := field_; operator := operator_; value := value_ |}.

(** What an execution keeps from the state [s0] its traversal started in,
    besides the bookkeeping of [Spec.Base]. *)
Record Kept (workflow : WorkflowDefinition) (s0 s : State) : Prop := {
  k_order : sources_first workflow (recorded_ids (history s));
  k_nodes : forall id, In id (recorded_ids (history s)) ->
                       exists n, In n (nodes workflow) /\ node_id n = id;
  k_id : executionId (context s) = executionId (context s0);
  k_input : input (context s) = input (context s0);
  k_outputs : forall id, id ∉ executedNodes s ->
                         nodeOutputs (context s) !! id
                         = nodeOutputs (context s0) !! id;
  k_given : forall id given settled,
      In (Invoked id given settled) (history s) ->
      truthy given = true
}.

(** The table of scheduled jobs is in order: no id twice, every job filed
    under its own id, and the active flag telling whether the timer runs. *)
Definition table_ok (svc : Scheduler.Service) : Prop :=
  List.NoDup (List.map fst (Scheduler.jobs svc)) /\
  Forall (fun kv => Scheduler.id (snd kv) = fst kv /\
                    Scheduler.isActive (snd kv)
                    = Scheduler.running (Scheduler.task (snd kv)))
         (Scheduler.jobs svc).

(** [parts.join(sep)]. *)
Fixpoint join_with (sep : ascii) (parts : list string) : string :=
  match parts with
  | [] => EmptyString
  | [p] => p
  | p :: rest => p +:+ String sep (join_with sep rest)
  end.

(** The fixed phrases of describeCron. *)
Definition cron_phrases : list (string * string) :=
  [("* * * * *", "Every minute"); ("0 * * * *", "Every hour");
   ("0 0 * * *", "Every day at midnight");
   ("0 0 * * 0", "Every Sunday at midnight");
   ("0 9 * * 1-5", "Every weekday at 9:00 AM")].

(** [node.config?.path] and the path create points a webhook node to. *)
Definition node_path (n : WorkflowNode) : any :=
  if nullish (config n) then Undefined else get_own (config n) "path".

Definition trigger_path (id : string) : any :=
  Str ("/webhook/" +:+ id +:+ "/trigger").

(** [n'] is [n] but for its configuration. *)
Definition same_but_config (n n' : WorkflowNode) : Prop :=
  node_id n' = node_id n /\ type n' = type n /\ name n' = name n /\
  position n' = position n /\ credentialId n' = credentialId n.

(** What create makes of a node: the node itself when its path does not
    mention a webhook, and otherwise the node with its path pointed to the
    trigger of the workflow, the rest of its configuration being kept. *)
Definition repointed (id : string) (n n' : WorkflowNode) : Prop :=
  same_but_config n n' /\
  ((n' = n /\
    (truthy (node_path n) = false \/
     WorkflowService.path_includes_webhook (node_path n) = Normal false)) \/
   (truthy (node_path n) = true /\
    WorkflowService.path_includes_webhook (node_path n) = Normal true /\
    node_path n' = trigger_path id /\
    forall key, key <> "path" ->
                get_own (config n') key = get_own (config n) key)).

(** The id duplicate gives to the copy of a node or of an edge end. *)
Definition renamed (id : string) : string := id +:+ "_copy".

(** Newest first. *)
Definition not_before (a b : WorkflowService.ExecutionRecord) : Prop :=
  (WorkflowService.started b <= WorkflowService.started a)%Z.

End SpecExtra.

(* ===================================================================== *)
(** ** Concrete workflows, handlers and a small runtime                  *)
(* ===================================================================== *)

Module Examples.
Import Js Types Engine.

(** The exponent form of a number with few significant digits:
    [1e+21], [1.5e+22]. *)
Fixpoint strip_zeros (digits : string) : string :=
  match digits with
  | EmptyString => EmptyString
  | String c rest =>
      match strip_zeros rest with
      | EmptyString => if Ascii.eqb c "0" then EmptyString
                       else String c EmptyString
      | kept => String c kept
      end
  end.

Definition exponent_form (n : Z) : string :=
  let digits := string_of_Z (Z.abs n) in
  let mantissa :=
    match strip_zeros digits with
    | EmptyString => "0"
    | String c EmptyString => String c EmptyString
    | String c rest => String c ("." +:+ rest)
    end in
  (if (n <? 0)%Z then "-" else "") +:+ mantissa +:+ "e+"
  +:+ string_of_nat (String.length digits - 1).

(** A runtime for the examples, which agrees with the language on what
    the examples use: a pattern without metacharacters matches as a
    substring, a lone opening parenthesis does not compile; strings of
    decimal digits convert to numbers and the empty string to zero; of the
    built-in objects it knows the constructors of plain objects and of
    arrays, and their names; a large number is written from its digits. *)
Definition literal_runtime : Runtime :=
  {| regexp_test := fun pattern subject =>
       if String.eqb pattern "(" then None else Some (includes subject pattern);
     regexp_error := fun pattern =>
       "Invalid regular expression: /" +:+ pattern +:+ "/: Unterminated group";
     string_to_number := fun s =>
       if String.eqb s "" then Some 0%Z
       else option_map (fun u => Z.of_nat (Nat.of_uint u))
                       (NilEmpty.uint_of_string s);
     inherited := fun r key =>
       match r with
       | of_object =>
           if String.eqb key "constructor" then Builtin true "Object"
           else Undefined
       | of_array =>
           if String.eqb key "constructor" then Builtin true "Array"
           else Undefined
       | of_builtin ref =>
           if String.eqb key "name" then Str ref else Undefined
       | _ => Undefined
       end;
     builtin_to_string := fun ref =>
       "function " +:+ ref +:+ "() { [native code] }";
     builtin_to_primitive := fun ref =>
       Str ("function " +:+ ref +:+ "() { [native code] }");
     exponential := exponent_form |}.

Definition node (id : string) (t : NodeType) : WorkflowNode :=
  {| node_id := id; type := t; name := id;
     position := {| x := 0; y := 0 |}; config := Obj [];
     credentialId := None |}.

Definition edge (id from to : string) (c : option Condition) : WorkflowEdge :=
  {| edge_id := id; source := from; target := to;
     sourceHandle := None; targetHandle := None; condition := c |}.

(** A handler that hands its input on, and one that always fails. *)
Definition pass_through : NodeHandler := fun _ input _ => Resolved input.
Definition failing : NodeHandler := fun _ _ _ => Rejected "boom".

(** ACTION_CODE fails, the other actions and the triggers pass their input
    through, the remaining types have no handler. *)
Definition registry (t : NodeType) : option NodeHandler :=
  match t with
  | ACTION_CODE => Some failing
  | ACTION_SET | ACTION_HTTP | ACTION_MERGE | TRIGGER_MANUAL
  | TRIGGER_WEBHOOK => Some pass_through
  | _ => None
  end.

Definition with_policy (p : option ErrorHandling) : option Settings :=
  Some {| errorHandling := p; maxRetries := None; timeout := None |}.

(** A -> B -> C where B fails. *)
Definition failing_chain (p : option ErrorHandling) : WorkflowDefinition :=
  {| wf_id := "wf-1"; wf_name := "failing chain"; description := None;
     nodes := [node "A" ACTION_SET; node "B" ACTION_CODE; node "C" ACTION_SET];
     edges := [edge "e1" "A" "B" None; edge "e2" "B" "C" None];
     settings := with_policy p |}.

(** A single node whose handler fails. *)
Definition lone_failure : WorkflowDefinition :=
  {| wf_id := "wf-2"; wf_name := "lone failure"; description := None;
     nodes := [node "A" ACTION_CODE]; edges := [];
     settings := with_policy (Some stop) |}.

(** A -> B -> C, all passing their input through. *)
Definition chain : WorkflowDefinition :=
  {| wf_id := "wf-3"; wf_name := "chain"; description := None;
     nodes := [node "A" TRIGGER_MANUAL; node "B" ACTION_SET; node "C" ACTION_HTTP];
     edges := [edge "e1" "A" "B" None; edge "e2" "B" "C" None];
     settings := None |}.

(** A and B both feed M. *)
Definition diamond : WorkflowDefinition :=
  {| wf_id := "wf-4"; wf_name := "merge"; description := None;
     nodes := [node "A" ACTION_SET; node "B" ACTION_SET; node "M" ACTION_MERGE];
     edges := [edge "e1" "A" "M" None; edge "e2" "B" "M" None];
     settings := None |}.

(** A cycle A -> B -> A: no node is free of incoming edges. *)
Definition cycle : WorkflowDefinition :=
  {| wf_id := "wf-5"; wf_name := "cycle"; description := None;
     nodes := [node "A" ACTION_SET; node "B" ACTION_SET];
     edges := [edge "e1" "A" "B" None; edge "e2" "B" "A" None];
     settings := None |}.

Definition context_with (input : any) (outputs : list (string * any))
  : ExecutionContext :=
  {| executionId := "exec"; workflowId := "wf"; userId := None;
     mode := manual; input := input;
     nodeOutputs := list_to_map outputs; variables := []; credentials := ∅ |}.

Definition state_with (input : any) (outputs : list (string * any))
  (executed : list string) : State :=
  {| context := context_with input outputs;
     executedNodes := list_to_set executed;
     nodeResults := []; history := [] |}.

(** An order whose address is missing, and an edge that asks for the city. *)
Definition order_data : any := Obj [("user", Obj [("name", Str "Ada")])].

Definition city_is_paris : Condition :=
  {| field := "user.address.city"; operator := "eq"; value := Str "Paris" |}.

Definition score_above_5 : Condition :=
  {| field := "result.score"; operator := "gt"; value := Num 5 |}.

Definition scored : any := Obj [("result", Obj [("score", Num 7)])].

(** A user without any property, and an edge that asks for the name of
    its constructor. *)
Definition bare_user : any := Obj [("user", Obj [])].

Definition made_by_Object : Condition :=
  {| field := "user.constructor.name"; operator := "eq"; value := Str "Object" |}.

(** A webhook trigger and a node of the plain TRIGGER type, both fed by
    another node. *)
Definition reseeded : WorkflowDefinition :=
  {| wf_id := "wf-6"; wf_name := "re-seeded"; description := None;
     nodes := [node "A" ACTION_SET; node "T" TRIGGER_WEBHOOK;
               node "L" TRIGGER];
     edges := [edge "e1" "A" "T" None; edge "e2" "A" "L" None];
     settings := None |}.

(** A timer library that knows two time zones and throws the RangeError of
    the language for any other. *)
Definition two_zones (expression zone : string) : completion unit :=
  if String.eqb zone "UTC" || String.eqb zone "Europe/Paris" then Normal tt
  else Thrown ("Invalid time zone specified: " +:+ zone).

(** A queue service in direct mode that knows the chain of the examples. *)
Definition direct_service : JobQueue.Service :=
  JobQueue.registerWorkflow chain
    {| JobQueue.queue := None; JobQueue.workflowStore := ∅;
       JobQueue.isInitialized := false |}.

End Examples.

Module ExamplesExtra.
Import Js Types Engine Examples.

(** A feeds B, and B and C feed each other. *)
Definition fed_cycle : WorkflowDefinition :=
  {| wf_id := "wf-7"; wf_name := "fed cycle"; description := None;
     nodes := [node "A" ACTION_SET; node "B" ACTION_SET; node "C" ACTION_SET];
     edges := [edge "e1" "A" "B" None; edge "e2" "B" "C" None;
               edge "e3" "C" "B" None];
     settings := None |}.

(** Three nodes and no edge, the second failing, under [continue]. *)
Definition unconnected : WorkflowDefinition :=
  {| wf_id := "wf-8"; wf_name := "unconnected"; description := None;
     nodes := [node "A" ACTION_SET; node "B" ACTION_CODE; node "C" ACTION_HTTP];
     edges := [];
     settings := with_policy (Some continue) |}.

(** A scheduler that knows the chain of the examples and runs it every
    minute. *)
Definition ticking_service : Scheduler.Service :=
  snd (Scheduler.schedule Scheduler.five_field_cron two_zones
         "u1" 0 "wf-3" "* * * * *" None
         (Scheduler.registerWorkflow chain Scheduler.empty_service)).

(** A durable queue that knows no workflow. *)
Definition durable_service : JobQueue.Service :=
  {| JobQueue.queue := Some []; JobQueue.workflowStore := ∅;
     JobQueue.isInitialized := true |}.

(** A workflow service with nothing stored, beside a webhook service
    that keeps no state. *)
Definition quiet_world : WorkflowService.World unit :=
  {| WorkflowService.service := WorkflowService.empty_service;
     WorkflowService.webhooks := tt;
     WorkflowService.scheduler := Scheduler.empty_service |}.

Definition chain_data : WorkflowService.CreateData :=
  {| WorkflowService.data_id := Some "wf-3";
     WorkflowService.data_name := "chain";
     WorkflowService.data_description := None;
     WorkflowService.data_nodes := Some (nodes chain);
     WorkflowService.data_edges := Some (edges chain);
     WorkflowService.data_settings := None |}.

(** The world after ann has created the chain. *)
Definition owned_world : WorkflowService.World unit :=
  snd (WorkflowService.create (fun _ u => u) "u" 0 "ann" chain_data quiet_world).

Definition no_changes : WorkflowService.UpdateData :=
  {| WorkflowService.upd_name := None; WorkflowService.upd_description := None;
     WorkflowService.upd_nodes := None; WorkflowService.upd_edges := None;
     WorkflowService.upd_settings := None; WorkflowService.upd_isActive := None |}.

End ExamplesExtra.

(* ===================================================================== *)
(** ** Facts about the built-in operations                               *)
(* ===================================================================== *)

Module JsFacts.
Import Js.

Lemma split_on_nonempty sep s : split_on sep s <> [].
Proof.
  destruct s as [|c r]; simpl; [discriminate|].
  destruct (Ascii.eqb c sep); [discriminate|].
  destruct (split_on sep r); discriminate.
Qed.

(** Splitting distributes over a separator placed between two strings. *)
Lemma split_on_app sep pre post :
  split_on sep (pre +:+ String sep post) = split_on sep pre ++ split_on sep post.
Proof.
  induction pre as [|c pre IH]; simpl.
  - now rewrite Ascii.eqb_refl.
  - destruct (Ascii.eqb c sep); [now rewrite IH|].
    rewrite IH.
    pose proof (split_on_nonempty sep pre) as Hne.
    destruct (split_on sep pre); [contradiction|reflexivity].
Qed.

Lemma startsWith_spec p s :
  startsWith p s = true <-> exists r, s = p +:+ r.
Proof.
  revert s; induction p as [|a p IH]; intros s; simpl.
  - split; [intros _; now exists s|reflexivity].
  - destruct s as [|b s].
    + split; [discriminate|intros [r Hr]; discriminate].
    + rewrite andb_true_iff, Ascii.eqb_eq, IH. split.
      * intros [-> [r ->]]. now exists r.
      * intros [r Hr]. injection Hr as -> ->. split; [reflexivity|now exists r].
Qed.

(** [includes] is the substring test. *)
Lemma includes_spec s p :
  includes s p = true <-> exists l r, s = l +:+ p +:+ r.
Proof.
  induction s as [|c s IH].
  - simpl. rewrite orb_false_r, startsWith_spec. split.
    + intros [r Hr]. now exists "", r.
    + intros [l [r Hr]]. destruct l; [now exists r|discriminate].
  - cbn [includes]. rewrite orb_true_iff, IH, startsWith_spec. split.
    + intros [[r Hr]|[l [r Hr]]].
      * now exists "", r.
      * exists (String c l), r. simpl. now rewrite Hr.
    + intros [l [r Hr]]. destruct l as [|d l].
      * left. now exists r.
      * right. injection Hr as _ Hr. now exists l, r.
Qed.

Lemma assoc_set_prop key k v props :
  assoc key (set_prop k v props) =
  if String.eqb k key then Some v else assoc key props.
Proof.
  induction props as [|[k' w] rest IH]; simpl.
  - reflexivity.
  - destruct (String.eqb k' k) eqn:E; simpl.
    + apply String.eqb_eq in E. subst k'.
      now destruct (String.eqb k key).
    + rewrite IH. destruct (String.eqb k' key) eqn:E'; [|reflexivity].
      apply String.eqb_eq in E'. subst k'. now rewrite String.eqb_sym, E.
Qed.

Lemma assoc_fold_set_prop (g : string -> any) key keys props :
  assoc key (fold_left (fun t k => set_prop k (g k) t) keys props) =
  if existsb (String.eqb key) keys then Some (g key) else assoc key props.
Proof.
  revert props; induction keys as [|k keys IH]; intros props; simpl.
  - reflexivity.
  - rewrite IH, assoc_set_prop.
    destruct (existsb (String.eqb key) keys).
    + now rewrite orb_true_r.
    + rewrite orb_false_r, (String.eqb_sym key k).
      destruct (String.eqb k key) eqn:E; [|reflexivity].
      apply String.eqb_eq in E. now subst.
Qed.

(** Object.assign overwrites exactly the keys the source owns. *)
Lemma assoc_assign key target source :
  assoc key (assign target source) =
  if existsb (String.eqb key) (own_keys source)
  then Some (get_own source key)
  else assoc key target.
Proof. apply assoc_fold_set_prop. Qed.

End JsFacts.

(* ===================================================================== *)
(** ** Paths and edge conditions                                         *)
(* ===================================================================== *)

Module ConditionFacts.
Import Js Types Engine Spec JsFacts.

Section Conditions.
Context {rt : Runtime}.

Lemma opt_member_normal a part : exists v, opt_member a part = Normal v.
Proof.
  unfold opt_member, member. destruct (nullish a); eauto.
Qed.

Lemma opt_member_nullish a part :
  nullish a = true -> opt_member a part = Normal Undefined.
Proof. unfold opt_member. now intros ->. Qed.

Lemma walk_normal parts : forall a, exists v, fold_left step parts (Normal a) = Normal v.
Proof.
  induction parts as [|p parts IH]; intros a; simpl; [eauto|].
  destruct (opt_member_normal a p) as [v ->]. apply IH.
Qed.

Lemma walk_undefined parts :
  fold_left step parts (Normal Undefined) = Normal Undefined.
Proof. induction parts as [|p parts IH]; simpl; auto. Qed.

(** The lookup never throws. *)
Lemma getNestedValue_total obj path : exists v, getNestedValue obj path = Normal v.
Proof. apply walk_normal. Qed.

(** From null or undefined every path leads to undefined. *)
Lemma getNestedValue_nullish obj path :
  nullish obj = true -> getNestedValue obj path = Normal Undefined.
Proof.
  intros Hn. unfold getNestedValue.
  pose proof (split_on_nonempty "." path) as Hne.
  destruct (split_on "." path) as [|p parts]; [contradiction|].
  cbn [fold_left]. unfold step at 2. rewrite (opt_member_nullish _ _ Hn).
  apply walk_undefined.
Qed.

(** A dotted path is walked segment by segment. *)
Lemma getNestedValue_dot obj pre post :
  getNestedValue obj (pre +:+ "." +:+ post) =
  match getNestedValue obj pre with
  | Normal v => getNestedValue v post
  | Thrown msg => Thrown msg
  end.
Proof.
  unfold getNestedValue.
  change ("." +:+ post) with (String "." post).
  rewrite split_on_app, fold_left_app.
  destruct (fold_left step (split_on "." pre) (Normal obj)) as [v|msg];
    [reflexivity|].
  clear. induction (split_on "." post); simpl; auto.
Qed.

Lemma split_on_free sep s :
  free_of sep s = true -> split_on sep s = [s].
Proof.
  induction s as [|c s IH]; simpl; [reflexivity|].
  destruct (Ascii.eqb c sep); simpl; [discriminate|].
  intros H. now rewrite (IH H).
Qed.

Lemma split_on_parts_free sep s :
  Forall (fun p => free_of sep p = true) (split_on sep s).
Proof.
  induction s as [|c s IH]; simpl; [repeat constructor|].
  destruct (Ascii.eqb c sep) eqn:E; [now constructor|].
  destruct (split_on sep s) as [|hd tl]; [repeat constructor; simpl; now rewrite E|].
  inversion IH; subst. constructor; [simpl; now rewrite E|assumption].
Qed.

(** A path of one segment is a property read. *)
Lemma getNestedValue_segment obj key :
  free_of "." key = true ->
  getNestedValue obj key
  = Normal (if nullish obj then Undefined else get obj key).
Proof.
  intros Hf. unfold getNestedValue. rewrite (split_on_free _ _ Hf). simpl.
  unfold opt_member, member. now destruct (nullish obj).
Qed.

(** A property of its own is what a read finds; failing that, the
    inherited member. *)
Lemma get_has_own o key : has_own o key = true -> get o key = get_own o key.
Proof. unfold get. now intros ->. Qed.

Lemma get_inherited o key r :
  has_own o key = false -> receiver o = Some r -> get o key = inherited r key.
Proof. unfold get. now intros -> ->. Qed.

Lemma has_own_assoc props key :
  has_own (Obj props) key = true <-> exists v, assoc key props = Some v.
Proof.
  simpl. destruct (assoc key props); split; eauto; try discriminate.
  now intros [? [=]].
Qed.

Lemma get_set_prop key v props : get (Obj (set_prop key v props)) key = v.
Proof.
  unfold get. simpl. now rewrite assoc_set_prop, String.eqb_refl.
Qed.

Lemma evaluateCondition_switch cond data fieldValue :
  getNestedValue data (field cond) = Normal fieldValue ->
  evaluateCondition (Some cond) data
  = switch_operator (operator cond) fieldValue (value cond).
Proof. unfold evaluateCondition. now intros ->. Qed.

(** With patterns that compile, no condition of the workflow throws. *)
Lemma evaluateCondition_compiles workflow edge cond data :
  patterns_compile workflow ->
  In edge (edges workflow) -> condition edge = Some cond ->
  exists b, evaluateCondition (Some cond) data = Normal b.
Proof.
  intros Hp Hin Hc.
  destruct (getNestedValue_total data (field cond)) as [fv Hfv].
  rewrite (evaluateCondition_switch _ _ _ Hfv). unfold switch_operator.
  repeat match goal with
         | |- context [String.eqb (operator cond) ?k] =>
             let E := fresh "E" in
             destruct (String.eqb (operator cond) k) eqn:E;
             [first [now eauto|idtac]|clear E]
         end; [|now eauto].
  apply String.eqb_eq in E.
  specialize (Hp edge cond (to_string fv) Hin Hc E).
  destruct (regexp_test _ _); [eauto|contradiction].
Qed.

(** The relational operators fail on an undefined field. *)
Lemma undefined_comparisons v :
  js_gt Undefined v = false /\ js_gte Undefined v = false /\
  js_lt Undefined v = false /\ js_lte Undefined v = false.
Proof.
  assert (H1 : less_than Undefined v = None).
  { unfold less_than. change (to_primitive Undefined) with Undefined.
    destruct (to_primitive v); reflexivity. }
  assert (H2 : less_than v Undefined = None).
  { unfold less_than. change (to_primitive Undefined) with Undefined.
    destruct (to_primitive v) as [| |[]|n|s|items|props|c r]; simpl;
      try reflexivity; now destruct (string_to_number s). }
  unfold js_gt, js_gte, js_lt, js_lte. rewrite H1, H2. auto.
Qed.

End Conditions.
End ConditionFacts.

(* ===================================================================== *)
(** ** The engine keeps its books in order and always returns            *)
(* ===================================================================== *)

Module EngineFacts.
Import Js Types Engine Spec ConditionFacts.

Lemma sat_mono {A} (R R' : A -> State -> Prop) (T T' : string -> State -> Prop)
  (F F' : Prop) (o : Outcome A) :
  sat R T F o ->
  (forall a s, R a s -> R' a s) -> (forall m s, T m s -> T' m s) -> (F -> F') ->
  sat R' T' F' o.
Proof. destruct o; simpl; auto. Qed.

(** The rule of the [for] loop: an invariant of the turns is an invariant
    of the loop. *)
Lemma for_each_sat {A} (I : State -> Prop) (T : string -> State -> Prop)
  (F : Prop) (body : A -> State -> Outcome unit) (xs : list A) :
  forall s,
    I s ->
    (forall x s', In x xs -> I s' -> sat (fun _ => I) T F (body x s')) ->
    sat (fun _ => I) T F (for_each body xs s).
Proof.
  induction xs as [|x xs IH]; intros s HI Hbody; simpl.
  - exact HI.
  - pose proof (Hbody x s (or_introl eq_refl) HI) as Hx.
    destruct (body x s) as [[] s'| |]; simpl in *; [|exact Hx|exact Hx].
    apply IH; [exact Hx|]. intros y s'' Hy. apply Hbody. now right.
Qed.

Lemma map_set_fresh {V} key (v : V) (m : list (string * V)) :
  ~ In key (List.map fst m) -> map_set key v m = (m ++ [(key, v)])%list.
Proof.
  induction m as [|[k w] rest IH]; simpl; intros Hn; [reflexivity|].
  destruct (String.eqb k key) eqn:E.
  - apply String.eqb_eq in E. tauto.
  - rewrite IH; tauto.
Qed.

Lemma recorded_ids_In id h : In (Recorded id) h <-> In id (recorded_ids h).
Proof.
  induction h as [|[i inp st|i] h IH]; simpl; [tauto| |].
  - rewrite <- IH. split; [intros [H|H]; [discriminate|exact H]|tauto].
  - rewrite <- IH. split; intros [H|H]; auto; left; congruence.
Qed.

Lemma invoked_ids_In id h :
  In id (invoked_ids h) <-> exists input st, In (Invoked id input st) h.
Proof.
  induction h as [|[i inp st|i] h IH]; simpl.
  - split; [tauto|intros (? & ? & [])].
  - rewrite IH. split.
    + intros [->|(a & b & H)]; [exists inp, st; now left|exists a, b; now right].
    + intros (a & b & [H|H]); [left; congruence|right; now exists a, b].
  - rewrite IH. split.
    + intros (a & b & H). exists a, b. now right.
    + intros (a & b & [H|H]); [discriminate|now exists a, b].
Qed.

Section Facts.
Context {rt : Runtime}.
Variable getHandler : NodeType -> option NodeHandler.
Variable workflow : WorkflowDefinition.

Abbreviation executeNode := (executeNode getHandler workflow).
Abbreviation run_handler := (run_handler getHandler workflow).

(** The shape of what the [try] block leaves behind. *)
Lemma run_handler_cases node s s1 res :
  run_handler node s = (s1, res) ->
  executedNodes s1 = executedNodes s /\ nodeResults s1 = nodeResults s /\
  ((getHandler (type node) = None /\ s1 = s /\ exists msg, res = inl msg) \/
   (exists input msg,
       history s1 = Invoked (node_id node) input (Rejected msg) :: history s /\
       context s1 = context s /\ res = inl msg) \/
   (exists input out,
       history s1 = Invoked (node_id node) input (Resolved out) :: history s /\
       nodeOutputs (context s1) = <[node_id node := out]> (nodeOutputs (context s)) /\
       res = inr (success_result (node_id node) out))).
Proof.
  unfold Engine.run_handler. destruct (getHandler (type node)) as [h|].
  - destruct (h node _ (context s)) as [out|msg] eqn:Eh; intros [= <- <-];
      simpl; (split; [reflexivity|split; [reflexivity|right]]).
    + right. eexists _, out. auto.
    + left. eexists _, msg. auto.
  - intros [= <- <-]. split; [reflexivity|split; [reflexivity|left]]. eauto.
Qed.

Lemma initial_Inv input userId mode uuid :
  Inv workflow (new_engine workflow input userId mode uuid).
Proof.
  split; [split|..]; simpl; try tauto; try constructor; auto.
Qed.

(** Unfolding executeNode: a node already executed, a node that is ready
    and whose handler resolves. *)
Lemma executeNode_done fuel node s :
  node_id node ∈ executedNodes s -> executeNode (S fuel) node s = Return tt s.
Proof. intros H. simpl. now rewrite bool_decide_eq_true_2. Qed.

Lemma executeNode_deferred fuel node s edge :
  In edge (edges workflow) -> target edge = node_id node ->
  source edge ∉ executedNodes s ->
  executeNode (S fuel) node s = Return tt s.
Proof.
  intros Hin Ht Hs. simpl. destruct (bool_decide _); [reflexivity|].
  destruct (forallb _ _) eqn:E; [|reflexivity]. exfalso.
  rewrite forallb_forall in E. apply Hs.
  eapply bool_decide_eq_true_1, E, filter_In. split; [exact Hin|].
  now apply String.eqb_eq.
Qed.

Lemma executeNode_run fuel node s handler out :
  node_id node ∉ executedNodes s ->
  (forall edge, In edge (getIncomingEdges workflow (node_id node)) ->
                source edge ∈ executedNodes s) ->
  getHandler (type node) = Some handler ->
  handler node (gatherNodeInput workflow (context s) (node_id node)) (context s)
  = Resolved out ->
  executeNode (S fuel) node s =
  for_each (follow_edge workflow (executeNode fuel) out)
    (getOutgoingEdges workflow (node_id node))
    (record_result (node_id node) (success_result (node_id node) out)
       (with_context (set_nodeOutput (node_id node) out (context s))
          (log_event
             (Invoked (node_id node)
                (gatherNodeInput workflow (context s) (node_id node))
                (Resolved out)) s))).
Proof.
  intros Hfresh Hdeps Hh Hout. simpl.
  rewrite bool_decide_eq_false_2 by exact Hfresh.
  assert (E : forallb (fun edge => bool_decide (source edge ∈ executedNodes s))
                (getIncomingEdges workflow (node_id node)) = true).
  { apply forallb_forall. intros e He. now apply bool_decide_eq_true_2, Hdeps. }
  rewrite E. simpl. unfold Engine.run_handler. rewrite Hh, Hout. reflexivity.
Qed.

Lemma executed_recorded s id :
  Base workflow s -> (id ∈ executedNodes s <-> In id (recorded_ids (history s))).
Proof.
  intros HB. rewrite (b_executed _ _ HB), elem_of_list_to_set.
  apply list_elem_of_In.
Qed.

Lemma dependencies_met s id :
  Base workflow s ->
  forallb (fun edge => bool_decide (source edge ∈ executedNodes s))
          (getIncomingEdges workflow id) = true ->
  forall edge, In edge (edges workflow) -> target edge = id ->
               In (source edge) (recorded_ids (history s)).
Proof.
  intros HB Hall edge Hin Ht.
  rewrite forallb_forall in Hall.
  apply (executed_recorded s _ HB).
  eapply bool_decide_eq_true_1, Hall.
  apply filter_In. split; [exact Hin|]. now apply String.eqb_eq.
Qed.

Lemma record_step node s s1 res r :
  Inv workflow s ->
  node_id node ∉ executedNodes s ->
  forallb (fun edge => bool_decide (source edge ∈ executedNodes s))
          (getIncomingEdges workflow (node_id node)) = true ->
  run_handler node s = (s1, res) ->
  settles workflow (node_id node) res r ->
  Inv workflow (record_result (node_id node) r s1).
Proof.
  intros [HB Hinv Hclean] Hfresh Hdeps Hrun Hr.
  pose proof (dependencies_met s _ HB Hdeps) as Hsrc.
  assert (Hnrec : ~ In (node_id node) (recorded_ids (history s)))
    by (now rewrite <- (executed_recorded s _ HB)).
  assert (Hninv : ~ In (node_id node) (invoked_ids (history s)))
    by (intros H; apply Hfresh, Hinv, H).
  destruct (run_handler_cases node s s1 res Hrun) as (He & Hres & Hcases).
  assert (Hrec1 : recorded_ids (history s1) = recorded_ids (history s)).
  { destruct Hcases as [(_ & -> & _)|[(i & m & -> & _)|(i & o & -> & _)]];
      reflexivity. }
  assert (Hok1 : history_ok workflow (history s1)).
  { destruct HB.
    destruct Hcases as [(_ & -> & _)|[(i & m & -> & _)|(i & o & -> & _)]];
      simpl; auto. }
  assert (Hid : nodeId r = node_id node).
  { destruct Hcases as [(_ & _ & m & ->)|[(i & m & _ & _ & ->)|(i & o & _ & _ & ->)]];
      simpl in Hr.
    - now destruct Hr as [_ ->].
    - now destruct Hr as [_ ->].
    - now subst r. }
  assert (Hset : nodeResults (record_result (node_id node) r s1)
                 = (nodeResults s ++ [(node_id node, r)])%list).
  { simpl. rewrite Hres. apply map_set_fresh.
    rewrite (b_keys _ _ HB), <- in_rev. exact Hnrec. }
  split; [split|..].
  - simpl. now rewrite He, Hrec1, (b_executed _ _ HB).
  - simpl. rewrite Hrec1. auto.
  - rewrite Hset. simpl. rewrite Hrec1, map_app, (b_keys _ _ HB). reflexivity.
  - rewrite Hset. apply Forall_app. split; [apply HB|]. now constructor.
  - intros id input out Hin. rewrite Hset. simpl in Hin |- *.
    destruct Hin as [Hin|Hin]; [discriminate|].
    destruct Hcases as [(_ & -> & _)|[(i & m & Hh & Hc & _)|(i & o & Hh & Hc & ->)]].
    + destruct (b_outputs _ _ HB id input out Hin) as [H1 H2].
      split; [exact H1|]. apply in_or_app. now left.
    + rewrite Hh in Hin. destruct Hin as [Hin|Hin]; [discriminate|].
      destruct (b_outputs _ _ HB id input out Hin) as [H1 H2].
      rewrite Hc. split; [exact H1|]. apply in_or_app. now left.
    + rewrite Hh in Hin. rewrite Hc. destruct Hin as [Hin|Hin].
      * injection Hin as <- <- <-. simpl in Hr. subst r.
        split; [apply lookup_insert_eq|]. apply in_or_app. right. now left.
      * destruct (b_outputs _ _ HB id input out Hin) as [H1 H2].
        split; [|apply in_or_app; now left].
        rewrite lookup_insert_ne; [exact H1|].
        intros <-. apply Hninv, invoked_ids_In. eauto.
  - intros Hstop. rewrite Hset. apply Forall_app.
    split; [now apply HB|]. constructor; [|constructor]. simpl.
    destruct res as [m|r']; simpl in Hr.
    + destruct Hr as [Hc _]. congruence.
    + subst r'.
      destruct Hcases as [(_ & _ & m & [=])|[(i & m & _ & _ & [=])|(i & o & _ & _ & [= ->])]].
      reflexivity.
  - intros id input msg Hstop Hin. exfalso. simpl in Hin.
    destruct Hin as [Hin|Hin]; [discriminate|].
    destruct Hcases as [(_ & -> & _)|[(i & m & Hh & _ & ->)|(i & o & Hh & _)]].
    + exact (Hclean _ _ _ Hstop Hin).
    + simpl in Hr. destruct Hr as [Hc _]. congruence.
    + rewrite Hh in Hin. destruct Hin as [Hin|Hin]; [discriminate|].
      exact (Hclean _ _ _ Hstop Hin).
  - intros id input msg Hcont Hin. rewrite Hset. simpl in Hin.
    destruct Hin as [Hin|Hin]; [discriminate|].
    destruct Hcases as [(_ & -> & _)|[(i & m & Hh & _ & ->)|(i & o & Hh & _)]].
    + apply in_or_app. left. exact (b_continue_rejected _ _ HB _ _ _ Hcont Hin).
    + rewrite Hh in Hin. destruct Hin as [Hin|Hin].
      * injection Hin as <- <- <-. simpl in Hr. destruct Hr as [_ ->].
        apply in_or_app. right. now left.
      * apply in_or_app. left.
        exact (b_continue_rejected _ _ HB _ _ _ Hcont Hin).
    + rewrite Hh in Hin. destruct Hin as [Hin|Hin]; [discriminate|].
      apply in_or_app. left. exact (b_continue_rejected _ _ HB _ _ _ Hcont Hin).
  - intros id Hin. simpl in Hin |- *. rewrite He.
    destruct Hcases as [(_ & -> & _)|[(i & m & Hh & _)|(i & o & Hh & _)]].
    + apply elem_of_union_r, Hinv, Hin.
    + rewrite Hh in Hin. destruct Hin as [<-|Hin];
        [apply elem_of_union_l; set_solver|apply elem_of_union_r, Hinv, Hin].
    + rewrite Hh in Hin. destruct Hin as [<-|Hin];
        [apply elem_of_union_l; set_solver|apply elem_of_union_r, Hinv, Hin].
  - intros id input msg Hstop Hin. simpl in Hin.
    destruct Hin as [Hin|Hin]; [discriminate|].
    destruct Hcases as [(_ & -> & _)|[(i & m & Hh & _ & ->)|(i & o & Hh & _)]].
    + exact (Hclean _ _ _ Hstop Hin).
    + simpl in Hr. destruct Hr as [Hc _]. congruence.
    + rewrite Hh in Hin. destruct Hin as [Hin|Hin]; [discriminate|].
      exact (Hclean _ _ _ Hstop Hin).
Qed.

Lemma throw_step node s s1 msg :
  Inv workflow s ->
  node_id node ∉ executedNodes s ->
  forallb (fun edge => bool_decide (source edge ∈ executedNodes s))
          (getIncomingEdges workflow (node_id node)) = true ->
  run_handler node s = (s1, inl msg) ->
  stops_on_error workflow = true ->
  Base workflow s1.
Proof.
  intros [HB Hinv Hclean] Hfresh Hdeps Hrun Hstop.
  pose proof (dependencies_met s _ HB Hdeps) as Hsrc.
  assert (Hnrec : ~ In (node_id node) (recorded_ids (history s)))
    by (now rewrite <- (executed_recorded s _ HB)).
  assert (Hninv : ~ In (node_id node) (invoked_ids (history s)))
    by (intros H; apply Hfresh, Hinv, H).
  destruct (run_handler_cases node s s1 _ Hrun) as (He & Hres & Hcases).
  destruct Hcases as [(_ & -> & _)|[(i & m & Hh & Hc & [= <-])|(i & o & _ & _ & [=])]];
    [exact HB|].
  destruct HB. split; rewrite ?He, ?Hres, ?Hh, ?Hc; simpl; auto.
  - intros id input out [Hin|Hin]; [discriminate|eauto].
  - intros id input m _ [Hin|Hin].
    + injection Hin as <- <- <-. split; [assumption|eauto].
    + destruct (Hclean _ _ _ Hstop Hin).
  - intros id input m Hc'. congruence.
Qed.

Lemma Inv_Base s : Inv workflow s -> Base workflow s.
Proof. now intros []. Qed.

Lemma unexecuted_mono s s' :
  executedNodes s ⊆ executedNodes s' ->
  (unexecuted workflow s' <= unexecuted workflow s)%nat.
Proof. intros H. apply subseteq_size. clear -H. set_solver. Qed.

Lemma unexecuted_record node r s s1 :
  In node (nodes workflow) ->
  node_id node ∉ executedNodes s ->
  executedNodes s1 = executedNodes s ->
  (unexecuted workflow (record_result (node_id node) r s1)
   < unexecuted workflow s)%nat.
Proof.
  intros Hin Hfresh He. apply subset_size. simpl. rewrite He.
  assert (node_id node ∈ ids_of (nodes workflow)).
  { apply elem_of_list_to_set, list_elem_of_In, in_map, Hin. }
  set_solver.
Qed.

(** One turn of the loop over the outgoing edges keeps what the recursive
    call keeps. *)
Lemma follow_edge_sat (I : State -> Prop) (T : string -> State -> Prop) (F : Prop)
  (recur : WorkflowNode -> State -> Outcome unit) data edge s :
  I s -> (forall m, T m s) ->
  (forall n, In n (nodes workflow) -> sat (fun _ => I) T F (recur n s)) ->
  sat (fun _ => I) T F (follow_edge workflow recur data edge s).
Proof.
  intros HI HT Hrec. unfold follow_edge.
  assert (Hvisit : sat (fun _ => I) T F
            match List.find (fun n => String.eqb (node_id n) (target edge))
                            (nodes workflow) with
            | Some nextNode => recur nextNode s
            | None => Return tt s
            end).
  { destruct (List.find _ _) as [n|] eqn:Ef; [|exact HI].
    apply Hrec. now apply find_some in Ef. }
  destruct (condition edge) as [cond|]; [|exact Hvisit].
  destruct (evaluateCondition (Some cond) data) as [[|]|msg]; simpl; auto.
Qed.

(** executeNode keeps the books in order, only adds to [executedNodes], and
    comes back as long as its budget exceeds the number of nodes still to
    execute. *)
Lemma executeNode_sat fuel :
  forall node s,
    In node (nodes workflow) ->
    Inv workflow s ->
    sat (fun _ s' => Inv workflow s' /\ executedNodes s ⊆ executedNodes s')
        (fun _ s' => Base workflow s')
        (fuel <= unexecuted workflow s)%nat
        (executeNode fuel node s).
Proof.
  induction fuel as [|fuel IH]; intros node s Hnode HI; [apply Nat.le_0_l|].
  simpl.
  destruct (bool_decide _) eqn:Edone; [simpl; split; [exact HI|reflexivity]|].
  apply bool_decide_eq_false_1 in Edone.
  destruct (forallb _ _) eqn:Edeps; simpl; [|split; [exact HI|reflexivity]].
  destruct (run_handler node s) as [s1 res] eqn:Erun.
  destruct (run_handler_cases node s s1 res Erun) as (He & _ & _).
  assert (Hloop : forall r,
    settles workflow (node_id node) res r ->
    sat (fun _ s' => Inv workflow s' /\ executedNodes s ⊆ executedNodes s')
        (fun _ s' => Base workflow s')
        (S fuel <= unexecuted workflow s)%nat
        (for_each (follow_edge workflow (executeNode fuel) (data r))
                  (getOutgoingEdges workflow (node_id node))
                  (record_result (node_id node) r s1))).
  { intros r Hr.
    pose proof (record_step node s s1 res r HI Edone Edeps Erun Hr) as HI2.
    pose proof (unexecuted_record node r s s1 Hnode Edone He) as Hlt.
    set (s2 := record_result (node_id node) r s1) in *.
    eapply sat_mono.
    - apply (for_each_sat
               (fun s' => Inv workflow s' /\ executedNodes s2 ⊆ executedNodes s')
               (fun _ s' => Base workflow s')
               (S fuel <= unexecuted workflow s)%nat).
      + split; [exact HI2|reflexivity].
      + intros edge s' _ [HI' Hsub].
        apply follow_edge_sat; [now split|intros _; now apply Inv_Base|].
        intros n Hn. eapply sat_mono; [apply (IH n s' Hn HI')|..].
        * intros _ s'' [H1 H2]. split; [exact H1|]. etransitivity; eassumption.
        * auto.
        * intros Hle. pose proof (unexecuted_mono s2 s' Hsub). lia.
    - intros _ s' [H1 H2]. split; [exact H1|].
      etransitivity; [|exact H2]. subst s2. simpl. rewrite He. set_solver.
    - auto.
    - tauto. }
  destruct res as [msg|result].
  - destruct (stops_on_error workflow) eqn:Estop.
    + simpl. eapply throw_step; eassumption.
    + apply (Hloop (error_result (node_id node) msg)). simpl. auto.
  - apply Hloop. reflexivity.
Qed.

Lemma seed_outputs_frame startNodes s :
  executedNodes (seed_outputs startNodes s) = executedNodes s /\
  nodeResults (seed_outputs startNodes s) = nodeResults s /\
  history (seed_outputs startNodes s) = history s /\
  input (context (seed_outputs startNodes s)) = input (context s) /\
  executionId (context (seed_outputs startNodes s)) = executionId (context s).
Proof.
  unfold seed_outputs. revert s.
  induction startNodes as [|n ns IH]; intros s; simpl; [tauto|].
  destruct (IH (with_context
                  (set_nodeOutput (node_id n) (input (context s)) (context s)) s))
    as (-> & -> & -> & -> & ->).
  simpl. tauto.
Qed.

Lemma blank_Inv s : blank s -> Inv workflow s.
Proof.
  intros (He & Hr & Hh).
  split; [split|..]; rewrite ?He, ?Hr, ?Hh; simpl; try tauto; auto.
Qed.

Lemma blank_new_engine input userId mode uuid :
  blank (new_engine workflow input userId mode uuid).
Proof. now repeat split. Qed.

Lemma findStartNodes_incl n :
  In n (findStartNodes workflow) -> In n (nodes workflow).
Proof. unfold findStartNodes. intros H. now apply filter_In in H. Qed.

Lemma unexecuted_bound s :
  (unexecuted workflow s <= length (nodes workflow))%nat.
Proof.
  unfold unexecuted.
  transitivity (size (ids_of (nodes workflow)));
    [apply subseteq_size; set_solver|].
  unfold ids_of.
  generalize (List.map node_id (nodes workflow)) (length_map node_id (nodes workflow)).
  intros l <-. clear. induction l as [|a l IH].
  - rewrite list_to_set_nil, size_empty. apply Nat.le_0_l.
  - rewrite list_to_set_cons, size_union_alt, size_singleton.
    assert (size (list_to_set l ∖ {[a]} : gset string)
            <= size (list_to_set l : gset string))%nat
      by (apply subseteq_size; set_solver).
    simpl. lia.
Qed.

Lemma seeded_blank s : blank s -> blank (seeded workflow s).
Proof.
  unfold seeded, blank. destruct (truthy _); [|tauto].
  destruct (seed_outputs_frame (findStartNodes workflow) s) as (-> & -> & -> & _).
  tauto.
Qed.

(** The traversal from the start nodes. *)
Lemma traversal_sat fuel s :
  Inv workflow s ->
  sat (fun _ s' => Inv workflow s') (fun _ s' => Base workflow s')
      (fuel <= length (nodes workflow))%nat
      (for_each (executeNode fuel) (findStartNodes workflow) s).
Proof.
  intros HI. apply for_each_sat; [exact HI|].
  intros n s' Hn HI'. eapply sat_mono.
  - apply (executeNode_sat fuel n s' (findStartNodes_incl n Hn) HI').
  - now intros _ s'' [H _].
  - auto.
  - intros H. pose proof (unexecuted_bound s'). lia.
Qed.

Lemma execute_body_unfold fuel s :
  execute_body getHandler workflow fuel s =
  match findStartNodes workflow with
  | [] => Throw "No trigger or start node found in workflow" s
  | _ =>
      bind (for_each (executeNode fuel) (findStartNodes workflow) (seeded workflow s))
           (fun _ s2 =>
              Return match last (findEndNodes workflow) with
                     | Some n => output_of (context s2) (node_id n)
                     | None => Undefined
                     end s2)
  end.
Proof. reflexivity. Qed.

(** What execute hands back, from a state in which nothing has run. *)
Lemma execute_with_sat fuel s :
  blank s ->
  match execute_with getHandler workflow fuel s with
  | Some (r, s') =>
      Base workflow s' /\
      results r = List.map snd (nodeResults s') /\
      (result_status r = run_success ->
       Inv workflow s' /\ findStartNodes workflow <> [] /\
       result_error r = None /\
       output r = match last (findEndNodes workflow) with
                  | Some n => output_of (context s') (node_id n)
                  | None => Undefined
                  end) /\
      (result_status r = run_failed ->
       output r = Undefined /\ exists msg, result_error r = Some msg)
  | None => (fuel <= length (nodes workflow))%nat
  end.
Proof.
  intros Hb. unfold execute_with. rewrite execute_body_unfold.
  destruct (findStartNodes workflow) as [|n0 ns] eqn:Es.
  - simpl. split; [apply Inv_Base, blank_Inv, Hb|].
    split; [reflexivity|]. split; [discriminate|]. eauto.
  - rewrite <- Es.
    pose proof (traversal_sat fuel (seeded workflow s) (blank_Inv _ (seeded_blank s Hb))) as Ht.
    destruct (for_each _ _ _) as [[] s'|msg s'|]; simpl in *.
    + split; [now apply Inv_Base|]. split; [reflexivity|].
      split; [|discriminate]. intros _. rewrite Es.
      split; [exact Ht|]. split; [discriminate|]. split; reflexivity.
    + split; [exact Ht|]. split; [reflexivity|]. split; [discriminate|]. eauto.
    + exact Ht.
Qed.

(** Under the [continue] policy, and with patterns that compile, nothing
    is thrown during the traversal. *)
Lemma executeNode_no_throw fuel :
  stops_on_error workflow = false ->
  patterns_compile workflow ->
  forall node s,
    sat (fun _ _ => True) (fun _ _ => False) True (executeNode fuel node s).
Proof.
  intros Hcont Hpat.
  induction fuel as [|fuel IH]; intros node s; simpl; [exact I|].
  destruct (bool_decide _); [exact I|].
  destruct (forallb _ _); simpl; [|exact I].
  assert (Hloop : forall data s',
    sat (fun _ _ => True) (fun _ _ => False) True
        (for_each (follow_edge workflow (executeNode fuel) data)
                  (getOutgoingEdges workflow (node_id node)) s')).
  { intros data s'. apply (for_each_sat (fun _ => True)); [exact I|].
    intros edge s'' Hin _. apply filter_In in Hin as [Hin _].
    unfold follow_edge.
    assert (Hvisit : sat (fun _ _ => True) (fun _ _ => False) True
              match List.find (fun n => String.eqb (node_id n) (target edge))
                              (nodes workflow) with
              | Some nextNode => executeNode fuel nextNode s''
              | None => Return tt s''
              end).
    { destruct (List.find _ _); [apply IH|exact I]. }
    destruct (condition edge) as [cond|] eqn:Ec; [|exact Hvisit].
    destruct (evaluateCondition_compiles workflow edge cond data Hpat Hin Ec)
      as [[|] ->]; [exact Hvisit|exact I]. }
  destruct (run_handler node s) as [s1 [msg|result]]; [rewrite Hcont|];
    apply Hloop.
Qed.

Lemma execute_continue s r s' :
  stops_on_error workflow = false ->
  patterns_compile workflow ->
  findStartNodes workflow <> [] ->
  execute getHandler workflow s = Some (r, s') ->
  result_status r = run_success.
Proof.
  intros Hcont Hpat Hstart. unfold execute, execute_with.
  rewrite execute_body_unfold.
  destruct (findStartNodes workflow) as [|n0 ns] eqn:Es; [contradiction|].
  rewrite <- Es.
  assert (Hrun : sat (fun _ _ => True) (fun _ _ => False) True
            (for_each (executeNode (budget workflow)) (findStartNodes workflow)
                      (seeded workflow s))).
  { apply (for_each_sat (fun _ => True)); [exact I|].
    intros n s'' _ _. now apply executeNode_no_throw. }
  destruct (for_each _ _ _) as [[] s2|msg s2|]; simpl in *.
  - now intros [= <- <-].
  - contradiction.
  - discriminate.
Qed.

(** execute always returns: the budget is never used up. *)
Lemma execute_total s :
  blank s -> exists r s', execute getHandler workflow s = Some (r, s').
Proof.
  intros Hb. unfold execute, budget.
  pose proof (execute_with_sat (S (length (nodes workflow))) s Hb) as H.
  destruct (execute_with _ _ _ _) as [[r s']|]; [eauto|lia].
Qed.

End Facts.
End EngineFacts.
(* ===================================================================== *)
(** ** Edge conditions: the properties                                   *)
(* ===================================================================== *)

Module ConditionClaims.
Import Js Types Engine Spec JsFacts ConditionFacts Examples.

Section Claims.
Context {rt : Runtime}.

Lemma strict_equals_undefined v :
  v <> Undefined -> strict_equals Undefined v = false.
Proof. destruct v; simpl; congruence. Qed.



End Claims.




End ConditionClaims.

(* ===================================================================== *)
(** ** Input gathering: the properties                                   *)
(* ===================================================================== *)

Module GatherClaims.
Import Js Types Engine Spec JsFacts Examples.

Lemma latest_app key l1 l2 :
  latest key (l1 ++ l2)%list =
  match latest key l1 with
  | Some v => Some v
  | None => latest key l2
  end.
Proof.
  induction l1 as [|o l1 IH]; simpl; [reflexivity|].
  now destruct (truthy o && typeof_object o && existsb (String.eqb key) (own_keys o)).
Qed.

Lemma latest_Some key l v :
  latest key l = Some v ->
  exists o, In o l /\ truthy_object o = true /\
            existsb (String.eqb key) (own_keys o) = true /\ v = get_own o key.
Proof.
  induction l as [|o l IH]; simpl; [discriminate|].
  destruct (truthy o && typeof_object o && existsb (String.eqb key) (own_keys o)) eqn:E.
  - intros [= <-]. apply andb_true_iff in E as [E1 E2]. exists o. auto.
  - intros H. destruct (IH H) as (o' & Hin & Hrest). exists o'. auto.
Qed.

(** The merging loop, key by key: the latest qualifying source wins. *)
Lemma merge_lookup c key incoming : forall acc,
  assoc key (fold_left (merge_edge c) incoming acc) =
  match latest key (rev (List.map (fun e => output_of c (source e)) incoming)) with
  | Some v => Some v
  | None => assoc key acc
  end.
Proof.
  induction incoming as [|e es IH]; intros acc; simpl; [reflexivity|].
  rewrite IH, latest_app. destruct (latest key (rev _)); [reflexivity|].
  unfold merge_edge. simpl.
  destruct (truthy (output_of c (source e)) && typeof_object (output_of c (source e))).
  - rewrite assoc_assign. simpl.
    now destruct (existsb _ _).
  - reflexivity.
Qed.

(** The merging loop only sees the outputs that are truthy objects. *)
Lemma merge_filter c incoming : forall acc,
  fold_left (merge_edge c) incoming acc =
  fold_left assign
    (List.filter truthy_object
       (List.map (fun e => output_of c (source e)) incoming)) acc.
Proof.
  induction incoming as [|e es IH]; intros acc; simpl; [reflexivity|].
  rewrite IH. unfold merge_edge, truthy_object.
  now destruct (truthy (output_of c (source e)) && typeof_object (output_of c (source e))).
Qed.

(** Where the execution input is absent or truthy and the source outputs
    are truthy objects, the gathered input is the one the specification
    words. *)
Lemma gathered_input_agrees workflow c nodeId :
  (input c = Undefined \/ truthy (input c) = true) ->
  Forall (fun e => truthy_object (output_of c (source e)) = true)
         (getIncomingEdges workflow nodeId) ->
  gatherNodeInput workflow c nodeId = claimed_input workflow c nodeId.
Proof.
  intros Hi Hall. unfold gatherNodeInput, claimed_input.
  destruct (getIncomingEdges workflow nodeId) as [|e1 [|e2 rest]] eqn:E.
  - unfold or_else. destruct Hi as [->|Ht]; [reflexivity|].
    rewrite Ht. now destruct (input c).
  - apply Forall_inv in Hall. unfold truthy_object in Hall.
    apply andb_true_iff in Hall as [Ht _]. unfold or_else. now rewrite Ht.
  - rewrite merge_filter. f_equal. f_equal.
    generalize dependent (e1 :: e2 :: rest). intros l _ Hall.
    induction Hall as [|e l He _ IH]; simpl; [reflexivity|].
    now rewrite He, IH.
Qed.



(** C10.  With several incoming edges the merged input is built from the
    source outputs that are truthy objects only: a string, a number, null
    or a missing output is passed over and no key of the merged input
    comes from it.  With a single incoming edge whose source has no
    recorded output the input is the empty object. *)
Theorem non_object_sources_are_skipped
  (workflow : WorkflowDefinition) (c : ExecutionContext) (nodeId : string) :
  let incoming := getIncomingEdges workflow nodeId in
  let outputs := List.map (fun e => output_of c (source e)) incoming in
  (forall e1 e2 rest, incoming = e1 :: e2 :: rest ->
   gatherNodeInput workflow c nodeId
   = Obj (fold_left assign (List.filter truthy_object outputs) []) /\
   forall merged key v,
     gatherNodeInput workflow c nodeId = Obj merged ->
     assoc key merged = Some v ->
     exists edge,
       In edge incoming /\
       truthy_object (output_of c (source edge)) = true /\
       existsb (String.eqb key) (own_keys (output_of c (source edge))) = true /\
       v = get_own (output_of c (source edge)) key) /\
  (forall s n b,
     truthy_object (Str s) = false /\ truthy_object (Num n) = false /\
     truthy_object (Bool b) = false /\
     truthy_object Null = false /\ truthy_object Undefined = false) /\
  (forall id, nodeOutputs c !! id = None -> output_of c id = Undefined) /\
  (forall edge, incoming = [edge] -> nodeOutputs c !! source edge = None ->
   gatherNodeInput workflow c nodeId = Obj []).
Proof.
  intros incoming outputs. split.
  { intros e1 e2 rest H.
    assert (Hg : gatherNodeInput workflow c nodeId
                 = Obj (fold_left (merge_edge c) incoming [])).
    { unfold gatherNodeInput. fold incoming. now rewrite H. }
    split; [now rewrite Hg, merge_filter|].
    intros merged key v Hm Hk. rewrite Hg in Hm. injection Hm as <-.
    rewrite merge_lookup in Hk. simpl in Hk.
    destruct (latest key _) as [w|] eqn:El; [|discriminate].
    injection Hk as ->.
    destruct (latest_Some _ _ _ El) as (o & Hin & Ho & Hkey & ->).
    apply in_rev, in_map_iff in Hin as (edge & <- & Hin).
    exists edge. auto. }
  split.
  { intros s n b. unfold truthy_object. simpl.
    rewrite !andb_false_r. auto. }
  split; [intros id H; unfold output_of; now rewrite H|].
  intros edge H Hnone. unfold gatherNodeInput. fold incoming. rewrite H.
  unfold output_of. now rewrite Hnone.
Qed.

End GatherClaims.

(* ===================================================================== *)
(** ** Start nodes and the final output: the properties                  *)
(* ===================================================================== *)

Module TraversalClaims.
Import Js Types Engine Spec JsFacts EngineFacts Examples.

Lemma trigger_tag t :
  startsWith "TRIGGER_" (NodeType_tag t) = true <-> In t trigger_types.
Proof.
  destruct t; vm_compute; split; intros H; try discriminate; try reflexivity;
    try tauto;
    repeat (destruct H as [H|H]; [discriminate|]); destruct H.
Qed.

Lemma no_edge_targets workflow id :
  bool_decide (id ∈ (list_to_set (List.map target (edges workflow)) : gset string))
  = false <->
  forall e, In e (edges workflow) -> target e <> id.
Proof.
  rewrite bool_decide_eq_false, elem_of_list_to_set, list_elem_of_In, in_map_iff.
  split.
  - intros Hn e Hin He. apply Hn. eauto.
  - intros Hall (e & He & Hin). exact (Hall e Hin He).
Qed.

(** C4, as amended.  The start nodes are, in declaration order, exactly
    the nodes that no edge targets together with the nodes whose type is
    one of the five trigger types whose tag begins with TRIGGER_, the latter
    whether or not an edge targets them; a node of the plain type TRIGGER
    is a start node only when no edge targets it.  A workflow without a
    start node makes execute fail, with status failed, the message of the
    missing start node, and nothing executed. *)
Theorem start_node_selection {rt : Runtime}
  (getHandler : NodeType -> option NodeHandler) (workflow : WorkflowDefinition) :
  (forall n, In n (findStartNodes workflow) <->
             In n (nodes workflow) /\
             ((forall e, In e (edges workflow) -> target e <> node_id n) \/
              In (type n) trigger_types)) /\
  (exists keep, findStartNodes workflow = List.filter keep (nodes workflow)) /\
  (forall t, startsWith "TRIGGER_" (NodeType_tag t) = true <->
             In t trigger_types) /\
  (forall n, type n = TRIGGER ->
             (In n (findStartNodes workflow) <->
              In n (nodes workflow) /\
              forall e, In e (edges workflow) -> target e <> node_id n)) /\
  (findStartNodes workflow = [] ->
   forall s,
     execute getHandler workflow s
     = Some ({| result_executionId := executionId (context s);
                result_status := run_failed;
                results := List.map snd (nodeResults s);
                output := Undefined;
                result_error :=
                  Some "No trigger or start node found in workflow" |}, s)) /\
  List.map node_id (findStartNodes reseeded) = ["A"; "T"] /\
  option_map (fun r => (result_status r, results r, result_error r))
    (executeWorkflow getHandler cycle Undefined None manual "id")
  = Some (run_failed, [], Some "No trigger or start node found in workflow").
Proof.
  assert (Hstart : forall n, In n (findStartNodes workflow) <->
             In n (nodes workflow) /\
             ((forall e, In e (edges workflow) -> target e <> node_id n) \/
              In (type n) trigger_types)).
  { intros n. unfold findStartNodes. rewrite filter_In, orb_true_iff.
    rewrite negb_true_iff, no_edge_targets, trigger_tag. reflexivity. }
  split; [exact Hstart|].
  split; [eexists; reflexivity|].
  split; [apply trigger_tag|].
  split.
  { intros n Hn. rewrite Hstart, Hn. split.
    - intros [Hin [Hfree|Htrig]]; [auto|].
      exfalso. simpl in Htrig. intuition discriminate.
    - intros [Hin Hfree]. auto. }
  split.
  { intros Hnone s. unfold execute, execute_with.
    rewrite execute_body_unfold, Hnone. reflexivity. }
  split; vm_compute; reflexivity.
Qed.

(** C4, the claim as it stands.  TRIGGER is a type tag that names a
    trigger, and the node L of that type is targeted by an edge: the claim
    makes it a start node, beside A and the webhook trigger T, but
    findStartNodes leaves it out. *)
Lemma plain_trigger_is_no_start_node :
  In (node "L" TRIGGER) (nodes reseeded) /\
  names_a_trigger TRIGGER = true /\
  In (node "L" TRIGGER) (claimed_start_nodes reseeded) /\
  ~ In (node "L" TRIGGER) (findStartNodes reseeded) /\
  List.map node_id (claimed_start_nodes reseeded) = ["A"; "T"; "L"] /\
  List.map node_id (findStartNodes reseeded) = ["A"; "T"].
Proof.
  split; [simpl; tauto|]. split; [reflexivity|].
  split; [vm_compute; tauto|].
  split; [|split; vm_compute; reflexivity].
  intros Hin.
  pose proof (List.in_map node_id _ _ Hin) as H.
  vm_compute in H. intuition discriminate.
Qed.

Lemma no_edge_leaves workflow id :
  bool_decide (id ∈ (list_to_set (List.map source (edges workflow)) : gset string))
  = false <->
  forall e, In e (edges workflow) -> source e <> id.
Proof.
  rewrite bool_decide_eq_false, elem_of_list_to_set, list_elem_of_In, in_map_iff.
  split.
  - intros Hn e Hin He. apply Hn. eauto.
  - intros Hall (e & He & Hin). exact (Hall e Hin He).
Qed.

Lemma filter_Permutation_eq {X} (f : X -> bool) (l l' : list X) :
  Permutation l l' -> Permutation (List.filter f l) (List.filter f l').
Proof.
  induction 1 as [|x l l' _ IH|x y l|l l' l'' _ IH1 _ IH2]; simpl.
  - constructor.
  - destruct (f x); [now constructor|exact IH].
  - destruct (f x), (f y); try reflexivity. constructor.
  - now transitivity (List.filter f l').
Qed.

Lemma filter_Permutation_nil {X} (f : X -> bool) (l l' : list X) :
  Permutation l l' -> List.filter f l' = [] -> List.filter f l = [].
Proof.
  intros Hp He. apply Permutation_nil. symmetry.
  rewrite <- He. now apply filter_Permutation_eq.
Qed.

Lemma filter_Permutation_one {X} (f : X -> bool) (l l' : list X) x :
  Permutation l l' -> List.filter f l' = [x] -> List.filter f l = [x].
Proof.
  intros Hp He. apply Permutation_length_1_inv. symmetry.
  rewrite <- He. now apply filter_Permutation_eq.
Qed.

Lemma for_each_app {X} (body : X -> State -> Outcome unit) l1 l2 s :
  for_each body (l1 ++ l2)%list s
  = bind (for_each body l1 s) (fun _ => for_each body l2).
Proof.
  revert s; induction l1 as [|x l1 IH]; intros s; simpl.
  - reflexivity.
  - destruct (body x s) as [[] s'| |]; simpl; auto.
Qed.

Section Chain.
Context {rt : Runtime}.
Variable getHandler : NodeType -> option NodeHandler.
Variable workflow : WorkflowDefinition.
Variables A B C : WorkflowNode.
Hypothesis Hchain : linear_chain workflow A B C.
Hypothesis Hpass : pass_through_handlers getHandler workflow.

Lemma chain_eqb :
  String.eqb (node_id A) (node_id B) = false /\
  String.eqb (node_id B) (node_id A) = false /\
  String.eqb (node_id A) (node_id C) = false /\
  String.eqb (node_id C) (node_id A) = false /\
  String.eqb (node_id B) (node_id C) = false /\
  String.eqb (node_id C) (node_id B) = false.
Proof.
  destruct Hchain as (_ & Hab & Hac & Hbc & _).
  repeat split; apply String.eqb_neq; congruence.
Qed.

Lemma chain_nodes n : In n (nodes workflow) <-> n = A \/ n = B \/ n = C.
Proof.
  destruct Hchain as (Hn & _). split.
  - intros H. apply (Permutation_in _ Hn) in H. simpl in H. intuition auto.
  - intros H. apply (Permutation_in _ (Permutation_sym Hn)). simpl. intuition auto.
Qed.

Lemma chain_NoDup : List.NoDup (nodes workflow).
Proof.
  destruct Hchain as (Hn & Hab & Hac & Hbc & _).
  apply (Permutation_NoDup (Permutation_sym Hn)).
  repeat constructor; simpl; intuition congruence.
Qed.

Lemma chain_edges :
  getIncomingEdges workflow (node_id A) = [] /\
  getOutgoingEdges workflow (node_id C) = [] /\
  exists e1 e2,
    (forall e, In e (edges workflow) <-> e = e1 \/ e = e2) /\
    condition e1 = None /\ condition e2 = None /\
    target e1 = node_id B /\ target e2 = node_id C /\
    source e1 = node_id A /\ source e2 = node_id B /\
    getIncomingEdges workflow (node_id B) = [e1] /\
    getIncomingEdges workflow (node_id C) = [e2] /\
    getOutgoingEdges workflow (node_id A) = [e1] /\
    getOutgoingEdges workflow (node_id B) = [e2].
Proof.
  destruct chain_eqb as (Eab & Eba & Eac & Eca & Ebc & Ecb).
  destruct Hchain as (_ & _ & _ & _ & e1 & e2 & He & Hs1 & Ht1 & Hc1 & Hs2 & Ht2 & Hc2).
  unfold getIncomingEdges, getOutgoingEdges.
  assert (Hf : forall f r, List.filter f [e1; e2] = r ->
                 (r = [] -> List.filter f (edges workflow) = []) /\
                 (forall x, r = [x] -> List.filter f (edges workflow) = [x])).
  { intros f r <-. split.
    - apply filter_Permutation_nil, He.
    - intros x. apply filter_Permutation_one, He. }
  split; [eapply Hf; [reflexivity|]; simpl;
          rewrite Ht1, Ht2; now rewrite Eba, Eca|].
  split; [eapply Hf; [reflexivity|]; simpl;
          rewrite Hs1, Hs2; now rewrite Eac, Ebc|].
  exists e1, e2.
  split.
  { intros e. split.
    - intros H. apply (Permutation_in _ He) in H. simpl in H. intuition auto.
    - intros H. apply (Permutation_in _ (Permutation_sym He)). simpl.
      intuition auto. }
  repeat (split; [assumption|]).
  repeat split; (eapply Hf; [reflexivity|]); simpl;
    rewrite ?Hs1, ?Hs2, ?Ht1, ?Ht2;
    repeat rewrite ?String.eqb_refl, ?Eab, ?Eba, ?Eac, ?Eca, ?Ebc, ?Ecb;
    reflexivity.
Qed.

Lemma chain_find :
  List.find (fun n => String.eqb (node_id n) (node_id B)) (nodes workflow) = Some B /\
  List.find (fun n => String.eqb (node_id n) (node_id C)) (nodes workflow) = Some C.
Proof.
  destruct chain_eqb as (Eab & Eba & Eac & Eca & Ebc & Ecb).
  split.
  - destruct (List.find _ _) as [n|] eqn:Ef.
    + apply find_some in Ef as [Hin He]. apply chain_nodes in Hin.
      destruct Hin as [->|[->| ->]]; congruence.
    + assert (HB : In B (nodes workflow)) by (apply chain_nodes; auto).
      apply (find_none _ _ Ef) in HB. simpl in HB.
      now rewrite String.eqb_refl in HB.
  - destruct (List.find _ _) as [n|] eqn:Ef.
    + apply find_some in Ef as [Hin He]. apply chain_nodes in Hin.
      destruct Hin as [->|[->| ->]]; congruence.
    + assert (HC : In C (nodes workflow)) by (apply chain_nodes; auto).
      apply (find_none _ _ Ef) in HC. simpl in HC.
      now rewrite String.eqb_refl in HC.
Qed.

Lemma chain_start :
  exists before after,
    findStartNodes workflow = (before ++ A :: after)%list /\
    forall n, In n (before ++ after)%list -> n = B \/ n = C.
Proof.
  destruct chain_edges as (_ & _ & e1 & e2 & Hedges & _ & _ & Ht1 & Ht2 & _).
  pose proof Hchain as (_ & Hab & Hac & _).
  assert (HA : In A (findStartNodes workflow)).
  { unfold findStartNodes. apply filter_In. split; [apply chain_nodes; auto|].
    apply orb_true_iff. left. apply negb_true_iff, no_edge_targets.
    intros e He. apply Hedges in He as [->| ->]; congruence. }
  destruct (in_split _ _ HA) as (before & after & Hsplit).
  exists before, after. split; [exact Hsplit|].
  intros n Hn.
  assert (Hnd : List.NoDup (findStartNodes workflow))
    by (unfold findStartNodes; apply List.NoDup_filter, chain_NoDup).
  rewrite Hsplit in Hnd. apply List.NoDup_remove_2 in Hnd.
  assert (Hin : In n (nodes workflow)).
  { apply findStartNodes_incl. rewrite Hsplit.
    apply in_app_or in Hn. apply in_or_app. simpl. tauto. }
  apply chain_nodes in Hin as [->|Hin]; [contradiction|exact Hin].
Qed.

Lemma chain_end : findEndNodes workflow = [C].
Proof.
  destruct chain_edges as (_ & _ & e1 & e2 & Hedges & _ & _ & _ & _ & Hs1 & Hs2 & _).
  pose proof Hchain as (Hn & Hab & Hac & Hbc & _).
  unfold findEndNodes. eapply filter_Permutation_one; [exact Hn|].
  cbn [List.filter].
  assert (HA : bool_decide (node_id A ∈ (list_to_set (List.map source (edges workflow)) : gset string)) = true).
  { apply bool_decide_eq_true_2, elem_of_list_to_set, list_elem_of_In, in_map_iff.
    exists e1. split; [exact Hs1|]. apply Hedges. auto. }
  assert (HB : bool_decide (node_id B ∈ (list_to_set (List.map source (edges workflow)) : gset string)) = true).
  { apply bool_decide_eq_true_2, elem_of_list_to_set, list_elem_of_In, in_map_iff.
    exists e2. split; [exact Hs2|]. apply Hedges. auto. }
  assert (HC : bool_decide (node_id C ∈ (list_to_set (List.map source (edges workflow)) : gset string)) = false).
  { apply no_edge_leaves. intros e He. apply Hedges in He as [->| ->]; congruence. }
  now rewrite HA, HB, HC.
Qed.

Lemma or_else_truthy v : truthy (or_else v (Obj [])) = true.
Proof. unfold or_else. now destruct (truthy v) eqn:E. Qed.

Lemma or_else_idem v : or_else (or_else v (Obj [])) (Obj []) = or_else v (Obj []).
Proof. unfold or_else at 1. now rewrite or_else_truthy. Qed.

Lemma for_each_done fuel ns s :
  (forall n, In n ns -> node_id n ∈ executedNodes s) ->
  for_each (executeNode getHandler workflow (S fuel)) ns s = Return tt s.
Proof.
  induction ns as [|n ns IH]; intros H; [reflexivity|].
  cbn [for_each]. rewrite executeNode_done by (apply H; now left).
  apply IH. intros m Hm. apply H. now right.
Qed.

Lemma for_each_deferred fuel ns s :
  (forall n, In n ns ->
     exists edge, In edge (edges workflow) /\ target edge = node_id n /\
                  source edge ∉ executedNodes s) ->
  for_each (executeNode getHandler workflow (S fuel)) ns s = Return tt s.
Proof.
  induction ns as [|n ns IH]; intros H; [reflexivity|].
  cbn [for_each].
  destruct (H n (or_introl eq_refl)) as (edge & Hin & Ht & Hs).
  rewrite (executeNode_deferred getHandler workflow fuel n s edge Hin Ht Hs).
  apply IH. intros m Hm. apply H. now right.
Qed.

(** The run of the chain from the start nodes: A, B and C execute in this
    order, each handed what the first was handed. *)
Lemma chain_run fuel s :
  executedNodes s = ∅ -> nodeResults s = [] ->
  let v := or_else (input (context s)) (Obj []) in
  exists s',
    for_each (executeNode getHandler workflow (S (S (S (S fuel)))))
             (findStartNodes workflow) s = Return tt s' /\
    output_of (context s') (node_id C) = v /\
    executionId (context s') = executionId (context s) /\
    List.map snd (nodeResults s')
    = [success_result (node_id A) v; success_result (node_id B) v;
       success_result (node_id C) v].
Proof.
  intros Hex Hres v.
  destruct chain_eqb as (Eab & Eba & Eac & Eca & Ebc & Ecb).
  pose proof Hchain as (_ & Hab & Hac & Hbc & _).
  destruct chain_edges as (HinA & HoutC & e1 & e2 & Hedges & Hc1 & Hc2 & Ht1 & Ht2 &
                           Hs1 & Hs2 & HinB & HinC & HoutA & HoutB).
  destruct chain_find as (HfB & HfC).
  destruct chain_start as (before & after & Hstart & Hrest).
  assert (HnA : In A (nodes workflow)) by (apply chain_nodes; auto).
  assert (HnB : In B (nodes workflow)) by (apply chain_nodes; auto).
  assert (HnC : In C (nodes workflow)) by (apply chain_nodes; auto).
  destruct (Hpass A HnA) as (hA & HhA & HpA).
  destruct (Hpass B HnB) as (hB & HhB & HpB).
  destruct (Hpass C HnC) as (hC & HhC & HpC).
  rewrite Hstart, for_each_app.
  rewrite for_each_deferred.
  2:{ intros n Hn. destruct (Hrest n (in_or_app _ _ _ (or_introl Hn))) as [->| ->].
      - exists e1. rewrite Hex. split; [apply Hedges; auto|]. split; [exact Ht1|].
        set_solver.
      - exists e2. rewrite Hex. split; [apply Hedges; auto|]. split; [exact Ht2|].
        set_solver. }
  cbn [bind for_each].
  match goal with
  | |- exists s', ?lhs = _ /\ _ =>
      enough (Hrun : exists s', lhs = Return tt s' /\
                output_of (context s') (node_id C) = v /\
                executionId (context s') = executionId (context s) /\
                nodeResults s'
                = [(node_id A, success_result (node_id A) v);
                   (node_id B, success_result (node_id B) v);
                   (node_id C, success_result (node_id C) v)])
  end.
  { destruct Hrun as (s' & H1 & H2 & H3 & H4). exists s'.
    rewrite H4. auto. }
  (* A *)
  rewrite (executeNode_run getHandler workflow _ A s hA v);
    [|rewrite Hex; set_solver
     |rewrite HinA; intros ? []
     |exact HhA
     |rewrite HpA; unfold gatherNodeInput; now rewrite HinA].
  rewrite HoutA. cbn [for_each]. unfold follow_edge at 1.
  rewrite Hc1, Ht1, HfB.
  match goal with |- context [@executeNode _ _ _ _ B ?st] => set (sA := st) end.
  assert (HoA : output_of (context sA) (node_id A) = v).
  { unfold output_of, sA. simpl. now rewrite lookup_insert_eq. }
  (* B *)
  rewrite (executeNode_run getHandler workflow _ B sA hB v);
    [|unfold sA; simpl; rewrite Hex; set_solver
     |rewrite HinB; intros ? [<-|[]]; rewrite Hs1; unfold sA; simpl; set_solver
     |exact HhB
     |rewrite HpB; unfold gatherNodeInput; rewrite HinB, Hs1, HoA;
      unfold v; now rewrite or_else_idem].
  rewrite HoutB. cbn [for_each]. unfold follow_edge at 1.
  rewrite Hc2, Ht2, HfC.
  match goal with |- context [@executeNode _ _ _ _ C ?st] => set (sB := st) end.
  assert (HoB : output_of (context sB) (node_id B) = v).
  { unfold output_of, sB. simpl. now rewrite lookup_insert_eq. }
  (* C *)
  rewrite (executeNode_run getHandler workflow _ C sB hC v);
    [|unfold sB, sA; simpl; rewrite Hex; set_solver
     |rewrite HinC; intros ? [<-|[]]; rewrite Hs2; unfold sB; simpl; set_solver
     |exact HhC
     |rewrite HpC; unfold gatherNodeInput; rewrite HinC, Hs2, HoB;
      unfold v; now rewrite or_else_idem].
  rewrite HoutC. cbn [for_each bind].
  match goal with |- context [for_each _ after ?st] => set (sC := st) end.
  exists sC. split.
  { apply for_each_done. intros n Hn.
    destruct (Hrest n (in_or_app _ _ _ (or_intror Hn))) as [->| ->];
      unfold sC, sB, sA; simpl; set_solver. }
  split; [unfold output_of, sC; simpl; now rewrite lookup_insert_eq|].
  split; [reflexivity|].
  unfold sC, sB, sA. simpl. rewrite Hres. simpl.
  rewrite Eab. simpl. rewrite Eac, Ebc. reflexivity.
Qed.

Lemma chain_execute inp userId mode uuid :
  let v := or_else inp (Obj []) in
  exists s',
    execute getHandler workflow (new_engine workflow inp userId mode uuid)
    = Some ({| result_executionId := uuid;
               result_status := run_success;
               results := [success_result (node_id A) v;
                           success_result (node_id B) v;
                           success_result (node_id C) v];
               output := v;
               result_error := None |}, s').
Proof.
  intros v. set (s0 := new_engine workflow inp userId mode uuid).
  assert (Hb : blank (seeded workflow s0))
    by apply seeded_blank, blank_new_engine.
  destruct Hb as (He & Hr & _).
  assert (Hi : input (context (seeded workflow s0)) = inp).
  { unfold seeded. destruct (truthy _); [|reflexivity].
    now destruct (seed_outputs_frame (findStartNodes workflow) s0) as (_ & _ & _ & -> & _). }
  assert (Hid : executionId (context (seeded workflow s0)) = uuid).
  { unfold seeded. destruct (truthy _); [|reflexivity].
    now destruct (seed_outputs_frame (findStartNodes workflow) s0) as (_ & _ & _ & _ & ->). }
  destruct (chain_run 0 (seeded workflow s0) He Hr) as (s' & Hrun & Hout & Hid' & Hres).
  rewrite Hi in Hout, Hres. rewrite Hid in Hid'.
  exists s'. unfold execute, execute_with, budget.
  rewrite execute_body_unfold.
  destruct chain_start as (before & after & Hstart & _).
  pose proof Hchain as (Hn & _).
  rewrite (Permutation_length Hn). cbn [length].
  destruct (findStartNodes workflow) as [|n0 ns] eqn:Es;
    [now destruct before|].
  rewrite Hrun. cbn [bind]. rewrite chain_end. cbn [last].
  now rewrite Hout, Hid', Hres.
Qed.

End Chain.



End TraversalClaims.


(* ===================================================================== *)
(** ** Once-only execution and the error policy: the properties          *)
(* ===================================================================== *)

Module PolicyClaims.
Import Js Types Engine Spec JsFacts EngineFacts Examples.

Lemma history_ok_suffix workflow newer older :
  history_ok workflow (newer ++ older)%list -> history_ok workflow older.
Proof.
  induction newer as [|[id given st|id] newer IH]; simpl; [auto|tauto|tauto].
Qed.

Lemma history_ok_NoDup workflow h :
  history_ok workflow h ->
  List.NoDup (recorded_ids h) /\ List.NoDup (invoked_ids h).
Proof.
  induction h as [|[id given st|id] h IH]; simpl.
  - intros _. split; constructor.
  - intros (Hi & _ & _ & Hok). destruct (IH Hok). split; [assumption|].
    now constructor.
  - intros (Hr & Hok). destruct (IH Hok). split; [|assumption].
    now constructor.
Qed.

Lemma result_ids workflow s :
  Base workflow s ->
  List.map nodeId (List.map snd (nodeResults s)) = rev (recorded_ids (history s)).
Proof.
  intros HB. rewrite <- (b_keys _ _ HB), List.map_map.
  apply map_ext_in. intros kv Hkv.
  pose proof (b_ids _ _ HB) as Hids. rewrite List.Forall_forall in Hids.
  now apply Hids.
Qed.

Lemma results_of_state workflow s x :
  In x (List.map snd (nodeResults s)) ->
  Base workflow s -> In (nodeId x, x) (nodeResults s).
Proof.
  intros Hin HB. apply in_map_iff in Hin as ([k y] & <- & Hin). simpl.
  pose proof (b_ids _ _ HB) as Hids. rewrite List.Forall_forall in Hids.
  specialize (Hids _ Hin). simpl in Hids. now rewrite Hids.
Qed.

Section Claims.
Context {rt : Runtime}.
Variable getHandler : NodeType -> option NodeHandler.
Variable workflow : WorkflowDefinition.

(** C2.  In every execution a node id enters [executedNodes] at most
    once, the set is exactly what was recorded, and a node has a single
    recorded output and a single result.  A handler is called at most
    once per node, and only at a moment when every edge targeting the node
    starts at a node recorded earlier.  An attempt on a node with an
    unexecuted source, like an attempt on a node already executed, returns
    with the state unchanged. *)
Theorem executed_at_most_once
  (inp : any) (userId : option string) (mode : Mode) (uuid : string) :
  exists r s',
    execute getHandler workflow (new_engine workflow inp userId mode uuid)
    = Some (r, s') /\
    List.NoDup (recorded_ids (history s')) /\
    executedNodes s' = list_to_set (recorded_ids (history s')) /\
    List.NoDup (List.map nodeId (results r)) /\
    List.NoDup (invoked_ids (history s')) /\
    (forall id given out,
        In (Invoked id given (Resolved out)) (history s') ->
        nodeOutputs (context s') !! id = Some out) /\
    (forall newer id given settled older,
        history s' = (newer ++ Invoked id given settled :: older)%list ->
        ~ In id (invoked_ids older) /\
        ~ In id (recorded_ids older) /\
        forall edge, In edge (edges workflow) -> target edge = id ->
                     In (source edge) (recorded_ids older)) /\
    (forall fuel node s edge,
        In edge (edges workflow) -> target edge = node_id node ->
        source edge ∉ executedNodes s ->
        executeNode getHandler workflow (S fuel) node s = Return tt s) /\
    (forall fuel node s,
        node_id node ∈ executedNodes s ->
        executeNode getHandler workflow (S fuel) node s = Return tt s).
Proof.
  pose proof (blank_new_engine workflow inp userId mode uuid) as Hb.
  destruct (execute_total getHandler workflow _ Hb) as (r & s' & Hex).
  exists r, s'. split; [exact Hex|].
  pose proof (execute_with_sat getHandler workflow (budget workflow) _ Hb) as Hsat.
  fold (execute getHandler workflow (new_engine workflow inp userId mode uuid)) in Hsat.
  rewrite Hex in Hsat. destruct Hsat as (HB & Hres & _).
  destruct (history_ok_NoDup _ _ (b_history _ _ HB)) as [Hnr Hni].
  split; [exact Hnr|].
  split; [apply HB|].
  split.
  { rewrite Hres, (result_ids _ _ HB). apply NoDup_rev, Hnr. }
  split; [exact Hni|].
  split; [intros id given out Hin; now apply (b_outputs _ _ HB) in Hin|].
  split.
  { intros newer id given settled older Hh.
    pose proof (b_history _ _ HB) as Hok. rewrite Hh in Hok.
    apply history_ok_suffix in Hok. simpl in Hok. tauto. }
  split; [apply executeNode_deferred|apply executeNode_done].
Qed.

(** C1, on the code.  Unless the policy is [continue], a handler that
    rejects ends the run at once: the status is failed, the rejected call
    is the last event, every result on record is a success, and the
    failing node itself has no result, although the claim counts it in.
    Under [continue], with a start node and patterns that compile, the
    status is success and every rejected call has its error result on
    record.  On the chain A -> B -> C where B fails: under [stop] the
    results are A's alone; under [continue] they are A's, B's error and
    C's, C having run on the empty object. *)
Theorem error_policy
  (inp : any) (userId : option string) (mode : Mode) (uuid : string) :
  (exists r s',
    execute getHandler workflow (new_engine workflow inp userId mode uuid)
    = Some (r, s') /\
    (stops_on_error workflow = true ->
     forall id given msg,
       In (Invoked id given (Rejected msg)) (history s') ->
       result_status r = run_failed /\
       (exists older, history s' = Invoked id given (Rejected msg) :: older) /\
       forall x, In x (results r) -> status x = success /\ nodeId x <> id) /\
    (stops_on_error workflow = false ->
     findStartNodes workflow <> [] -> patterns_compile workflow ->
     result_status r = run_success /\
     forall id given msg,
       In (Invoked id given (Rejected msg)) (history s') ->
       In (error_result id msg) (results r))) /\
  option_map (fun r => (result_status r, results r, result_error r))
    (executeWorkflow (rt := literal_runtime) registry (failing_chain (Some stop))
       (Obj [("x", Num 1)]) None manual "run-1")
  = Some (run_failed, [success_result "A" (Obj [("x", Num 1)])], Some "boom") /\
  option_map (fun r => (result_status r, results r, result_error r))
    (executeWorkflow (rt := literal_runtime) registry (failing_chain (Some continue))
       (Obj [("x", Num 1)]) None manual "run-1")
  = Some (run_success,
          [success_result "A" (Obj [("x", Num 1)]); error_result "B" "boom";
           success_result "C" (Obj [])],
          None).
Proof.
  split; [|split; vm_compute; reflexivity].
  pose proof (blank_new_engine workflow inp userId mode uuid) as Hb.
  destruct (execute_total getHandler workflow _ Hb) as (r & s' & Hex).
  exists r, s'. split; [exact Hex|].
  pose proof (execute_with_sat getHandler workflow (budget workflow) _ Hb) as Hsat.
  fold (execute getHandler workflow (new_engine workflow inp userId mode uuid)) in Hsat.
  rewrite Hex in Hsat. destruct Hsat as (HB & Hres & Hok & _).
  split.
  - intros Hstop id given msg Hin.
    split.
    { destruct (result_status r); [|reflexivity].
      destruct (Hok eq_refl) as (HI & _).
      destruct (inv_stop_clean _ _ HI _ _ _ Hstop Hin). }
    destruct (b_stop_rejected _ _ HB _ _ _ Hstop Hin) as [Hnrec Hhead].
    split; [exact Hhead|].
    intros x Hx. rewrite Hres in Hx.
    pose proof (results_of_state _ _ _ Hx HB) as Hkx.
    split.
    + pose proof (b_stop_success _ _ HB Hstop) as Hall.
      rewrite List.Forall_forall in Hall. exact (Hall _ Hkx).
    + intros Heq. apply Hnrec, in_rev. rewrite <- (b_keys _ _ HB), <- Heq.
      apply in_map_iff. exists (nodeId x, x). auto.
  - intros Hcont Hstart Hpat.
    split; [exact (execute_continue getHandler workflow _ _ _ Hcont Hpat Hstart Hex)|].
    intros id given msg Hin. rewrite Hres.
    apply in_map_iff. exists (id, error_result id msg).
    split; [reflexivity|]. exact (b_continue_rejected _ _ HB _ _ _ Hcont Hin).
Qed.

End Claims.
End PolicyClaims.

(* ===================================================================== *)
(** ** Scheduler and job queue: the properties                           *)
(* ===================================================================== *)

Module ServiceClaims.
Import Js Types Spec EngineFacts Examples.

Lemma executeWorkflow_total {rt : Runtime}
  (getHandler : NodeType -> option NodeHandler) workflow inp userId mode uuid :
  exists r, Engine.executeWorkflow getHandler workflow inp userId mode uuid = Some r.
Proof.
  unfold Engine.executeWorkflow.
  destruct (execute_total getHandler workflow _
              (blank_new_engine workflow inp userId mode uuid)) as (r & s' & ->).
  now exists r.
Qed.

(** C7.  In direct mode, for a registered workflow, enqueue runs the
    engine to its end and only then returns the execution id, the service
    being as it was; getJobStatus answers null, the queue being
    unavailable, whatever the job id.  With a queue, enqueue hands the job
    over without running it and returns the execution id as well. *)
Theorem direct_mode_enqueue {rt : Runtime}
  (getHandler : NodeType -> option NodeHandler)
  (svc : JobQueue.Service) (workflow : WorkflowDefinition)
  (workflowId : string) (inp : any) (options : JobQueue.EnqueueOptions)
  (uuid_job uuid_exec uuid_engine : string) :
  JobQueue.queue svc = None ->
  JobQueue.workflowStore svc !! workflowId = Some workflow ->
  (exists r,
      Engine.executeWorkflow getHandler workflow inp
        (JobQueue.opt_userId options)
        (default manual (JobQueue.opt_mode options)) uuid_engine = Some r /\
      JobQueue.enqueue getHandler uuid_job uuid_exec uuid_engine
        workflowId inp options svc
      = JobQueue.Enqueued ("exec_" +:+ uuid_exec) (Some r) svc) /\
  (forall jobId, JobQueue.getJobStatus jobId svc = None) /\
  (forall durable q,
      JobQueue.queue durable = Some q ->
      exists durable',
        JobQueue.enqueue getHandler uuid_job uuid_exec uuid_engine
          workflowId inp options durable
        = JobQueue.Enqueued ("exec_" +:+ uuid_exec) None durable' /\
        exists q', JobQueue.queue durable' = Some (q ++ [q'])%list /\
                   job_workflowId (JobQueue.payload q') = workflowId).
Proof.
  intros Hq Hw. split; [|split].
  - destruct (executeWorkflow_total getHandler workflow inp
                (JobQueue.opt_userId options)
                (default manual (JobQueue.opt_mode options)) uuid_engine)
      as [r Hr].
    exists r. split; [exact Hr|].
    unfold JobQueue.enqueue, JobQueue.executeDirect. rewrite Hq. cbn.
    rewrite Hw. cbn. now rewrite Hr.
  - intros jobId. unfold JobQueue.getJobStatus. now rewrite Hq.
  - intros durable q Hd. unfold JobQueue.enqueue. rewrite Hd.
    eexists. split; [reflexivity|]. cbn. unfold JobQueue.queue_add.
    eexists. split; reflexivity.
Qed.

Lemma direct_mode_enqueue_witness :
  exists r,
    JobQueue.enqueue (rt := literal_runtime) registry "j" "e" "u"
      "wf-3" (Obj []) JobQueue.no_options direct_service
    = JobQueue.Enqueued "exec_e" (Some r) direct_service /\
    JobQueue.getJobStatus "job_j" direct_service = None.
Proof.
  destruct (direct_mode_enqueue (rt := literal_runtime) registry direct_service
              chain "wf-3" (Obj []) JobQueue.no_options "j" "e" "u"
              eq_refl (lookup_insert_eq _ _ _))
    as ((r & _ & Hr) & Hs & _).
  exists r. split; [exact Hr|apply Hs].
Defined.



End ServiceClaims.

(* ===================================================================== *)
(** ** Further properties of the execution engine                        *)
(* ===================================================================== *)

Module EngineExtras.
Import Js Types Engine Spec SpecExtra JsFacts ConditionFacts EngineFacts
       Examples ExamplesExtra.

Section Rules.
Context {rt : Runtime}.
Variable getHandler : NodeType -> option NodeHandler.
Variable workflow : WorkflowDefinition.

(** The rule of executeNode for a property of the state: it is enough
    that the property survives the recording of a node that was ready, and
    gives the property of the throw when the policy stops the run. *)
Lemma executeNode_rule (P PT : State -> Prop) :
  (forall s, P s -> PT s) ->
  (forall node s s1 res r,
      In node (nodes workflow) -> P s ->
      node_id node ∉ executedNodes s ->
      forallb (fun edge => bool_decide (source edge ∈ executedNodes s))
              (getIncomingEdges workflow (node_id node)) = true ->
      run_handler getHandler workflow node s = (s1, res) ->
      settles workflow (node_id node) res r ->
      P (record_result (node_id node) r s1)) ->
  (forall node s s1 msg,
      In node (nodes workflow) -> P s ->
      node_id node ∉ executedNodes s ->
      forallb (fun edge => bool_decide (source edge ∈ executedNodes s))
              (getIncomingEdges workflow (node_id node)) = true ->
      run_handler getHandler workflow node s = (s1, inl msg) ->
      stops_on_error workflow = true ->
      PT s1) ->
  forall fuel node s,
    In node (nodes workflow) -> P s ->
    sat (fun _ => P) (fun _ => PT) True
        (executeNode getHandler workflow fuel node s).
Proof.
  intros Hweak Hrecord Hthrow.
  induction fuel as [|fuel IH]; intros node s Hnode HP; [exact I|].
  simpl.
  destruct (bool_decide _) eqn:Edone; [exact HP|].
  apply bool_decide_eq_false_1 in Edone.
  destruct (forallb _ _) eqn:Edeps; simpl; [|exact HP].
  destruct (run_handler getHandler workflow node s) as [s1 res] eqn:Erun.
  assert (Hloop : forall r,
    settles workflow (node_id node) res r ->
    sat (fun _ => P) (fun _ => PT) True
        (for_each (follow_edge workflow (executeNode getHandler workflow fuel) (data r))
                  (getOutgoingEdges workflow (node_id node))
                  (record_result (node_id node) r s1))).
  { intros r Hr. apply for_each_sat.
    - exact (Hrecord node s s1 res r Hnode HP Edone Edeps Erun Hr).
    - intros edge s' _ HP'. apply follow_edge_sat; auto. }
  destruct res as [msg|result].
  - destruct (stops_on_error workflow) eqn:Estop.
    + simpl. exact (Hthrow node s s1 msg Hnode HP Edone Edeps Erun eq_refl).
    + apply (Hloop (error_result (node_id node) msg)). simpl. auto.
  - apply Hloop. reflexivity.
Qed.

(** The same for execute, from the state the traversal starts in. *)
Lemma execute_rule (P PT : State -> Prop) :
  (forall s, P s -> PT s) ->
  (forall node s s1 res r,
      In node (nodes workflow) -> P s ->
      node_id node ∉ executedNodes s ->
      forallb (fun edge => bool_decide (source edge ∈ executedNodes s))
              (getIncomingEdges workflow (node_id node)) = true ->
      run_handler getHandler workflow node s = (s1, res) ->
      settles workflow (node_id node) res r ->
      P (record_result (node_id node) r s1)) ->
  (forall node s s1 msg,
      In node (nodes workflow) -> P s ->
      node_id node ∉ executedNodes s ->
      forallb (fun edge => bool_decide (source edge ∈ executedNodes s))
              (getIncomingEdges workflow (node_id node)) = true ->
      run_handler getHandler workflow node s = (s1, inl msg) ->
      stops_on_error workflow = true ->
      PT s1) ->
  forall s r s',
    P (seeded workflow s) -> (findStartNodes workflow = [] -> PT s) ->
    execute getHandler workflow s = Some (r, s') ->
    PT s' /\ (result_status r = run_success -> P s').
Proof.
  intros Hweak Hrecord Hthrow s r s' HP HPT.
  unfold execute, execute_with. rewrite execute_body_unfold.
  destruct (findStartNodes workflow) as [|n0 ns] eqn:Es.
  - intros [= <- <-]. split; [now apply HPT|discriminate].
  - rewrite <- Es.
    assert (Hrun : sat (fun _ => P) (fun _ => PT) True
              (for_each (executeNode getHandler workflow (budget workflow))
                        (findStartNodes workflow) (seeded workflow s))).
    { apply for_each_sat; [exact HP|].
      intros n s'' Hn HP''. apply executeNode_rule; auto.
      now apply findStartNodes_incl. }
    destruct (for_each _ _ _) as [[] s2|msg s2|]; simpl in *.
    + intros [= <- <-]. split; [now apply Hweak|auto].
    + intros [= <- <-]. split; [exact Hrun|discriminate].
    + discriminate.
Qed.

(** What the [try] block leaves alone. *)
Lemma run_handler_frame node s s1 res :
  run_handler getHandler workflow node s = (s1, res) ->
  executionId (context s1) = executionId (context s) /\
  input (context s1) = input (context s) /\
  recorded_ids (history s1) = recorded_ids (history s) /\
  (forall id, id <> node_id node ->
              nodeOutputs (context s1) !! id = nodeOutputs (context s) !! id) /\
  (forall msg, res = inl msg -> context s1 = context s) /\
  (history s1 = history s \/
   exists settled,
     history s1
     = Invoked (node_id node)
         (gatherNodeInput workflow (context s) (node_id node)) settled
       :: history s).
Proof.
  unfold run_handler. destruct (getHandler (type node)) as [h|].
  - destruct (h node _ (context s)) as [out|msg]; intros [= <- <-]; simpl;
      repeat split; eauto; try discriminate.
    intros id Hne. now rewrite lookup_insert_ne.
  - intros [= <- <-]. repeat split; auto.
Qed.

Lemma gatherNodeInput_truthy c nodeId :
  truthy (gatherNodeInput workflow c nodeId) = true.
Proof.
  unfold gatherNodeInput.
  destruct (getIncomingEdges workflow nodeId) as [|e1 [|e2 rest]];
    try reflexivity; unfold or_else;
    match goal with |- context [truthy ?v] => now destruct (truthy v) eqn:E end.
Qed.

Lemma Kept_start s0 : history s0 = [] -> Kept workflow s0 s0.
Proof.
  intros Hh. split; rewrite ?Hh; simpl; try tauto; auto.
Qed.

(** Every execution keeps [Kept] along with the bookkeeping. *)
Lemma execute_keeps inp userId mode uuid :
  exists r s',
    execute getHandler workflow (new_engine workflow inp userId mode uuid)
    = Some (r, s') /\
    Base workflow s' /\
    Kept workflow (seeded workflow (new_engine workflow inp userId mode uuid)) s' /\
    results r = List.map snd (nodeResults s') /\
    result_executionId r = executionId (context s').
Proof.
  set (s0 := new_engine workflow inp userId mode uuid).
  pose proof (blank_new_engine workflow inp userId mode uuid) as Hb.
  fold s0 in Hb.
  destruct (execute_total getHandler workflow s0 Hb) as (r & s' & Hex).
  exists r, s'. split; [exact Hex|].
  pose proof (seeded_blank workflow s0 Hb) as Hsb.
  set (z := seeded workflow s0) in *.
  set (P := fun s => Inv workflow s /\ Kept workflow z s).
  set (PT := fun s => Base workflow s /\
                      (Kept workflow z s \/
                       (findStartNodes workflow = [] /\ s = s0))).
  assert (H1 : forall s, P s -> PT s).
  { intros s [HI HK]. split; [now apply Inv_Base|now left]. }
  assert (H2 : forall node s s1 res r0,
      In node (nodes workflow) -> P s ->
      node_id node ∉ executedNodes s ->
      forallb (fun edge => bool_decide (source edge ∈ executedNodes s))
              (getIncomingEdges workflow (node_id node)) = true ->
      run_handler getHandler workflow node s = (s1, res) ->
      settles workflow (node_id node) res r0 ->
      P (record_result (node_id node) r0 s1)).
  { intros node s s1 res r0 Hnode [HI HK] Hfresh Hdeps Hrun Hr.
    split; [eapply record_step; eassumption|].
    destruct (run_handler_cases getHandler workflow node s s1 res Hrun) as (He & _ & _).
    destruct (run_handler_frame node s s1 res Hrun)
      as (Hid & Hin & Hrec & Hout & _ & Hhist).
    destruct HK as [Ko Kn Ki Kinp Kout Kg].
    split; simpl.
    + rewrite Hrec. split; [|exact Ko].
      apply (dependencies_met workflow s _ (Inv_Base workflow s HI) Hdeps).
    + rewrite Hrec. intros id [<-|Hid']; eauto.
    + congruence.
    + congruence.
    + intros id Hid'. rewrite He in Hid'.
      rewrite Hout by set_solver. apply Kout. set_solver.
    + intros id given settled [Hd|Hd]; [discriminate|].
      destruct Hhist as [Hh|[st Hh]]; rewrite Hh in Hd; [eauto|].
      destruct Hd as [Hd|Hd]; [|eauto].
      injection Hd as <- <- <-. apply gatherNodeInput_truthy. }
  assert (H3 : forall node s s1 msg,
      In node (nodes workflow) -> P s ->
      node_id node ∉ executedNodes s ->
      forallb (fun edge => bool_decide (source edge ∈ executedNodes s))
              (getIncomingEdges workflow (node_id node)) = true ->
      run_handler getHandler workflow node s = (s1, inl msg) ->
      stops_on_error workflow = true ->
      PT s1).
  { intros node s s1 msg Hnode [HI HK] Hfresh Hdeps Hrun Hstop.
    split; [eapply throw_step; eassumption|]. left.
    destruct (run_handler_cases getHandler workflow node s s1 _ Hrun) as (He & _ & _).
    destruct (run_handler_frame node s s1 _ Hrun)
      as (Hid & Hin & Hrec & Hout & Hctx & Hhist).
    destruct HK as [Ko Kn Ki Kinp Kout Kg].
    split; rewrite ?Hrec, ?He, ?(Hctx msg eq_refl); auto.
    intros id given settled Hd.
    destruct Hhist as [Hh|[st Hh]]; rewrite Hh in Hd; [eauto|].
    destruct Hd as [Hd|Hd]; [|eauto].
    injection Hd as <- <- <-. apply gatherNodeInput_truthy. }
  assert (HPz : P z).
  { split; [now apply blank_Inv|]. apply Kept_start. apply Hsb. }
  assert (HPT0 : findStartNodes workflow = [] -> PT s0).
  { intros Hnone. split; [apply Inv_Base, blank_Inv, Hb|now right]. }
  destruct (execute_rule P PT H1 H2 H3 s0 r s' HPz HPT0 Hex) as [[HB HK] _].
  split; [exact HB|].
  split.
  { destruct HK as [HK|[Hnone ->]]; [exact HK|].
    unfold z, seeded. rewrite Hnone. unfold seed_outputs. simpl.
    destruct (truthy _); apply Kept_start; reflexivity. }
  pose proof (execute_with_sat getHandler workflow (budget workflow) s0 Hb) as Hsat.
  fold (execute getHandler workflow s0) in Hsat. rewrite Hex in Hsat.
  destruct Hsat as (_ & Hres & _).
  split; [exact Hres|].
  revert Hex. unfold execute, execute_with.
  destruct (execute_body _ _ _ _) as [o s2|m s2|]; intros [= <- <-]; reflexivity.
Qed.

Lemma sources_first_split newer id older :
  sources_first workflow (newer ++ id :: older)%list ->
  forall edge, In edge (edges workflow) -> target edge = id ->
               In (source edge) older.
Proof.
  induction newer as [|x newer IH]; simpl; intros [H1 H2]; auto.
Qed.

Lemma sources_first_starved S ids :
  sources_first workflow ids -> starved workflow S ->
  forall id, In id ids -> ~ S id.
Proof.
  intros Hs Hst. induction ids as [|x ids IH]; simpl; [tauto|].
  destruct Hs as [Hx Hrest]. intros id [<-|Hin] HS; [|exact (IH Hrest id Hin HS)].
  destruct (Hst x HS) as (edge & He & Ht & Hsrc).
  exact (IH Hrest _ (Hx edge He Ht) Hsrc).
Qed.

Lemma recorded_ids_app h1 h2 :
  recorded_ids (h1 ++ h2)%list = (recorded_ids h1 ++ recorded_ids h2)%list.
Proof.
  induction h1 as [|[id g st|id] h1 IH]; simpl; [reflexivity|exact IH|].
  now rewrite IH.
Qed.

(** X1.  The results of an execution are in dependency order: the result
    of a node comes after the results of the sources of all the edges that
    target it. *)
Theorem results_in_dependency_order
  (inp : any) (userId : option string) (mode : Mode) (uuid : string) :
  exists r s',
    execute getHandler workflow (new_engine workflow inp userId mode uuid)
    = Some (r, s') /\
    forall before x after,
      results r = (before ++ x :: after)%list ->
      forall edge, In edge (edges workflow) -> target edge = nodeId x ->
        exists y, In y before /\ nodeId y = source edge.
Proof.
  destruct (execute_keeps inp userId mode uuid)
    as (r & s' & Hex & HB & HK & Hres & _).
  exists r, s'. split; [exact Hex|].
  intros before x after Hsplit edge He Ht.
  pose proof (PolicyClaims.result_ids workflow s' HB) as Hids.
  rewrite <- Hres, Hsplit, List.map_app in Hids. simpl in Hids.
  apply (f_equal (@rev string)) in Hids.
  rewrite rev_involutive, rev_app_distr in Hids. simpl in Hids.
  rewrite <- app_assoc in Hids. simpl in Hids.
  pose proof (k_order _ _ _ HK) as Ho. rewrite <- Hids in Ho.
  apply (sources_first_split _ _ _ Ho edge He) in Ht.
  apply in_rev, in_map_iff in Ht as (y & Hy & Hin). eauto.
Qed.

(** X2.  Nodes that wait for one another never run: when every node of a
    set is the target of an edge from a node of the set, as on a cycle, the
    execution still comes to an end, no handler is called for a node of the
    set and none has a result. *)
Theorem starved_nodes_never_run (S : string -> Prop)
  (inp : any) (userId : option string) (mode : Mode) (uuid : string) :
  starved workflow S ->
  exists r s',
    execute getHandler workflow (new_engine workflow inp userId mode uuid)
    = Some (r, s') /\
    (forall x, In x (results r) -> ~ S (nodeId x)) /\
    (forall id, S id -> id ∉ executedNodes s') /\
    (forall id given settled,
        In (Invoked id given settled) (history s') -> ~ S id).
Proof.
  intros Hst.
  destruct (execute_keeps inp userId mode uuid)
    as (r & s' & Hex & HB & HK & Hres & _).
  exists r, s'. split; [exact Hex|].
  pose proof (sources_first_starved S _ (k_order _ _ _ HK) Hst) as Hnot.
  split; [|split].
  - intros x Hx. apply Hnot.
    apply in_rev. rewrite <- (PolicyClaims.result_ids workflow s' HB), <- Hres.
    now apply in_map.
  - intros id HS Hin. apply (executed_recorded workflow s' id HB) in Hin.
    exact (Hnot id Hin HS).
  - intros id given settled Hin HS.
    destruct (in_split _ _ Hin) as (newer & older & Hh).
    pose proof (b_history _ _ HB) as Hok. rewrite Hh in Hok.
    apply PolicyClaims.history_ok_suffix in Hok. simpl in Hok.
    destruct Hok as (_ & _ & Hdeps & _).
    destruct (Hst id HS) as (edge & He & Ht & Hsrc).
    apply (Hnot (source edge)); [|exact Hsrc].
    rewrite Hh, recorded_ids_app. apply in_or_app. right. simpl.
    exact (Hdeps edge He Ht).
Qed.

(** X3.  Every result belongs to a node of the workflow, no node id has
    two results, and so there are never more results than nodes. *)
Theorem results_within_nodes
  (inp : any) (userId : option string) (mode : Mode) (uuid : string) :
  exists r s',
    execute getHandler workflow (new_engine workflow inp userId mode uuid)
    = Some (r, s') /\
    (forall x, In x (results r) ->
               exists n, In n (nodes workflow) /\ node_id n = nodeId x) /\
    List.NoDup (List.map nodeId (results r)) /\
    (length (results r) <= length (nodes workflow))%nat.
Proof.
  destruct (execute_keeps inp userId mode uuid)
    as (r & s' & Hex & HB & HK & Hres & _).
  exists r, s'. split; [exact Hex|].
  pose proof (PolicyClaims.result_ids workflow s' HB) as Hids.
  rewrite <- Hres in Hids.
  assert (Hin : forall x, In x (results r) ->
                  exists n, In n (nodes workflow) /\ node_id n = nodeId x).
  { intros x Hx. apply (k_nodes _ _ _ HK). apply in_rev. rewrite <- Hids.
    now apply in_map. }
  assert (Hnd : List.NoDup (List.map nodeId (results r))).
  { rewrite Hids. apply NoDup_rev.
    apply (PolicyClaims.history_ok_NoDup _ _ (b_history _ _ HB)). }
  split; [exact Hin|]. split; [exact Hnd|].
  rewrite <- (length_map nodeId (results r)), <- (length_map node_id (nodes workflow)).
  apply NoDup_incl_length; [exact Hnd|].
  intros id Hid. apply in_map_iff in Hid as (x & <- & Hx).
  destruct (Hin x Hx) as (n & Hn & <-). now apply in_map.
Qed.

(** X4.  A handler is never handed a falsy input: what gatherNodeInput
    gives is truthy, hence neither null nor undefined, and with two or more
    incoming edges it is a plain object; every handler call of every
    execution received such an input. *)
Theorem handlers_get_truthy_input
  (inp : any) (userId : option string) (mode : Mode) (uuid : string) :
  (forall c nodeId,
      truthy (gatherNodeInput workflow c nodeId) = true /\
      nullish (gatherNodeInput workflow c nodeId) = false /\
      ((2 <= length (getIncomingEdges workflow nodeId))%nat ->
       exists props, gatherNodeInput workflow c nodeId = Obj props)) /\
  exists r s',
    execute getHandler workflow (new_engine workflow inp userId mode uuid)
    = Some (r, s') /\
    forall id given settled,
      In (Invoked id given settled) (history s') ->
      truthy given = true /\ nullish given = false.
Proof.
  assert (Hn : forall v, truthy v = true -> nullish v = false)
    by (intros []; simpl; congruence).
  split.
  - intros c nodeId. pose proof (gatherNodeInput_truthy c nodeId) as Ht.
    split; [exact Ht|]. split; [now apply Hn|].
    unfold gatherNodeInput.
    destruct (getIncomingEdges workflow nodeId) as [|e1 [|e2 rest]]; simpl;
      [lia|lia|eauto].
  - destruct (execute_keeps inp userId mode uuid)
      as (r & s' & Hex & HB & HK & _).
    exists r, s'. split; [exact Hex|].
    intros id given settled Hin.
    pose proof (k_given _ _ _ HK _ _ _ Hin) as Ht. auto.
Qed.

Lemma seed_outputs_lookup ns s id :
  nodeOutputs (context (seed_outputs ns s)) !! id
  = if existsb (String.eqb id) (node_ids ns)
    then Some (input (context s))
    else nodeOutputs (context s) !! id.
Proof.
  unfold seed_outputs. revert s.
  induction ns as [|n ns IH]; intros s; simpl; [reflexivity|].
  rewrite IH. simpl.
  destruct (existsb (String.eqb id) (node_ids ns)).
  - now rewrite orb_true_r.
  - rewrite orb_false_r. destruct (String.eqb id (node_id n)) eqn:E.
    + apply String.eqb_eq in E. subst. apply lookup_insert_eq.
    + apply String.eqb_neq in E. now rewrite lookup_insert_ne.
Qed.

(** X5.  A node that did not execute has no recorded output, except a
    start node, which keeps the execution input it was seeded with when
    that input is truthy.  So a successful run whose last end node did not
    execute puts out undefined, or the bare input if that node is a start
    node. *)
Theorem unexecuted_nodes_keep_the_seed
  (inp : any) (userId : option string) (mode : Mode) (uuid : string) :
  exists r s',
    execute getHandler workflow (new_engine workflow inp userId mode uuid)
    = Some (r, s') /\
    (forall id, id ∉ executedNodes s' ->
       nodeOutputs (context s') !! id
       = if truthy inp && existsb (String.eqb id) (node_ids (findStartNodes workflow))
         then Some inp else None) /\
    (forall n,
       result_status r = run_success ->
       last (findEndNodes workflow) = Some n ->
       node_id n ∉ executedNodes s' ->
       output r
       = if truthy inp
            && existsb (String.eqb (node_id n)) (node_ids (findStartNodes workflow))
         then inp else Undefined).
Proof.
  destruct (execute_keeps inp userId mode uuid)
    as (r & s' & Hex & HB & HK & Hres & _).
  exists r, s'. split; [exact Hex|].
  assert (Hlook : forall id, id ∉ executedNodes s' ->
     nodeOutputs (context s') !! id
     = if truthy inp && existsb (String.eqb id) (node_ids (findStartNodes workflow))
       then Some inp else None).
  { intros id Hid. rewrite (k_outputs _ _ _ HK id Hid).
    unfold seeded. simpl. destruct (truthy inp); simpl; [|reflexivity].
    rewrite seed_outputs_lookup. simpl.
    now destruct (existsb _ _). }
  split; [exact Hlook|].
  intros n Hok Hlast Hn.
  pose proof (execute_with_sat getHandler workflow (budget workflow) _
                (blank_new_engine workflow inp userId mode uuid)) as Hsat.
  fold (execute getHandler workflow (new_engine workflow inp userId mode uuid)) in Hsat.
  rewrite Hex in Hsat. destruct Hsat as (_ & _ & Hs & _).
  destruct (Hs Hok) as (_ & _ & _ & ->). rewrite Hlast.
  unfold output_of. rewrite (Hlook _ Hn).
  now destruct (truthy inp && _).
Qed.

Section NoEdges.
Hypothesis Hnone : edges workflow = [].
Hypothesis Hcont : stops_on_error workflow = false.

Lemma no_edges_step fuel n s :
  node_id n ∉ executedNodes s ->
  exists r s1 res,
    run_handler getHandler workflow n s = (s1, res) /\
    settles workflow (node_id n) res r /\
    executeNode getHandler workflow (S fuel) n s
    = Return tt (record_result (node_id n) r s1).
Proof.
  intros Hfresh. simpl. rewrite bool_decide_eq_false_2 by exact Hfresh.
  unfold getIncomingEdges, getOutgoingEdges. rewrite Hnone. simpl.
  destruct (run_handler getHandler workflow n s) as [s1 [msg|result]] eqn:Erun.
  - rewrite Hcont. exists (error_result (node_id n) msg), s1, (inl msg).
    simpl. auto.
  - exists result, s1, (inr result). simpl. auto.
Qed.

Lemma no_edges_run fuel ns : forall s,
  (forall n, In n ns -> node_id n ∉ executedNodes s) ->
  (forall k, In k (List.map fst (nodeResults s)) -> k ∈ executedNodes s) ->
  List.NoDup (node_ids ns) ->
  exists s',
    for_each (executeNode getHandler workflow (S fuel)) ns s = Return tt s' /\
    List.map fst (nodeResults s')
    = (List.map fst (nodeResults s) ++ node_ids ns)%list /\
    (forall id given settled,
        In (Invoked id given settled) (history s') ->
        In (Invoked id given settled) (history s) \/
        given = or_else (input (context s)) (Obj [])).
Proof.
  induction ns as [|n ns IH]; intros s Hfresh Hkeys Hnd.
  - exists s. simpl. rewrite app_nil_r. auto.
  - cbn [for_each].
    destruct (no_edges_step fuel n s (Hfresh n (or_introl eq_refl)))
      as (r & s1 & res & Hrun & Hr & ->).
    cbn [bind].
    destruct (run_handler_cases getHandler workflow n s s1 res Hrun) as (He & Hres & _).
    destruct (run_handler_frame n s s1 res Hrun)
      as (_ & Hin & _ & _ & _ & Hhist).
    inversion Hnd as [|? ? Hn Hnd']; subst.
    assert (Hset : nodeResults (record_result (node_id n) r s1)
                   = (nodeResults s ++ [(node_id n, r)])%list).
    { simpl. rewrite Hres. apply map_set_fresh.
      intros Hk. apply (Hfresh n (or_introl eq_refl)), Hkeys, Hk. }
    destruct (IH (record_result (node_id n) r s1)) as (s' & Hrun' & Hkeys' & Hgiven).
    + intros m Hm. simpl. rewrite He.
      assert (node_id m <> node_id n).
      { intros Heq. apply Hn. rewrite <- Heq. now apply in_map. }
      pose proof (Hfresh m (or_intror Hm)). set_solver.
    + intros k Hk. rewrite Hset, List.map_app in Hk. simpl. rewrite He.
      apply in_app_or in Hk as [Hk|[<-|[]]]; [|set_solver].
      apply elem_of_union_r, Hkeys, Hk.
    + exact Hnd'.
    + exists s'. split; [exact Hrun'|]. split.
      * rewrite Hkeys', Hset, List.map_app. simpl. now rewrite <- app_assoc.
      * intros id given settled Hd.
        destruct (Hgiven _ _ _ Hd) as [Hd'|Hd'].
        -- simpl in Hd'. destruct Hd' as [Hd'|Hd']; [discriminate|].
           destruct Hhist as [Hh|[st Hh]]; rewrite Hh in Hd'; [now left|].
           destruct Hd' as [Hd'|Hd']; [|now left].
           injection Hd' as <- <- <-. right.
           unfold gatherNodeInput, getIncomingEdges. now rewrite Hnone.
        -- right. simpl in Hd'. now rewrite Hin in Hd'.
Qed.

End NoEdges.

(** X6.  In a workflow without edges, under the [continue] policy and
    with distinct node ids, every node runs, once and in declaration order,
    whether its handler is missing, resolves or rejects with an error: the
    run succeeds, the results list the nodes in the order they are
    declared, and every handler is handed the execution input when it is
    truthy and the empty object otherwise. *)
Theorem unconnected_nodes_all_run
  (inp : any) (userId : option string) (mode : Mode) (uuid : string) :
  edges workflow = [] ->
  stops_on_error workflow = false ->
  List.NoDup (node_ids (nodes workflow)) ->
  nodes workflow <> [] ->
  exists r s',
    execute getHandler workflow (new_engine workflow inp userId mode uuid)
    = Some (r, s') /\
    result_status r = run_success /\
    List.map nodeId (results r) = node_ids (nodes workflow) /\
    forall id given settled,
      In (Invoked id given settled) (history s') ->
      given = or_else inp (Obj []).
Proof.
  intros Hnone Hcont Hnd Hne.
  set (s0 := new_engine workflow inp userId mode uuid).
  pose proof (blank_new_engine workflow inp userId mode uuid) as Hb. fold s0 in Hb.
  pose proof (seeded_blank workflow s0 Hb) as (Hze & Hzr & Hzh).
  assert (Hstart : findStartNodes workflow = nodes workflow).
  { unfold findStartNodes. rewrite Hnone. simpl.
    apply forallb_filter_id, forallb_forall. intros n _.
    rewrite bool_decide_eq_false_2 by set_solver. reflexivity. }
  assert (Hzi : input (context (seeded workflow s0)) = inp).
  { unfold seeded. destruct (truthy _); [|reflexivity].
    now destruct (seed_outputs_frame (findStartNodes workflow) s0)
      as (_ & _ & _ & -> & _). }
  destruct (no_edges_run Hnone Hcont (length (nodes workflow)) (nodes workflow)
              (seeded workflow s0)) as (s' & Hrun & Hkeys & Hgiven).
  { intros n _. rewrite Hze. set_solver. }
  { rewrite Hzr. intros k []. }
  { exact Hnd. }
  pose proof (execute_with_sat getHandler workflow (budget workflow) s0 Hb) as Hsat.
  revert Hsat. unfold execute, execute_with, budget.
  rewrite execute_body_unfold, Hstart.
  destruct (nodes workflow) as [|n0 ns] eqn:En; [contradiction|].
  rewrite <- En in *. rewrite Hrun. cbn [bind].
  intros (HB & _).
  eexists _, s'. split; [reflexivity|]. cbn.
  split; [reflexivity|]. split.
  - rewrite (PolicyClaims.result_ids workflow s' HB), <- (b_keys _ _ HB), Hkeys, Hzr.
    reflexivity.
  - intros id given settled Hd.
    destruct (Hgiven _ _ _ Hd) as [Hd'|Hd']; [now rewrite Hzh in Hd'|].
    now rewrite Hzi in Hd'.
Qed.

End Rules.

Lemma unconnected_nodes_all_run_witness :
  exists r s',
    execute (rt := literal_runtime) registry unconnected
      (new_engine unconnected (Num 0) None manual "run-3") = Some (r, s') /\
    result_status r = run_success /\
    List.map nodeId (results r) = ["A"; "B"; "C"].
Proof.
  destruct (unconnected_nodes_all_run (rt := literal_runtime) registry unconnected
              (Num 0) None manual "run-3")
    as (r & s' & Hex & Hok & Hids & _).
  - reflexivity.
  - reflexivity.
  - repeat constructor; simpl; intuition discriminate.
  - discriminate.
  - exists r, s'. auto.
Defined.

Lemma length_append s t :
  String.length (s +:+ t) = (String.length s + String.length t)%nat.
Proof. induction s as [|c s IH]; simpl; [reflexivity|now rewrite IH]. Qed.


Section Operators.
Context {rt : Runtime}.

Lemma ltb_asym s t : String.ltb s t = true -> String.ltb t s = false.
Proof.
  unfold String.ltb. rewrite (String.compare_antisym s t).
  now destruct (String.compare t s).
Qed.

Lemma ltb_irrefl s : String.ltb s s = false.
Proof.
  unfold String.ltb. pose proof (String.compare_antisym s s) as H.
  destruct (String.compare s s); [reflexivity|discriminate|reflexivity].
Qed.

Lemma less_than_asym a b :
  less_than a b = Some true -> less_than b a <> Some true.
Proof.
  unfold less_than.
  destruct (to_primitive a) as [| |[]|x|s| | |? ?] eqn:Ea;
    destruct (to_primitive b) as [| |[]|y|t| | |? ?] eqn:Eb; simpl;
    try discriminate;
    repeat match goal with
           | |- context [string_to_number ?u] => destruct (string_to_number u)
           end;
    try discriminate;
    try (intros [= H] [= H']; lia).
  intros [= H] [= H']. rewrite (ltb_asym _ _ H) in H'. discriminate.
Qed.

Lemma less_than_same a b :
  to_primitive a = to_primitive b -> less_than a b <> Some true.
Proof.
  unfold less_than. intros ->.
  destruct (to_primitive b) as [| |[]|y|t| | |? ?]; simpl; try discriminate.
  - intros [= H]. lia.
  - now rewrite ltb_irrefl.
Qed.

Lemma strict_equals_not_less a b :
  strict_equals a b = true -> less_than a b <> Some true.
Proof.
  intros H. apply less_than_same.
  destruct a as [| |[]|x|s| | |f x], b as [| |[]|y|t| | |g y]; simpl in *;
    try discriminate; try reflexivity.
  - apply Z.eqb_eq in H. now subst.
  - apply String.eqb_eq in H. now subst.
  - apply andb_true_iff in H as [_ H]. apply String.eqb_eq in H. now subst.
Qed.

Lemma strict_equals_sym a b : strict_equals a b = strict_equals b a.
Proof.
  destruct a as [| |[]|x|s| | |f x], b as [| |[]|y|t| | |g y]; simpl;
    try reflexivity.
  - apply Z.eqb_sym.
  - apply String.eqb_sym.
  - rewrite (String.eqb_sym x y). now destruct f, g.
Qed.


End Operators.

Lemma starved_nodes_never_run_witness :
  exists r s',
    execute (rt := literal_runtime) registry fed_cycle
      (new_engine fed_cycle (Obj []) None manual "run-2") = Some (r, s') /\
    forall x, In x (results r) -> nodeId x <> "B" /\ nodeId x <> "C".
Proof.
  destruct (starved_nodes_never_run (rt := literal_runtime) registry fed_cycle
              (fun id => id = "B" \/ id = "C") (Obj []) None manual "run-2")
    as (r & s' & Hex & Hres & _).
  - intros id [->| ->].
    + exists (edge "e3" "C" "B" None). simpl. tauto.
    + exists (edge "e2" "B" "C" None). simpl. tauto.
  - exists r, s'. split; [exact Hex|]. intros x Hx. specialize (Hres x Hx).
    tauto.
Defined.

End EngineExtras.

(* ===================================================================== *)
(** ** Further properties of the scheduler                               *)
(* ===================================================================== *)

Module SchedulerExtras.
Import Js Types Spec SpecExtra JsFacts ConditionFacts EngineFacts.
Import Examples ExamplesExtra.
Import Scheduler.

Lemma assoc_job_map_set key job m k :
  assoc_job k (Engine.map_set key job m)
  = if String.eqb key k then Some job else assoc_job k m.
Proof.
  induction m as [|[k' j] m IH]; simpl.
  - reflexivity.
  - destruct (String.eqb k' key) eqn:E; simpl.
    + apply String.eqb_eq in E. subst k'. now destruct (String.eqb key k).
    + rewrite IH. destruct (String.eqb k' k) eqn:E'; [|reflexivity].
      apply String.eqb_eq in E'. subst k'. now rewrite String.eqb_sym, E.
Qed.

Lemma keys_map_set {V} key (v : V) (m : list (string * V)) :
  List.map fst (Engine.map_set key v m)
  = if existsb (String.eqb key) (List.map fst m)
    then List.map fst m else (List.map fst m ++ [key])%list.
Proof.
  induction m as [|[k w] m IH]; simpl; [reflexivity|].
  rewrite (String.eqb_sym key k).
  destruct (String.eqb k key) eqn:E; simpl; [reflexivity|].
  rewrite IH. now destruct (existsb _ _).
Qed.

Lemma In_map_set {V} key (v : V) (m : list (string * V)) kv :
  In kv (Engine.map_set key v m) -> kv = (key, v) \/ In kv m.
Proof.
  induction m as [|[k w] m IH]; simpl.
  - intros [<-|[]]. now left.
  - destruct (String.eqb k key) eqn:E; simpl.
    + apply String.eqb_eq in E. subst k. intros [<-|H]; auto.
    + intros [<-|H]; auto. destruct (IH H); auto.
Qed.

Lemma assoc_job_update jobId f svc k :
  assoc_job k (jobs (update_job jobId f svc))
  = if String.eqb k jobId then option_map f (assoc_job k (jobs svc))
    else assoc_job k (jobs svc).
Proof.
  unfold update_job. simpl. induction (jobs svc) as [|[k' j] m IH]; simpl.
  - now destruct (String.eqb k jobId).
  - destruct (String.eqb k' jobId) eqn:E; simpl; rewrite IH;
      destruct (String.eqb k' k) eqn:E'; try reflexivity.
    + apply String.eqb_eq in E, E'. subst. now rewrite String.eqb_refl.
    + apply String.eqb_eq in E'. subst k'. now rewrite E.
Qed.

Lemma keys_update jobId f svc :
  List.map fst (jobs (update_job jobId f svc)) = List.map fst (jobs svc).
Proof.
  unfold update_job. simpl. induction (jobs svc) as [|[k j] m IH]; simpl;
    [reflexivity|].
  rewrite IH. now destruct (String.eqb k jobId).
Qed.

Lemma assoc_job_remove jobId m k :
  assoc_job k (List.filter (fun kv => negb (String.eqb (fst kv) jobId)) m)
  = if String.eqb k jobId then None else assoc_job k m.
Proof.
  induction m as [|[k' j] m IH]; simpl.
  - now destruct (String.eqb k jobId).
  - destruct (String.eqb k' jobId) eqn:E; simpl; rewrite IH;
      destruct (String.eqb k' k) eqn:E'; try reflexivity.
    + apply String.eqb_eq in E, E'. subst. now rewrite String.eqb_refl.
    + apply String.eqb_eq in E'. subst k'. now rewrite E.
Qed.

Lemma assoc_job_In k m job :
  assoc_job k m = Some job -> In (k, job) m.
Proof.
  induction m as [|[k' j] m IH]; simpl; [discriminate|].
  destruct (String.eqb k' k) eqn:E.
  - apply String.eqb_eq in E. subst. intros [= ->]. now left.
  - auto.
Qed.

Lemma table_ok_update jobId f svc :
  (forall j, id (f j) = id j /\ isActive (f j) = running (task (f j))) ->
  table_ok svc -> table_ok (update_job jobId f svc).
Proof.
  intros Hf [Hnd Hall]. split; [now rewrite keys_update|].
  unfold update_job. simpl. rewrite List.Forall_forall in *.
  intros kv Hin. apply in_map_iff in Hin as ([k j] & <- & Hin).
  specialize (Hall _ Hin). simpl in *.
  destruct (String.eqb k jobId); simpl; [|exact Hall].
  destruct (Hf j) as [-> ->]. tauto.
Qed.

Lemma table_ok_keep jobId f svc :
  (forall j, id (f j) = id j /\ isActive (f j) = isActive j /\ task (f j) = task j) ->
  table_ok svc -> table_ok (update_job jobId f svc).
Proof.
  intros Hf [Hnd Hall]. split; [now rewrite keys_update|].
  unfold update_job. simpl. rewrite List.Forall_forall in *.
  intros kv Hin. apply in_map_iff in Hin as ([k j] & <- & Hin).
  specialize (Hall _ Hin). simpl in *.
  destruct (String.eqb k jobId); simpl; [|exact Hall].
  destruct (Hf j) as (-> & -> & ->). exact Hall.
Qed.

(** X9.  The table of scheduled jobs stays in order under every
    operation of the scheduler: schedule, stop, resume, remove and the
    firing of a timer leave no id twice, every job under its own id, and
    the active flag of every job in step with its timer. *)
Theorem job_table_stays_in_order {rt : Runtime}
  (getHandler : NodeType -> option NodeHandler) (cron_validate : string -> bool)
  (cron_schedule : string -> string -> completion unit)
  (svc : Service) (uuid fired : string) (now finished recomputed : Z)
  (workflowId_ expression jobId : string) (timezone_ : option string) :
  table_ok svc ->
  table_ok (snd (schedule cron_validate cron_schedule uuid now workflowId_
                   expression timezone_ svc)) /\
  table_ok (snd (stop jobId svc)) /\
  table_ok (snd (resume now jobId svc)) /\
  table_ok (snd (remove jobId svc)) /\
  (forall svc' run,
      executeScheduledWorkflow getHandler jobId fired uuid finished recomputed svc
      = Some (svc', run) -> table_ok svc') /\
  table_ok empty_service.
Proof.
  intros Hok. pose proof Hok as [Hnd Hall].
  split.
  { unfold schedule. destruct (negb _); [exact Hok|].
    destruct (cron_schedule _ _); [|exact Hok]. simpl.
    split; simpl.
    - rewrite keys_map_set. destruct (existsb _ _) eqn:E; [exact Hnd|].
      apply List.NoDup_app; [exact Hnd|repeat constructor; simpl; tauto|].
      intros k Hk [Hk'|[]].
      assert (existsb (String.eqb k) (List.map fst (jobs svc)) = true).
      { apply existsb_exists. exists k. split; [exact Hk|apply String.eqb_refl]. }
      congruence.
    - rewrite List.Forall_forall in *. intros kv Hin.
      apply In_map_set in Hin as [->|Hin]; [simpl; auto|now apply Hall]. }
  split.
  { unfold stop. destruct (assoc_job _ _); [|exact Hok]. simpl.
    apply table_ok_update; auto. }
  split.
  { unfold resume. destruct (assoc_job _ _); [|exact Hok]. simpl.
    apply table_ok_update; auto. }
  split.
  { unfold remove. destruct (assoc_job _ _); [|exact Hok]. simpl.
    split; simpl.
    - clear Hall. induction (jobs svc) as [|[k j] m IH]; simpl; [constructor|].
      inversion Hnd as [|? ? Hk Hnd']; subst.
      destruct (String.eqb k jobId); simpl; [auto|].
      constructor; [|auto]. intros Hin. apply Hk.
      apply in_map_iff in Hin as (kv & <- & Hin). apply filter_In in Hin as [Hin _].
      now apply in_map.
    - rewrite List.Forall_forall in *. intros kv Hin.
      apply filter_In in Hin as [Hin _]. now apply Hall. }
  split.
  { intros svc' run. unfold executeScheduledWorkflow.
    destruct (assoc_job _ _) as [job|]; [|now intros [= <- <-]].
    destruct (negb _); [now intros [= <- <-]|].
    destruct (workflowStore svc !! _) as [wf|]; [|now intros [= <- <-]].
    destruct (Engine.executeWorkflow _ _ _ _ _ _) as [result|]; [|discriminate].
    intros [= <- <-]. apply table_ok_keep; auto. }
  split; simpl; constructor.
Qed.

(** X10.  Scheduling a job whose expression is valid either fails in the
    timer library, as for an unknown time zone, and then registers
    nothing; or it succeeds, and then stopping and resuming the job brings
    it back: both calls answer true, no job is added or lost, and the job
    is active again under the same id, workflow, expression and time zone,
    with no run recorded and its next run one minute after the clock at
    resume.  In between, the job is still listed but inactive. *)
Theorem stop_then_resume (cron_validate : string -> bool)
  (cron_schedule : string -> string -> completion unit) (svc : Service)
  (uuid workflowId_ expression : string) (timezone_ : option string)
  (now later : Z) :
  cron_validate expression = true ->
  let jobId := "schedule_" +:+ uuid in
  let scheduled := schedule cron_validate cron_schedule uuid now workflowId_
                     expression timezone_ svc in
  let stopped := stop jobId (snd scheduled) in
  let resumed := resume later jobId (snd stopped) in
  match cron_schedule expression (default "UTC" timezone_) with
  | Thrown msg => scheduled = (Thrown msg, svc)
  | Normal _ =>
      fst scheduled = Normal jobId /\
      fst stopped = true /\ fst resumed = true /\
      List.map fst (jobs (snd stopped)) = List.map fst (jobs (snd scheduled)) /\
      List.map fst (jobs (snd resumed)) = List.map fst (jobs (snd scheduled)) /\
      (exists job, assoc_job jobId (jobs (snd stopped)) = Some job /\
                   isActive job = false /\ running (task job) = false /\
                   cronExpression job = expression /\
                   workflowId job = workflowId_) /\
      assoc_job jobId (jobs (snd resumed))
      = Some {| id := jobId; workflowId := workflowId_;
                cronExpression := expression;
                timezone := default "UTC" timezone_; isActive := true;
                lastRunAt := None; nextRunAt := Some (later + 60000)%Z;
                task := {| running := true |} |} /\
      (forall other, other <> jobId ->
         assoc_job other (jobs (snd resumed)) = assoc_job other (jobs svc))
  end.
Proof.
  intros Hv jobId scheduled stopped resumed.
  destruct (cron_schedule expression (default "UTC" timezone_))
    as [started|msg] eqn:Hstart;
    [|unfold scheduled, schedule; now rewrite Hv, Hstart].
  assert (Hs : scheduled
               = (Normal jobId,
                  {| jobs := Engine.map_set jobId
                       {| id := jobId; workflowId := workflowId_;
                          cronExpression := expression;
                          timezone := default "UTC" timezone_; isActive := true;
                          lastRunAt := None;
                          nextRunAt := Some (getNextRunTime now expression);
                          task := {| running := true |} |} (jobs svc);
                     workflowStore := workflowStore svc |})).
  { unfold scheduled, schedule. now rewrite Hv, Hstart. }
  assert (H1 : exists job, assoc_job jobId (jobs (snd scheduled)) = Some job).
  { rewrite Hs. cbn [snd jobs]. rewrite assoc_job_map_set, String.eqb_refl. eauto. }
  destruct H1 as [job1 H1].
  assert (Hst : stopped = (true, update_job jobId
         (fun job => {| id := id job; workflowId := workflowId job;
                        cronExpression := cronExpression job;
                        timezone := timezone job; isActive := false;
                        lastRunAt := lastRunAt job; nextRunAt := nextRunAt job;
                        task := {| running := false |} |}) (snd scheduled))).
  { unfold stopped, stop. now rewrite H1. }
  assert (H2 : exists job, assoc_job jobId (jobs (snd stopped)) = Some job).
  { rewrite Hst. cbn [snd jobs]. rewrite assoc_job_update, String.eqb_refl, H1. simpl. eauto. }
  destruct H2 as [job2 H2].
  assert (Hre : resumed = (true, update_job jobId
         (fun job => {| id := id job; workflowId := workflowId job;
                        cronExpression := cronExpression job;
                        timezone := timezone job; isActive := true;
                        lastRunAt := lastRunAt job;
                        nextRunAt := Some (getNextRunTime later (cronExpression job));
                        task := {| running := true |} |}) (snd stopped))).
  { unfold resumed, resume. now rewrite H2. }
  split; [now rewrite Hs|]. split; [now rewrite Hst|]. split; [now rewrite Hre|].
  split; [rewrite Hst; cbn [snd]; apply keys_update|].
  split; [rewrite Hre; cbn [snd]; rewrite keys_update, Hst; cbn [snd]; apply keys_update|].
  split.
  { rewrite Hst. cbn [snd jobs]. rewrite assoc_job_update, String.eqb_refl.
    rewrite Hs. cbn [snd jobs]. rewrite assoc_job_map_set, String.eqb_refl. simpl.
    eexists. split; [reflexivity|]. simpl. auto. }
  split.
  { rewrite Hre. cbn [snd jobs]. rewrite assoc_job_update, String.eqb_refl.
    rewrite Hst. cbn [snd jobs]. rewrite assoc_job_update, String.eqb_refl.
    rewrite Hs. cbn [snd jobs]. rewrite assoc_job_map_set, String.eqb_refl. reflexivity. }
  intros other Hne.
  assert (E : String.eqb other jobId = false) by now apply String.eqb_neq.
  rewrite Hre. cbn [snd jobs]. rewrite assoc_job_update, E.
  rewrite Hst. cbn [snd jobs]. rewrite assoc_job_update, E.
  rewrite Hs. cbn [snd jobs]. rewrite assoc_job_map_set, String.eqb_sym, E. reflexivity.
Qed.

Lemma stop_then_resume_witness :
  five_field_cron "*/5 * * * *" = true /\
  fst (resume 7 "schedule_u1"
         (snd (stop "schedule_u1"
                 (snd (schedule five_field_cron two_zones "u1" 0 "wf"
                         "*/5 * * * *" (Some "Europe/Paris") empty_service)))))
  = true /\
  schedule five_field_cron two_zones "u1" 0 "wf" "*/5 * * * *"
    (Some "Mars/Phobos") empty_service
  = (Thrown "Invalid time zone specified: Mars/Phobos", empty_service).
Proof.
  split; [reflexivity|]. split.
  - exact (proj1 (proj2 (proj2
             (stop_then_resume five_field_cron two_zones empty_service "u1" "wf"
                "*/5 * * * *" (Some "Europe/Paris") 0 7 eq_refl)))).
  - exact (stop_then_resume five_field_cron two_zones empty_service "u1" "wf"
             "*/5 * * * *" (Some "Mars/Phobos") 0 7 eq_refl).
Defined.

(** X11.  remove forgets the job it is given and no other: it answers
    true exactly when the job existed; afterwards the job is not found, the
    other jobs are as they were, in the same order, the registered
    workflows are untouched, and stop, resume and a second remove of that
    id answer false and change nothing. *)
Theorem remove_forgets_one_job (svc : Service) (jobId : string) (now : Z) :
  let removed := remove jobId svc in
  (fst removed = true <-> exists job, assoc_job jobId (jobs svc) = Some job) /\
  assoc_job jobId (jobs (snd removed)) = None /\
  (forall other, other <> jobId ->
     assoc_job other (jobs (snd removed)) = assoc_job other (jobs svc)) /\
  List.map fst (jobs (snd removed))
  = List.filter (fun k => negb (String.eqb k jobId)) (List.map fst (jobs svc)) /\
  workflowStore (snd removed) = workflowStore svc /\
  stop jobId (snd removed) = (false, snd removed) /\
  resume now jobId (snd removed) = (false, snd removed) /\
  remove jobId (snd removed) = (false, snd removed).
Proof.
  intros removed.
  assert (Hnone : assoc_job jobId (jobs (snd removed)) = None).
  { unfold removed, remove. destruct (assoc_job jobId (jobs svc)) eqn:E; simpl.
    - now rewrite assoc_job_remove, String.eqb_refl.
    - exact E. }
  assert (Hkeys : forall m : list (string * ScheduledJob),
             assoc_job jobId m = None ->
             List.filter (fun k => negb (String.eqb k jobId)) (List.map fst m)
             = List.map fst m).
  { induction m as [|[k j] m IH]; simpl; [reflexivity|].
    destruct (String.eqb k jobId); [discriminate|]. simpl. intros H.
    now rewrite IH. }
  split.
  { unfold removed, remove. destruct (assoc_job jobId (jobs svc)) eqn:E; simpl.
    - split; eauto.
    - split; [discriminate|]. now intros [? [=]]. }
  split; [exact Hnone|].
  split.
  { intros other Hne. unfold removed, remove.
    destruct (assoc_job jobId (jobs svc)); simpl; [|reflexivity].
    rewrite assoc_job_remove.
    now replace (String.eqb other jobId) with false
      by (symmetry; now apply String.eqb_neq). }
  split.
  { unfold removed, remove. destruct (assoc_job jobId (jobs svc)) eqn:E; simpl.
    - clear. induction (jobs svc) as [|[k j] m IH]; simpl; [reflexivity|].
      destruct (String.eqb k jobId); simpl; now rewrite IH.
    - symmetry. now apply Hkeys. }
  split.
  { unfold removed, remove. now destruct (assoc_job jobId (jobs svc)). }
  unfold stop, resume, remove. now rewrite Hnone.
Qed.

(** X12.  A timer that fires for a job that was stopped or removed, or
    for an id the scheduler never issued, does nothing: no workflow is run
    and the service is left as it is. *)
Theorem stopped_jobs_do_not_run {rt : Runtime}
  (getHandler : NodeType -> option NodeHandler) (svc : Service)
  (jobId fired uuid : string) (finished recomputed : Z) :
  let tick := executeScheduledWorkflow getHandler jobId fired uuid finished recomputed in
  tick (snd (stop jobId svc)) = Some (snd (stop jobId svc), None) /\
  tick (snd (remove jobId svc)) = Some (snd (remove jobId svc), None) /\
  (assoc_job jobId (jobs svc) = None -> tick svc = Some (svc, None)).
Proof.
  intros tick. unfold tick, executeScheduledWorkflow.
  split; [|split].
  - unfold stop. destruct (assoc_job jobId (jobs svc)) as [job|] eqn:E; cbn [snd].
    + now rewrite assoc_job_update, String.eqb_refl, E.
    + now rewrite E.
  - unfold remove. destruct (assoc_job jobId (jobs svc)) as [job|] eqn:E;
      cbn [snd jobs].
    + now rewrite assoc_job_remove, String.eqb_refl.
    + now rewrite E.
  - now intros ->.
Qed.

(** The firing of a timer for an active job whose workflow is registered
    runs the workflow. *)
Lemma tick_runs {rt : Runtime}
  (getHandler : NodeType -> option NodeHandler) (svc : Service)
  (jobId fired uuid : string) (finished recomputed : Z)
  (job : ScheduledJob) (workflow : WorkflowDefinition) :
  assoc_job jobId (jobs svc) = Some job ->
  isActive job = true ->
  workflowStore svc !! workflowId job = Some workflow ->
  exists result svc',
    executeScheduledWorkflow getHandler jobId fired uuid finished recomputed svc
    = Some (svc', Some result) /\
    Engine.executeWorkflow getHandler workflow
      (Obj [("scheduledTime", Str fired)]) None Types.schedule uuid = Some result.
Proof.
  intros Hjob Hact Hwf.
  destruct (execute_total getHandler workflow _
              (blank_new_engine workflow (Obj [("scheduledTime", Str fired)])
                 None Types.schedule uuid)) as (r & s' & Hr).
  assert (Hrun : Engine.executeWorkflow getHandler workflow
                   (Obj [("scheduledTime", Str fired)]) None Types.schedule uuid
                 = Some r).
  { unfold Engine.executeWorkflow. now rewrite Hr. }
  unfold executeScheduledWorkflow. rewrite Hjob, Hact, Hwf, Hrun. cbn [negb].
  eexists _, _. split; reflexivity.
Qed.

(** X13.  When the timer of an active job fires and its workflow is
    registered, the workflow is run once, in schedule mode, on the time of
    firing; whether the run succeeds or fails the job stays scheduled and
    active, with its last run stamped and its next run one minute on, and
    no other job and no registered workflow is touched. *)
Theorem fired_job_stays_scheduled {rt : Runtime}
  (getHandler : NodeType -> option NodeHandler) (svc : Service)
  (jobId fired uuid : string) (finished recomputed : Z)
  (job : ScheduledJob) (workflow : WorkflowDefinition) :
  assoc_job jobId (jobs svc) = Some job ->
  isActive job = true ->
  workflowStore svc !! workflowId job = Some workflow ->
  exists result svc',
    executeScheduledWorkflow getHandler jobId fired uuid finished recomputed svc
    = Some (svc', Some result) /\
    Engine.executeWorkflow getHandler workflow
      (Obj [("scheduledTime", Str fired)]) None Types.schedule uuid = Some result /\
    assoc_job jobId (jobs svc')
    = Some {| id := id job; workflowId := workflowId job;
              cronExpression := cronExpression job; timezone := timezone job;
              isActive := true; lastRunAt := Some finished;
              nextRunAt := Some (recomputed + 60000)%Z; task := task job |} /\
    (forall other, other <> jobId ->
       assoc_job other (jobs svc') = assoc_job other (jobs svc)) /\
    List.map fst (jobs svc') = List.map fst (jobs svc) /\
    workflowStore svc' = workflowStore svc.
Proof.
  intros Hjob Hact Hwf.
  destruct (tick_runs getHandler svc jobId fired uuid finished recomputed
              job workflow Hjob Hact Hwf) as (result & svc' & Htick & Hrun).
  exists result, svc'. split; [exact Htick|]. split; [exact Hrun|].
  unfold executeScheduledWorkflow in Htick.
  rewrite Hjob, Hact, Hwf, Hrun in Htick. cbn [negb] in Htick.
  injection Htick as <-.
  split.
  { rewrite assoc_job_update, String.eqb_refl, Hjob. simpl. now rewrite Hact. }
  split.
  { intros other Hne. rewrite assoc_job_update.
    now replace (String.eqb other jobId) with false
      by (symmetry; now apply String.eqb_neq). }
  split; [apply keys_update|reflexivity].
Qed.

Lemma job_table_stays_in_order_witness :
  table_ok ticking_service /\
  table_ok (snd (stop "schedule_u1" ticking_service)).
Proof.
  assert (H : table_ok ticking_service).
  { split; simpl; repeat constructor; simpl; tauto. }
  split; [exact H|].
  apply (job_table_stays_in_order (rt := literal_runtime) registry
           five_field_cron two_zones ticking_service "u" "t" 0 0 0 "wf" "* * * * *"
           "schedule_u1" None H).
Defined.

Lemma fired_job_stays_scheduled_witness :
  exists result svc',
    executeScheduledWorkflow (rt := literal_runtime) registry
      "schedule_u1" "2024-01-01T00:00:00.000Z" "u2" 5 6 ticking_service
    = Some (svc', Some result) /\
    option_map lastRunAt (assoc_job "schedule_u1" (jobs svc')) = Some (Some 5%Z).
Proof.
  destruct (fired_job_stays_scheduled (rt := literal_runtime) registry
              ticking_service "schedule_u1" "2024-01-01T00:00:00.000Z" "u2" 5 6
              _ chain eq_refl eq_refl (lookup_insert_eq _ _ _))
    as (result & svc' & Hrun & _ & Hjob & _).
  exists result, svc'. split; [exact Hrun|]. now rewrite Hjob.
Defined.

Lemma split_on_join sep s : join_with sep (split_on sep s) = s.
Proof.
  induction s as [|c s IH]; simpl; [reflexivity|].
  pose proof (split_on_nonempty sep s) as Hne.
  destruct (Ascii.eqb c sep) eqn:E.
  - apply Ascii.eqb_eq in E. subst c.
    destruct (split_on sep s) as [|hd tl]; [contradiction|].
    change (join_with sep (EmptyString :: hd :: tl))
      with (String sep (join_with sep (hd :: tl))).
    now rewrite IH.
  - destruct (split_on sep s) as [|hd tl]; [contradiction|].
    rewrite <- IH. now destruct tl.
Qed.

(** X14.  describeCron looks only at the number of fields: it answers
    "Invalid cron expression" exactly when the expression does not split
    at its spaces into five fields.  With five fields it answers one of
    its five fixed phrases, each for its own expression, or spells the
    fields out; the fields hold no space and, joined by spaces, are the
    expression. *)
Theorem describeCron_counts_fields (expression : string) :
  (describeCron expression = "Invalid cron expression"
   <-> length (split_on " " expression) <> 5%nat) /\
  (forall minute hour dayOfMonth month dayOfWeek,
      split_on " " expression = [minute; hour; dayOfMonth; month; dayOfWeek] ->
      expression = join_with " " [minute; hour; dayOfMonth; month; dayOfWeek] /\
      Forall (fun p => free_of " " p = true)
             [minute; hour; dayOfMonth; month; dayOfWeek] /\
      (In (expression, describeCron expression) cron_phrases \/
       (~ In expression (List.map fst cron_phrases) /\
        describeCron expression
        = "At " +:+ minute +:+ " " +:+ hour +:+ " on day " +:+ dayOfMonth
          +:+ " of " +:+ month +:+ ", weekday " +:+ dayOfWeek))).
Proof.
  split.
  - unfold describeCron.
    destruct (split_on " " expression) as [|a [|b [|c [|d [|f [|g l]]]]]];
      simpl; try (split; [intros _; lia|reflexivity]).
    split; [|intros H; now contradiction H].
    repeat (match goal with
            | |- context [if ?b then _ else _] => destruct b
            end; [discriminate|]).
    discriminate.
  - intros minute hour dayOfMonth month dayOfWeek Hs.
    split; [rewrite <- Hs; symmetry; apply split_on_join|].
    split; [rewrite <- Hs; apply split_on_parts_free|].
    unfold describeCron. rewrite Hs. unfold cron_phrases.
    destruct (String.eqb expression "* * * * *") eqn:E1;
      [apply String.eqb_eq in E1; left; rewrite E1; simpl; tauto|].
    destruct (String.eqb expression "0 * * * *") eqn:E2;
      [apply String.eqb_eq in E2; left; rewrite E2; simpl; tauto|].
    destruct (String.eqb expression "0 0 * * *") eqn:E3;
      [apply String.eqb_eq in E3; left; rewrite E3; simpl; tauto|].
    destruct (String.eqb expression "0 0 * * 0") eqn:E4;
      [apply String.eqb_eq in E4; left; rewrite E4; simpl; tauto|].
    destruct (String.eqb expression "0 9 * * 1-5") eqn:E5;
      [apply String.eqb_eq in E5; left; rewrite E5; simpl; tauto|].
    right. split; [|reflexivity].
    apply String.eqb_neq in E1, E2, E3, E4, E5. simpl. intuition congruence.
Qed.

End SchedulerExtras.

(* ===================================================================== *)
(** ** Further properties of the job queue                               *)
(* ===================================================================== *)

Module JobQueueExtras.
Import Js Types Spec SpecExtra EngineFacts Examples ExamplesExtra.
Import JobQueue.

(** The engine always answers, and under the id it drew. *)
Lemma executeWorkflow_id {rt : Runtime}
  (getHandler : NodeType -> option NodeHandler) workflow inp userId_ mode_ uuid :
  exists r,
    Engine.executeWorkflow getHandler workflow inp userId_ mode_ uuid = Some r /\
    Engine.result_executionId r = uuid.
Proof.
  destruct (EngineExtras.execute_keeps getHandler workflow inp userId_ mode_ uuid)
    as (r & s' & Hex & _ & Hk & _ & Hid).
  exists r. split; [unfold Engine.executeWorkflow; now rewrite Hex|].
  rewrite Hid, (k_id _ _ _ Hk). unfold seeded.
  destruct (truthy _); [|reflexivity].
  now rewrite (proj2 (proj2 (proj2 (proj2 (seed_outputs_frame _ _))))).
Qed.

(** X15.  The connection is retried at most three times: for a fourth
    attempt and beyond retryStrategy answers null, before that the delay is
    a hundred milliseconds per attempt, so that it never exceeds 300 and
    the cap of 1000 in the code is never what is returned. *)
Theorem retries_stop_after_three (times : Z) :
  (retryStrategy times = None <-> (3 < times)%Z) /\
  (forall d, retryStrategy times = Some d ->
             d = (times * 100)%Z /\ (d <= 300)%Z /\ (times <= 3)%Z).
Proof.
  unfold retryStrategy. destruct (Z.gtb_spec times 3) as [H|H].
  - split; [split; [intros _; lia|reflexivity]|discriminate].
  - split; [split; [discriminate|lia]|].
    intros d [= <-]. lia.
Qed.

(** X16.  The worker never returns a failed run.  processJob always
    settles; it returns exactly the successful results of the engine, and
    throws when the workflow is not registered or the run failed, with the
    error of the run or, that being absent or empty, "Workflow execution
    failed".  executeDirect, on the same payload, returns the failed
    result instead of throwing. *)
Theorem worker_throws_failed_runs {rt : Runtime}
  (getHandler : NodeType -> option NodeHandler)
  (uuid : string) (job : QueuedJob) (svc : Service) :
  exists worker direct,
    processJob getHandler uuid job svc = Some worker /\
    executeDirect getHandler uuid (payload job) svc = Some direct /\
    match direct with
    | Thrown msg =>
        workflowStore svc !! job_workflowId (payload job) = None /\
        msg = "Workflow not found: " +:+ job_workflowId (payload job) /\
        worker = Thrown msg
    | Normal result =>
        (exists workflow,
            workflowStore svc !! job_workflowId (payload job) = Some workflow) /\
        match Engine.result_status result with
        | Engine.run_success => worker = Normal result
        | Engine.run_failed =>
            exists msg, worker = Thrown msg /\ msg <> "" /\
                        (Engine.result_error result = Some msg \/
                         msg = "Workflow execution failed" /\
                         (Engine.result_error result = None \/
                          Engine.result_error result = Some ""))
        end
    end.
Proof.
  unfold processJob, executeDirect.
  destruct (workflowStore svc !! job_workflowId (payload job)) as [workflow|] eqn:Hw.
  - destruct (executeWorkflow_id getHandler workflow (job_input (payload job))
                (job_userId (payload job)) (job_mode (payload job)) uuid)
      as (r & Hr & _).
    rewrite Hr. simpl.
    destruct (Engine.result_status r) eqn:Hst.
    + eexists _, _. split; [reflexivity|]. split; [reflexivity|]. simpl.
      rewrite Hst. split; [eauto|reflexivity].
    + eexists _, _. split; [reflexivity|]. split; [reflexivity|]. simpl.
      rewrite Hst. split; [eauto|].
      destruct (Engine.result_error r) as [msg|].
      * destruct (String.eqb msg "") eqn:E.
        -- apply String.eqb_eq in E. subst msg.
           eexists. split; [reflexivity|]. split; [discriminate|]. auto.
        -- apply String.eqb_neq in E. eexists. split; [reflexivity|]. auto.
      * eexists. split; [reflexivity|]. split; [discriminate|]. auto.
  - eexists _, _. split; [reflexivity|]. split; [reflexivity|]. simpl. auto.
Qed.

(** X17.  A workflow that was never registered is noticed late in queue
    mode: in direct mode enqueue rejects with "Workflow not found", while
    with a queue it accepts the job, appends it and answers the execution
    id; it is the worker that throws "Workflow not found" when it takes
    the job. *)
Theorem unregistered_workflow_is_noticed_late {rt : Runtime}
  (getHandler : NodeType -> option NodeHandler) (svc : Service)
  (workflowId_ : string) (inp : any) (options : EnqueueOptions)
  (uuid_job uuid_exec uuid_engine uuid_worker : string) :
  workflowStore svc !! workflowId_ = None ->
  (queue svc = None ->
   enqueue getHandler uuid_job uuid_exec uuid_engine workflowId_ inp options svc
   = Rejects ("Workflow not found: " +:+ workflowId_)) /\
  (forall q, queue svc = Some q ->
     exists job svc',
       enqueue getHandler uuid_job uuid_exec uuid_engine workflowId_ inp options svc
       = Enqueued ("exec_" +:+ uuid_exec) None svc' /\
       queue svc' = Some (q ++ [job])%list /\
       workflowStore svc' = workflowStore svc /\
       job_workflowId (payload job) = workflowId_ /\
       processJob getHandler uuid_worker job svc'
       = Some (Thrown ("Workflow not found: " +:+ workflowId_))).
Proof.
  intros Hw. split.
  - intros Hq. unfold enqueue, executeDirect. rewrite Hq. cbn. now rewrite Hw.
  - intros q Hq. unfold enqueue. rewrite Hq. unfold queue_add.
    eexists _, _. split; [reflexivity|]. cbn.
    split; [reflexivity|]. split; [reflexivity|]. split; [reflexivity|].
    unfold processJob. cbn. now rewrite Hw.
Qed.

Lemma unregistered_workflow_is_noticed_late_witness :
  exists job svc',
    enqueue (rt := literal_runtime) registry "j" "e" "u" "wf-0" (Obj [])
      no_options durable_service
    = Enqueued "exec_e" None svc' /\
    processJob (rt := literal_runtime) registry "w" job svc'
    = Some (Thrown "Workflow not found: wf-0").
Proof.
  destruct (unregistered_workflow_is_noticed_late (rt := literal_runtime) registry
              durable_service "wf-0" (Obj []) no_options "j" "e" "u" "w"
              (lookup_empty _)) as [_ H].
  destruct (H [] eq_refl) as (job & svc' & He & _ & _ & _ & Hp).
  exists job, svc'. split; [exact He|exact Hp].
Defined.

(** X18.  The execution id that enqueue announces is not the id of the
    run.  For a registered workflow, executeDirect and processJob run the
    engine under the id the engine draws itself: the result carries that
    id, and the executionId of the payload has no influence on it. *)
Theorem announced_id_is_not_the_run_id {rt : Runtime}
  (getHandler : NodeType -> option NodeHandler) (svc : Service)
  (workflow : WorkflowDefinition) (uuid : string) (data : JobPayload)
  (announced : string) :
  workflowStore svc !! job_workflowId data = Some workflow ->
  let renamed := {| job_workflowId := job_workflowId data;
                    job_executionId := announced;
                    job_input := job_input data; job_userId := job_userId data;
                    job_mode := job_mode data |} in
  exists result,
    executeDirect getHandler uuid data svc = Some (Normal result) /\
    executeDirect getHandler uuid renamed svc = Some (Normal result) /\
    Engine.result_executionId result = uuid /\
    (forall job, payload job = data ->
       processJob getHandler uuid job svc = Some (Normal result) \/
       exists msg, processJob getHandler uuid job svc = Some (Thrown msg) /\
                   Engine.result_status result = Engine.run_failed).
Proof.
  intros Hw renamed.
  destruct (executeWorkflow_id getHandler workflow (job_input data)
              (job_userId data) (job_mode data) uuid) as (r & Hr & Hid).
  exists r. unfold executeDirect, processJob. cbn. rewrite Hw, Hr. cbn.
  split; [reflexivity|]. split; [reflexivity|]. split; [exact Hid|].
  intros job ->. rewrite Hw, Hr.
  destruct (Engine.result_status r); [now left|right; eauto].
Qed.

Lemma announced_id_is_not_the_run_id_witness :
  exists result,
    executeDirect (rt := literal_runtime) registry "run-1"
      {| job_workflowId := "wf-3"; job_executionId := "exec_e";
         job_input := Obj []; job_userId := None; job_mode := manual |}
      direct_service = Some (Normal result) /\
    Engine.result_executionId result = "run-1".
Proof.
  destruct (announced_id_is_not_the_run_id (rt := literal_runtime) registry
              direct_service chain "run-1"
              {| job_workflowId := "wf-3"; job_executionId := "exec_e";
                 job_input := Obj []; job_userId := None; job_mode := manual |}
              "other" (lookup_insert_eq _ _ _))
    as (r & H1 & _ & H2 & _).
  exists r. split; [exact H1|exact H2].
Defined.

End JobQueueExtras.

(* ===================================================================== *)
(** ** Further properties of the workflow service                        *)
(* ===================================================================== *)

Module WorkflowServiceExtras.
Import Js Types Spec SpecExtra JsFacts EngineFacts Examples ExamplesExtra.
Import WorkflowService.

Lemma lookup_map_set {V} key (v : V) m k :
  lookup k (Engine.map_set key v m)
  = if String.eqb key k then Some v else lookup k m.
Proof.
  induction m as [|[k' j] m IH]; simpl.
  - reflexivity.
  - destruct (String.eqb k' key) eqn:E; simpl.
    + apply String.eqb_eq in E. subst k'. now destruct (String.eqb key k).
    + rewrite IH. destruct (String.eqb k' k) eqn:E'; [|reflexivity].
      apply String.eqb_eq in E'. subst k'. now rewrite String.eqb_sym, E.
Qed.

Lemma lookup_remove {V} key (m : list (string * V)) k :
  lookup k (List.filter (fun kv => negb (String.eqb (fst kv) key)) m)
  = if String.eqb k key then None else lookup k m.
Proof.
  induction m as [|[k' j] m IH]; simpl.
  - now destruct (String.eqb k key).
  - destruct (String.eqb k' key) eqn:E; simpl; rewrite IH;
      destruct (String.eqb k' k) eqn:E'; try reflexivity.
    + apply String.eqb_eq in E, E'. subst. now rewrite String.eqb_refl.
    + apply String.eqb_eq in E'. subst k'. now rewrite E.
Qed.

Lemma get_owner workflowId stored svc :
  lookup workflowId (workflows svc) = Some stored ->
  get workflowId (Some (userId stored)) svc = Some stored.
Proof.
  intros H. unfold get. rewrite H, String.eqb_refl. simpl.
  now rewrite andb_false_r.
Qed.

Section World.
Variable Webhooks : Type.
Variable register : WorkflowDefinition -> Webhooks -> Webhooks.
Variable listByWorkflow : string -> Webhooks -> list string.
Variable unregister : string -> Webhooks -> Webhooks.

(** X19.  Only the owner changes a workflow: for anyone else update
    answers null and delete false, and nothing at all is changed; get and
    duplicate answer null for another user who names himself.  The check
    of get is skipped for the empty user id, as it is when no user is
    given: get then answers the workflow whoever owns it. *)
Theorem only_the_owner_changes_a_workflow (w : World Webhooks)
  (workflowId user uuid : string) (now : Z) (stored : StoredWorkflow)
  (data : UpdateData) :
  lookup workflowId (workflows (service w)) = Some stored ->
  userId stored <> user ->
  update register now workflowId user data w = (None, w) /\
  delete listByWorkflow unregister workflowId user w = (false, w) /\
  (user <> "" ->
   get workflowId (Some user) (service w) = None /\
   duplicate register uuid now workflowId user w = (Normal None, w)) /\
  get workflowId (Some "") (service w) = Some stored /\
  get workflowId None (service w) = Some stored.
Proof.
  intros Hl Hne.
  assert (E : String.eqb (userId stored) user = false) by now apply String.eqb_neq.
  unfold update, delete, duplicate, get. rewrite Hl, E. simpl.
  split; [reflexivity|]. split; [reflexivity|]. split; [|split; reflexivity].
  intros Hu. apply String.eqb_neq in Hu. rewrite Hu. simpl.
  split; reflexivity.
Qed.

Lemma create_shape uuid now user data w :
  exists id,
    id = match data_id data with
         | Some i => if String.eqb i "" then "wf_" +:+ uuid else i
         | None => "wf_" +:+ uuid
         end /\
    match map_throwing (rewrite_node id) (default [] (data_nodes data)) with
    | Thrown msg => create register uuid now user data w = (Thrown msg, w)
    | Normal nodes_ =>
        let stored :=
          {| definition :=
               {| wf_id := id; wf_name := data_name data;
                  description := data_description data; nodes := nodes_;
                  edges := default [] (data_edges data);
                  settings := data_settings data |};
             userId := user; isActive := false;
             createdAt := now; updatedAt := now |} in
        create register uuid now user data w
        = (Normal stored,
           {| service :=
                {| workflows := Engine.map_set id stored (workflows (service w));
                   executions := executions (service w) |};
              webhooks := register (definition stored) (webhooks w);
              scheduler :=
                Scheduler.registerWorkflow (definition stored) (scheduler w) |})
    end.
Proof.
  eexists. split; [reflexivity|]. unfold create.
  destruct (map_throwing _ _); reflexivity.
Qed.

(** X20.  A workflow that create returns can be read back: get answers
    it under its id, for its creator and for a caller who gives no user.
    It is inactive and owned by the creator, so that an id chosen by the
    caller takes over what was stored under that id, whoever owned it.
    The other workflows, the execution records and the scheduled jobs are
    as they were, and the scheduler knows the new definition. *)
Theorem created_workflow_is_read_back (w w' : World Webhooks)
  (uuid user : string) (now : Z) (data : CreateData) (created : StoredWorkflow) :
  create register uuid now user data w = (Normal created, w') ->
  let id := wf_id (definition created) in
  get id (Some user) (service w') = Some created /\
  get id None (service w') = Some created /\
  userId created = user /\ isActive created = false /\
  (id = "wf_" +:+ uuid \/ data_id data = Some id) /\
  (forall other, other <> id ->
     lookup other (workflows (service w'))
     = lookup other (workflows (service w))) /\
  executions (service w') = executions (service w) /\
  Scheduler.jobs (scheduler w') = Scheduler.jobs (scheduler w) /\
  Scheduler.workflowStore (scheduler w') !! id = Some (definition created).
Proof.
  intros Hc id.
  destruct (create_shape uuid now user data w) as (id0 & Hid & Hs).
  destruct (map_throwing _ _) as [nodes_|msg]; [|congruence].
  cbv zeta in Hs. rewrite Hs in Hc. injection Hc as <- <-.
  unfold id. cbn [definition wf_id service workflows executions scheduler
                  userId isActive].
  assert (Hl : lookup id0 (Engine.map_set id0
             {| definition :=
                  {| wf_id := id0; wf_name := data_name data;
                     description := data_description data; nodes := nodes_;
                     edges := default [] (data_edges data);
                     settings := data_settings data |};
                userId := user; isActive := false;
                createdAt := now; updatedAt := now |} (workflows (service w)))
          = Some {| definition :=
                  {| wf_id := id0; wf_name := data_name data;
                     description := data_description data; nodes := nodes_;
                     edges := default [] (data_edges data);
                     settings := data_settings data |};
                userId := user; isActive := false;
                createdAt := now; updatedAt := now |}).
  { now rewrite lookup_map_set, String.eqb_refl. }
  split.
  { unfold get. cbn [workflows]. rewrite Hl. cbn [userId].
    rewrite String.eqb_refl. simpl. now rewrite andb_false_r. }
  split.
  { unfold get. cbn [workflows]. now rewrite Hl. }
  split; [reflexivity|]. split; [reflexivity|].
  split.
  { rewrite Hid. destruct (data_id data) as [i|]; [|now left].
    destruct (String.eqb i ""); [now left|now right]. }
  split.
  { intros other Hne. rewrite lookup_map_set.
    now replace (String.eqb id0 other) with false
      by (symmetry; apply String.eqb_neq; congruence). }
  split; [reflexivity|]. split; [reflexivity|].
  unfold Scheduler.registerWorkflow. cbn. apply lookup_insert_eq.
Qed.

Lemma map_throwing_cases {A B} (f : A -> completion B) xs :
  match map_throwing f xs with
  | Normal ys => Forall2 (fun x y => f x = Normal y) xs ys
  | Thrown msg => exists x, In x xs /\ f x = Thrown msg
  end.
Proof.
  induction xs as [|x xs IH]; simpl; [constructor|].
  destruct (f x) as [y|msg] eqn:E; [|exists x; auto].
  destruct (map_throwing f xs) as [ys|msg].
  - constructor; assumption.
  - destruct IH as (x' & Hin & Hx'). exists x'. auto.
Qed.

Lemma assoc_not_key key (props : list (string * any)) :
  existsb (String.eqb key) (List.map fst props) = false ->
  assoc key props = None.
Proof.
  induction props as [|[k v] props IH]; simpl; [reflexivity|].
  rewrite (String.eqb_sym key k).
  destruct (String.eqb k key); simpl; [discriminate|exact IH].
Qed.

Lemma truthy_path_object n :
  truthy (node_path n) = true -> exists props, config n = Obj props.
Proof.
  unfold node_path. destruct (config n) as [| |b|z|s|items|props|f r]; simpl;
    try discriminate; eauto.
Qed.

Lemma rewrite_node_repointed id n n' :
  rewrite_node id n = Normal n' -> repointed id n n'.
Proof.
  unfold rewrite_node. fold (node_path n).
  destruct (truthy (node_path n)) eqn:Ht.
  - destruct (path_includes_webhook (node_path n)) as [[|]|msg] eqn:Hp;
      [| |discriminate].
    + intros [= <-]. split; [repeat split|]. right.
      split; [exact Ht|]. split; [exact Hp|].
      destruct (truthy_path_object n Ht) as [props Hc].
      unfold node_path, trigger_path. cbn [config nullish get_own].
      split.
      * now rewrite assoc_set_prop, String.eqb_refl.
      * intros key Hk. rewrite assoc_set_prop.
        replace (String.eqb "path" key) with false
          by (symmetry; apply String.eqb_neq; congruence).
        rewrite assoc_assign, Hc. cbn [own_keys get_own].
        destruct (existsb _ _) eqn:E; [reflexivity|].
        now rewrite (assoc_not_key _ _ E).
    + intros [= <-]. split; [repeat split|]. left. auto.
  - intros [= <-]. split; [repeat split|]. left. auto.
Qed.

(** X21.  create changes nothing in a node but its configuration, and
    that only for a node whose path mentions a webhook: its path becomes
    the trigger path of the workflow, every other key keeps its value.
    The edges are taken as given.  When create throws, it is because the
    path of some node is neither a string nor an array, and nothing has
    been stored. *)
Theorem create_repoints_webhook_paths (w : World Webhooks)
  (uuid user : string) (now : Z) (data : CreateData) :
  match create register uuid now user data w with
  | (Normal created, w') =>
      Forall2 (repointed (wf_id (definition created)))
              (default [] (data_nodes data)) (nodes (definition created)) /\
      edges (definition created) = default [] (data_edges data)
  | (Thrown msg, w') =>
      w' = w /\
      exists n, In n (default [] (data_nodes data)) /\
                truthy (node_path n) = true /\
                path_includes_webhook (node_path n) = Thrown msg
  end.
Proof.
  destruct (create_shape uuid now user data w) as (id & _ & Hs).
  pose proof (map_throwing_cases (rewrite_node id) (default [] (data_nodes data)))
    as Hm.
  destruct (map_throwing _ _) as [nodes_|msg].
  - cbv zeta in Hs. rewrite Hs. cbn [definition wf_id nodes edges].
    split; [|reflexivity].
    eapply Forall2_impl; [exact Hm|]. intros n n'. apply rewrite_node_repointed.
  - rewrite Hs. split; [reflexivity|].
    destruct Hm as (n & Hin & Hn). exists n. split; [exact Hin|].
    unfold rewrite_node in Hn. fold (node_path n) in Hn.
    destruct (truthy (node_path n)); [|discriminate].
    split; [reflexivity|].
    destruct (path_includes_webhook (node_path n)) as [[|]|]; congruence.
Qed.

Lemma renamed_inj a b : renamed a = renamed b -> a = b.
Proof.
  unfold renamed. revert b. induction a as [|c a IH]; intros [|c' b]; simpl.
  - reflexivity.
  - intros H. apply (f_equal String.length) in H. simpl in H.
    rewrite EngineExtras.length_append in H. simpl in H. lia.
  - intros H. apply (f_equal String.length) in H. simpl in H.
    rewrite EngineExtras.length_append in H. simpl in H. lia.
  - intros [= -> H]. now rewrite (IH _ H).
Qed.

Lemma renamed_elem x (l : list string) :
  bool_decide (renamed x ∈ (list_to_set (List.map renamed l) : gset string))
  = bool_decide (x ∈ (list_to_set l : gset string)).
Proof.
  apply bool_decide_ext. rewrite !elem_of_list_to_set, !list_elem_of_In.
  rewrite in_map_iff. split.
  - intros (y & Hy & Hin). apply renamed_inj in Hy. now subst.
  - intros Hin. exists x. auto.
Qed.

Lemma Forall2_filter {A B} (R : A -> B -> Prop) p q l l' :
  (forall a b, R a b -> p a = q b) ->
  Forall2 R l l' -> Forall2 R (List.filter p l) (List.filter q l').
Proof.
  intros Hpq H. induction H as [|a b l l' Hab H IH]; simpl; [constructor|].
  rewrite <- (Hpq _ _ Hab). destruct (p a); [constructor|]; assumption.
Qed.

Lemma Forall2_ids l l' :
  Forall2 (fun n n' => node_id n' = renamed (node_id n) /\ type n' = type n) l l' ->
  List.map node_id l' = List.map renamed (List.map node_id l) /\
  List.map type l' = List.map type l.
Proof.
  induction 1 as [|n n' l l' [Hi Ht] H [IH1 IH2]]; simpl; [auto|].
  now rewrite Hi, Ht, IH1, IH2.
Qed.

(** X22.  The copy that duplicate makes has the shape of the original:
    node for node and edge for edge, with "_copy" appended to every node
    id and edge end, so that the start nodes and the end nodes of the copy
    are the copies of those of the original.  The copy gets a fresh id,
    belongs to the caller and is inactive; the original stays as it is. *)
Theorem duplicate_keeps_the_shape (w w' : World Webhooks)
  (uuid workflowId user : string) (now : Z) (original copy : StoredWorkflow) :
  get workflowId (Some user) (service w) = Some original ->
  duplicate register uuid now workflowId user w = (Normal (Some copy), w') ->
  wf_id (definition copy) = "wf_" +:+ uuid /\
  userId copy = user /\ isActive copy = false /\
  List.map node_id (nodes (definition copy))
  = List.map renamed (List.map node_id (nodes (definition original))) /\
  List.map type (nodes (definition copy))
  = List.map type (nodes (definition original)) /\
  edges (definition copy) = List.map copy_edge (edges (definition original)) /\
  List.map node_id (Engine.findStartNodes (definition copy))
  = List.map renamed
      (List.map node_id (Engine.findStartNodes (definition original))) /\
  List.map node_id (Engine.findEndNodes (definition copy))
  = List.map renamed
      (List.map node_id (Engine.findEndNodes (definition original))) /\
  ("wf_" +:+ uuid <> workflowId ->
   get workflowId (Some user) (service w') = Some original).
Proof.
  intros Hg Hd. unfold duplicate in Hd. rewrite Hg in Hd.
  set (data := {| data_id := None;
                  data_name := wf_name (definition original) +:+ " (Copy)";
                  data_description := description (definition original);
                  data_nodes := Some (List.map copy_node (nodes (definition original)));
                  data_edges := Some (List.map copy_edge (edges (definition original)));
                  data_settings := settings (definition original) |}) in Hd.
  destruct (create_shape uuid now user data w) as (id & Hid & Hs).
  pose proof (map_throwing_cases (rewrite_node id) (default [] (data_nodes data)))
    as Hm.
  cbn [data data_id] in Hid. subst id.
  destruct (map_throwing _ _) as [nodes_|msg]; [|rewrite Hs in Hd; discriminate].
  cbv zeta in Hs. rewrite Hs in Hd. injection Hd as <- <-.
  cbn [definition wf_id nodes edges userId isActive service workflows].
  assert (HR : Forall2 (fun n n' => node_id n' = renamed (node_id n) /\
                                    type n' = type n)
                       (nodes (definition original)) nodes_).
  { cbn [data data_nodes default] in Hm.
    apply Forall2_fmap_l in Hm. eapply Forall2_impl; [exact Hm|].
    intros n n' Hn. apply rewrite_node_repointed in Hn as [(Hi & Ht & _) _].
    rewrite Hi, Ht. split; reflexivity. }
  destruct (Forall2_ids _ _ HR) as [Hids Htypes].
  split; [reflexivity|]. split; [reflexivity|]. split; [reflexivity|].
  split; [exact Hids|]. split; [exact Htypes|]. split; [reflexivity|].
  split.
  { unfold Engine.findStartNodes. cbn [nodes edges data data_edges default].
    apply Forall2_ids.
    apply Forall2_filter with (2 := HR). intros n n' [Hi Ht].
    rewrite Hi, Ht, List.map_map.
    change (List.map (fun e => target (copy_edge e)) (edges (definition original)))
      with (List.map (fun e => renamed (target e)) (edges (definition original))).
    rewrite <- (List.map_map target renamed). now rewrite renamed_elem. }
  split.
  { unfold Engine.findEndNodes. cbn [nodes edges data data_edges default].
    apply Forall2_ids.
    apply Forall2_filter with (2 := HR). intros n n' [Hi Ht].
    rewrite Hi, List.map_map.
    change (List.map (fun e => source (copy_edge e)) (edges (definition original)))
      with (List.map (fun e => renamed (source e)) (edges (definition original))).
    rewrite <- (List.map_map source renamed). now rewrite renamed_elem. }
  intros Hne. unfold get in *. cbn [workflows].
  rewrite lookup_map_set.
  now replace (String.eqb ("wf_" +:+ uuid) workflowId) with false
    by (symmetry; now apply String.eqb_neq).
Qed.

(** X23.  Deleting a workflow does not take it off the schedule.  After
    create and delete by the owner, get no longer finds the workflow, but
    the scheduler is untouched and still holds its definition: an active
    job for it goes on running it whenever its timer fires.  The execution
    records stay as well. *)
Theorem deleted_workflow_stays_scheduled {rt : Runtime}
  (getHandler : NodeType -> option NodeHandler) (w w1 : World Webhooks)
  (uuid user : string) (now : Z) (data : CreateData) (created : StoredWorkflow) :
  create register uuid now user data w = (Normal created, w1) ->
  let id := wf_id (definition created) in
  let deleted := delete listByWorkflow unregister id user w1 in
  fst deleted = true /\
  get id None (service (snd deleted)) = None /\
  executions (service (snd deleted)) = executions (service w1) /\
  scheduler (snd deleted) = scheduler w1 /\
  Scheduler.workflowStore (scheduler (snd deleted)) !! id
  = Some (definition created) /\
  (forall jobId job fired uuid' finished recomputed,
      Scheduler.assoc_job jobId (Scheduler.jobs (scheduler (snd deleted)))
      = Some job ->
      Scheduler.isActive job = true ->
      Scheduler.workflowId job = id ->
      exists result svc',
        Scheduler.executeScheduledWorkflow getHandler jobId fired uuid'
          finished recomputed (scheduler (snd deleted))
        = Some (svc', Some result) /\
        Engine.executeWorkflow getHandler (definition created)
          (Obj [("scheduledTime", Str fired)]) None Types.schedule uuid'
        = Some result).
Proof.
  intros Hc id deleted.
  destruct (create_shape uuid now user data w) as (id0 & Hid & Hs).
  destruct (map_throwing _ _) as [nodes_|msg]; [|congruence].
  cbv zeta in Hs. rewrite Hs in Hc. injection Hc as <- <-.
  unfold deleted, id, delete.
  cbn [definition wf_id service workflows executions scheduler userId].
  rewrite lookup_map_set, !String.eqb_refl.
  cbn [negb fst snd service workflows executions scheduler].
  split; [reflexivity|].
  split; [unfold get; cbn [workflows]; now rewrite lookup_remove, String.eqb_refl|].
  split; [reflexivity|]. split; [reflexivity|].
  assert (Hstore : Scheduler.workflowStore
                     (Scheduler.registerWorkflow
                        {| wf_id := id0; wf_name := data_name data;
                           description := data_description data; nodes := nodes_;
                           edges := default [] (data_edges data);
                           settings := data_settings data |} (scheduler w)) !! id0
                   = Some {| wf_id := id0; wf_name := data_name data;
                             description := data_description data; nodes := nodes_;
                             edges := default [] (data_edges data);
                             settings := data_settings data |}).
  { unfold Scheduler.registerWorkflow. cbn. apply lookup_insert_eq. }
  split; [exact Hstore|].
  intros jobId job fired uuid' finished recomputed Hjob Hact Hwf.
  clear Hid Hs. cbn [definition wf_id] in Hwf. subst id0.
  destruct (SchedulerExtras.tick_runs getHandler _ jobId fired uuid' finished
              recomputed job _ Hjob Hact Hstore)
    as (result & svc' & Hrun & Hres).
  exists result, svc'. split; [exact Hrun|exact Hres].
Qed.

(** X24.  An update by the owner keeps what identifies the workflow: its
    id, its owner and its creation time; the time of the update is
    stamped, get answers the updated workflow, no workflow is added and no
    other one touched, and the scheduler is handed the new definition.
    Nodes given to update are stored as they are, and an update that
    names no field changes nothing but the time stamp. *)
Theorem update_keeps_identity (w : World Webhooks)
  (workflowId user : string) (now : Z) (data : UpdateData)
  (stored : StoredWorkflow) :
  lookup workflowId (workflows (service w)) = Some stored ->
  userId stored = user ->
  exists updated w',
    update register now workflowId user data w = (Some updated, w') /\
    wf_id (definition updated) = wf_id (definition stored) /\
    userId updated = user /\
    createdAt updated = createdAt stored /\
    updatedAt updated = now /\
    get workflowId (Some user) (service w') = Some updated /\
    List.map fst (workflows (service w')) = List.map fst (workflows (service w)) /\
    (forall other, other <> workflowId ->
       lookup other (workflows (service w'))
       = lookup other (workflows (service w))) /\
    Scheduler.workflowStore (scheduler w') !! wf_id (definition stored)
    = Some (definition updated) /\
    (forall given, upd_nodes data = Some given ->
                   nodes (definition updated) = given) /\
    (data = no_changes ->
     definition updated = definition stored /\
     isActive updated = isActive stored).
Proof.
  intros Hl Hu. unfold update. rewrite Hl, Hu, String.eqb_refl. cbn [negb].
  eexists _, _. split; [reflexivity|].
  cbn [service workflows scheduler].
  split; [reflexivity|]. split; [exact Hu|]. split; [reflexivity|].
  split; [reflexivity|].
  split.
  { unfold get. cbn [workflows]. rewrite lookup_map_set, String.eqb_refl.
    cbn [apply_data userId]. rewrite Hu, String.eqb_refl. simpl.
    now rewrite andb_false_r. }
  split.
  { rewrite SchedulerExtras.keys_map_set.
    assert (H : existsb (String.eqb workflowId)
                  (List.map fst (workflows (service w))) = true).
    { clear -Hl. induction (workflows (service w)) as [|[k v] m IH]; simpl in *;
        [discriminate|].
      rewrite (String.eqb_sym workflowId k).
      destruct (String.eqb k workflowId); [reflexivity|]. simpl. auto. }
    now rewrite H. }
  split.
  { intros other Hne. rewrite lookup_map_set.
    now replace (String.eqb workflowId other) with false
      by (symmetry; apply String.eqb_neq; congruence). }
  split.
  { unfold Scheduler.registerWorkflow. cbn. apply lookup_insert_eq. }
  split.
  { intros given Hg. cbn. now rewrite Hg. }
  intros ->. cbn. now destruct (definition stored).
Qed.

End World.

Lemma insert_by_start_perm x l :
  Permutation (insert_by_start x l) (x :: l).
Proof.
  induction l as [|y l IH]; simpl; [reflexivity|].
  destruct (started y <=? started x)%Z; [reflexivity|].
  rewrite IH. apply perm_swap.
Qed.

Lemma sort_by_start_perm l : Permutation (sort_by_start l) l.
Proof.
  induction l as [|x l IH]; [reflexivity|].
  change (sort_by_start (x :: l)) with (insert_by_start x (sort_by_start l)).
  now rewrite insert_by_start_perm, IH.
Qed.

Lemma insert_by_start_sorted x l :
  StronglySorted not_before l -> StronglySorted not_before (insert_by_start x l).
Proof.
  induction 1 as [|y l Hs IH Hy]; simpl.
  - repeat constructor.
  - destruct (Z.leb_spec (started y) (started x)) as [Hle|Hlt].
    + constructor; [now constructor|].
      constructor; [exact Hle|].
      eapply List.Forall_impl; [|exact Hy]. unfold not_before. intros; lia.
    + constructor; [exact IH|].
      eapply Permutation_Forall; [symmetry; apply insert_by_start_perm|].
      constructor; [unfold not_before; lia|exact Hy].
Qed.

Lemma sort_by_start_sorted l : StronglySorted not_before (sort_by_start l).
Proof.
  induction l as [|x l IH]; [constructor|].
  change (sort_by_start (x :: l)) with (insert_by_start x (sort_by_start l)).
  now apply insert_by_start_sorted.
Qed.

Lemma sort_by_start_stable l :
  StronglySorted not_before l -> sort_by_start l = l.
Proof.
  induction 1 as [|x l Hs IH Hx]; [reflexivity|].
  change (sort_by_start (x :: l)) with (insert_by_start x (sort_by_start l)).
  rewrite IH.
  destruct l as [|y l]; [reflexivity|]. simpl.
  inversion Hx as [|? ? Hy _]; subst. unfold not_before in Hy.
  now destruct (Z.leb_spec (started y) (started x)); [|lia].
Qed.

Lemma sorted_split {A} (R : A -> A -> Prop) l1 l2 :
  StronglySorted R (l1 ++ l2) ->
  StronglySorted R l1 /\ Forall (fun a => Forall (R a) l2) l1.
Proof.
  induction l1 as [|a l1 IH]; simpl; intros H.
  - split; constructor.
  - inversion H as [|? ? Hs Ha]; subst. destruct (IH Hs) as [H1 H2].
    apply Forall_app in Ha as [Ha1 Ha2].
    split; constructor; assumption.
Qed.

(** X25.  getExecutions shows the records of the workflow newest first:
    what it returns is ordered by start, a record without a start counting
    as the oldest; together with what it leaves out it makes up exactly
    the records of that workflow, and nothing left out started after
    something shown.  With a limit that is not negative, fifty when none
    is given, it shows that many records or all there are.  Records that
    were already in order are shown in the order they were recorded. *)
Theorem execution_history_is_newest_first (workflowId : string)
  (limit : option Z) (svc : Service) :
  let all := List.filter (fun e => String.eqb (exec_workflowId e) workflowId)
                         (List.map snd (executions svc)) in
  let shown := getExecutions workflowId limit svc in
  StronglySorted not_before shown /\
  (exists left_out,
      Permutation (shown ++ left_out) all /\
      Forall (fun e => Forall (not_before e) left_out) shown) /\
  (forall e, In e shown ->
             exec_workflowId e = workflowId /\
             In e (List.map snd (executions svc))) /\
  ((0 <= default 50 limit)%Z ->
   length shown = Nat.min (Z.to_nat (default 50%Z limit)) (length all)) /\
  (StronglySorted not_before all -> exists left_out, all = (shown ++ left_out)%list).
Proof.
  intros all shown.
  assert (Hk : exists k, shown = firstn k (sort_by_start all) /\
                         ((0 <= default 50 limit)%Z ->
                          k = Z.to_nat (default 50%Z limit))).
  { unfold shown, getExecutions, slice_from_start. fold all.
    destruct (Z.ltb_spec (default 50%Z limit) 0); eexists; split;
      try reflexivity; lia. }
  destruct Hk as (k & Hshown & Hlimit).
  pose proof (sort_by_start_sorted all) as Hsorted.
  rewrite <- (firstn_skipn k (sort_by_start all)), <- Hshown in Hsorted.
  destruct (sorted_split _ _ _ Hsorted) as [Hs1 Hs2].
  assert (Hperm : Permutation (shown ++ skipn k (sort_by_start all)) all).
  { rewrite Hshown, firstn_skipn. apply sort_by_start_perm. }
  split; [exact Hs1|].
  split; [exists (skipn k (sort_by_start all)); split; assumption|].
  split.
  { intros e He.
    assert (Hin : In e all).
    { eapply Permutation_in; [exact Hperm|]. apply in_or_app. now left. }
    apply filter_In in Hin as [Hin Hw]. apply String.eqb_eq in Hw. auto. }
  split.
  { intros Hl. rewrite Hshown, length_firstn, (Hlimit Hl).
    now rewrite (Permutation_length (sort_by_start_perm all)). }
  intros Hall. exists (skipn k all).
  rewrite Hshown, (sort_by_start_stable _ Hall). symmetry. apply firstn_skipn.
Qed.

Lemma filter_disjoint_length {A} (p q : A -> bool) l :
  (forall a, p a = true -> q a = false) ->
  (length (List.filter p l) + length (List.filter q l) <= length l)%nat.
Proof.
  intros Hpq. induction l as [|a l IH]; simpl; [lia|].
  destruct (p a) eqn:Hp; [rewrite (Hpq _ Hp)|destruct (q a)]; simpl; lia.
Qed.

(** X26.  The figures of getStats hang together: no more active
    workflows than workflows, no more successful and failed executions
    together than executions, and only records whose workflow is still
    stored for the user are counted at all, so that a user without
    workflows has no executions either. *)
Theorem stats_are_consistent (user : string) (svc : Service) :
  let stats := getStats user svc in
  (activeWorkflows stats <= totalWorkflows stats)%nat /\
  (totalWorkflows stats <= length (workflows svc))%nat /\
  (successfulExecutions stats + failedExecutions stats
   <= totalExecutions stats)%nat /\
  (totalExecutions stats <= length (executions svc))%nat /\
  totalExecutions stats
  = length (List.filter
              (fun e => existsb (fun w => String.eqb (wf_id (definition w))
                                                     (exec_workflowId e))
                                (listWorkflows user svc))
              (List.map snd (executions svc))) /\
  (listWorkflows user svc = [] ->
   stats = {| totalWorkflows := 0; activeWorkflows := 0; totalExecutions := 0;
              successfulExecutions := 0; failedExecutions := 0 |}).
Proof.
  intros stats. unfold stats, getStats.
  cbn [activeWorkflows totalWorkflows successfulExecutions failedExecutions
       totalExecutions].
  assert (Hsame : forall e,
             bool_decide
               (exec_workflowId e ∈
                  (list_to_set (List.map (fun w => wf_id (definition w))
                                         (listWorkflows user svc)) : gset string))
             = existsb (fun w => String.eqb (wf_id (definition w))
                                            (exec_workflowId e))
                       (listWorkflows user svc)).
  { intros e. apply eq_true_iff_eq.
    rewrite bool_decide_eq_true, elem_of_list_to_set, list_elem_of_In,
            in_map_iff, existsb_exists.
    split; intros (x & H1 & H2).
    - exists x. split; [exact H2|]. now apply String.eqb_eq.
    - exists x. apply String.eqb_eq in H2. auto. }
  split; [apply List.filter_length_le|].
  split.
  { unfold listWorkflows.
    etransitivity; [apply List.filter_length_le|]. now rewrite length_map. }
  split.
  { apply filter_disjoint_length. intros e. unfold is_succeeded, is_failed.
    now destruct (exec_status e). }
  split.
  { etransitivity; [apply List.filter_length_le|]. now rewrite length_map. }
  split.
  { f_equal. apply List.filter_ext. exact Hsame. }
  intros Hnone. rewrite Hnone. cbn.
  replace (List.filter _ (List.map snd (executions svc))) with (@nil ExecutionRecord);
    [reflexivity|].
  symmetry. induction (List.map snd (executions svc)) as [|e l IH]; [reflexivity|].
  simpl. rewrite <- IH. reflexivity.
Qed.

(** X27.  An execution that is recorded is read back under its id, the
    other records being as they were.  updateExecution changes nothing
    for an id without a record; for a recorded id it overlays the given
    fields on the record and files the result under the same id, adding
    no record and touching no other. *)
Theorem execution_records_round_trip (svc : Service) (data : ExecutionRecord)
  (executionId : string) (updates : ExecutionUpdate) :
  getExecution (exec_id data) (recordExecution data svc) = Some data /\
  (forall other, other <> exec_id data ->
     getExecution other (recordExecution data svc) = getExecution other svc) /\
  workflows (recordExecution data svc) = workflows svc /\
  (getExecution executionId svc = None ->
   updateExecution executionId updates svc = svc) /\
  (forall existing,
      getExecution executionId svc = Some existing ->
      getExecution executionId (updateExecution executionId updates svc)
      = Some (apply_update existing updates) /\
      List.map fst (executions (updateExecution executionId updates svc))
      = List.map fst (executions svc) /\
      (forall other, other <> executionId ->
         getExecution other (updateExecution executionId updates svc)
         = getExecution other svc)).
Proof.
  unfold getExecution, recordExecution, updateExecution. cbn [executions workflows].
  split; [now rewrite lookup_map_set, String.eqb_refl|].
  split.
  { intros other Hne. rewrite lookup_map_set.
    now replace (String.eqb (exec_id data) other) with false
      by (symmetry; apply String.eqb_neq; congruence). }
  split; [reflexivity|].
  split; [now intros ->|].
  intros existing He. rewrite He. cbn [executions].
  split; [now rewrite lookup_map_set, String.eqb_refl|].
  split.
  { rewrite SchedulerExtras.keys_map_set.
    assert (H : existsb (String.eqb executionId)
                  (List.map fst (executions svc)) = true).
    { clear -He. induction (executions svc) as [|[k v] m IH]; simpl in *;
        [discriminate|].
      rewrite (String.eqb_sym executionId k).
      destruct (String.eqb k executionId); [reflexivity|]. simpl. auto. }
    now rewrite H. }
  intros other Hne. rewrite lookup_map_set.
  now replace (String.eqb executionId other) with false
    by (symmetry; apply String.eqb_neq; congruence).
Qed.

Lemma deleted_workflow_stays_scheduled_witness :
  get "wf-3" None
    (service (snd (delete (fun _ _ => []) (fun _ u => u) "wf-3" "ann" owned_world)))
  = None /\
  exists kept,
    Scheduler.workflowStore
      (scheduler (snd (delete (fun _ _ => []) (fun _ u => u) "wf-3" "ann"
                         owned_world))) !! "wf-3"
    = Some kept.
Proof.
  destruct (deleted_workflow_stays_scheduled unit (fun _ u => u) (fun _ _ => [])
              (fun _ u => u) (rt := literal_runtime) registry quiet_world
              owned_world "u" "ann" 0 chain_data _ eq_refl)
    as (_ & Hget & _ & _ & Hstore & _).
  split; [exact Hget|]. eexists. exact Hstore.
Defined.

Lemma update_keeps_identity_witness :
  exists updated w',
    update (fun _ u => u) 9 "wf-3" "ann" no_changes owned_world
    = (Some updated, w') /\
    updatedAt updated = 9%Z /\ wf_id (definition updated) = "wf-3".
Proof.
  destruct (update_keeps_identity unit (fun _ u => u) owned_world "wf-3" "ann" 9
              no_changes _ eq_refl eq_refl)
    as (updated & w' & Hu & Hid & _ & _ & Hat & _).
  exists updated, w'. split; [exact Hu|]. split; [exact Hat|exact Hid].
Defined.

Lemma only_the_owner_changes_a_workflow_witness :
  delete (fun _ _ => []) (fun _ u => u) "wf-3" "bob" owned_world
  = (false, owned_world) /\
  fst (delete (fun _ _ => []) (fun _ u => u) "wf-3" "ann" owned_world) = true.
Proof.
  split; [|reflexivity].
  refine (proj1 (proj2 (only_the_owner_changes_a_workflow unit (fun _ u => u)
            (fun _ _ => []) (fun _ u => u) owned_world "wf-3" "bob" "u2" 1 _
            no_changes eq_refl _))).
  discriminate.
Defined.

Lemma created_workflow_is_read_back_witness :
  option_map userId (get "wf-3" (Some "ann") (service owned_world)) = Some "ann".
Proof.
  destruct (created_workflow_is_read_back unit (fun _ u => u) quiet_world
              owned_world "u" "ann" 0 chain_data _ eq_refl) as [H _].
  exact (f_equal (option_map userId) H).
Defined.

Lemma duplicate_keeps_the_shape_witness :
  exists copy w',
    duplicate (fun _ u => u) "u2" 1 "wf-3" "ann" owned_world
    = (Normal (Some copy), w') /\
    List.map node_id (Engine.findStartNodes (definition copy)) = ["A_copy"].
Proof.
  eexists _, _. split; [reflexivity|].
  destruct (duplicate_keeps_the_shape unit (fun _ u => u) owned_world _
              "u2" "wf-3" "ann" 1 _ _ eq_refl eq_refl)
    as (_ & _ & _ & _ & _ & _ & H & _).
  rewrite H. reflexivity.
Defined.

End WorkflowServiceExtras.
